(** * metadata_cleaning: dtype inference and missing-factor detection

    Shallow embedding of [metadata_cleaning/_dtypes_utils.py] and the
    properties of its four functions:
    [get_dtypes_and_unks] (scanner), [get_certainly_NaNs] (confirmer),
    [get_dtypes_final] (finalizer) and [rectify_dtypes_in_md] (rewriter). *)

From Stdlib Require Import Bool Arith ZArith List Ascii String Lia.
From Stdlib Require Import DecimalString Permutation Sorting.Sorted.
From Stdlib Require Import Floats.PrimFloat Floats.SpecFloat Floats.FloatOps.
Import ListNotations.

Local Open Scope string_scope.
Local Open Scope list_scope.

(** ** Python exceptions and the error monad *)

Inductive exn : Type :=
| TypeError
| ValueError
| OverflowError
| KeyError
| IndexError
| NameError.

Inductive result (A : Type) : Type :=
| Ok (a : A)
| Raise (e : exn).

Arguments Ok {A} a.
Arguments Raise {A} e.

Definition bind {A B : Type} (c : result A) (k : A -> result B) : result B :=
  match c with
  | Ok a => k a
  | Raise e => Raise e
  end.

Notation "x <- c ;; k" := (bind c (fun x => k))
  (at level 61, c at next level, right associativity).
Notation "' p <- c ;; k" := (bind c (fun p => k))
  (at level 61, p pattern, c at next level, right associativity).

(** A [for] loop whose body may raise: the first exception leaves the loop. *)
Fixpoint for_each {A S : Type} (body : S -> A -> result S) (l : list A) (s : S)
  : result S :=
  match l with
  | [] => Ok s
  | x :: l' => s' <- body s x ;; for_each body l' s'
  end.

Definition is_ok {A : Type} (r : result A) : bool :=
  match r with Ok _ => true | Raise _ => false end.

(** ** Python text

    A [str] is modelled by [string]; a character is a code point in
    [0, 255] (the Latin-1 range of Unicode). *)

Module Text.

Definition code (c : ascii) : nat := nat_of_ascii c.

Definition between (lo hi n : nat) : bool := Nat.leb lo n && Nat.leb n hi.

(** [str.lower] on one character: A-Z and the Latin-1 capitals
    (except the multiplication sign, 215) move up by 32. *)
Definition lower_char (c : ascii) : ascii :=
  let n := code c in
  if between 65 90 n || (between 192 222 n && negb (Nat.eqb n 215))
  then ascii_of_nat (n + 32)
  else c.

Fixpoint lower (s : string) : string :=
  match s with
  | EmptyString => EmptyString
  | String c r => String (lower_char c) (lower r)
  end.

(** [c.isdigit()]: the ASCII digits and the superscripts 2, 3 and 1. *)
Definition isdigit (c : ascii) : bool :=
  let n := code c in
  between 48 57 n || Nat.eqb n 178 || Nat.eqb n 179 || Nat.eqb n 185.

(** The decimal digits [float] accepts. *)
Definition is_decimal (c : ascii) : bool := between 48 57 (code c).

(** The white space [float] strips at both ends. *)
Definition is_space (c : ascii) : bool :=
  let n := code c in
  between 9 13 n || Nat.eqb n 32 || Nat.eqb n 133 || Nat.eqb n 160.

(** [c in s] for a character [c]. *)
Fixpoint has_char (c : ascii) (s : string) : bool :=
  match s with
  | EmptyString => false
  | String d r => Ascii.eqb c d || has_char c r
  end.

(** [[x for x in s if x.isdigit()]] *)
Fixpoint digits_of (s : string) : list ascii :=
  match s with
  | EmptyString => []
  | String c r => if isdigit c then c :: digits_of r else digits_of r
  end.

(** [sub in s] for a string [sub]. *)
Fixpoint contains (sub s : string) : bool :=
  String.prefix sub s ||
  match s with
  | EmptyString => false
  | String _ r => contains sub r
  end.

Fixpoint lstrip (s : string) : string :=
  match s with
  | EmptyString => EmptyString
  | String c r => if is_space c then lstrip r else s
  end.

Fixpoint rstrip (s : string) : string :=
  match s with
  | EmptyString => EmptyString
  | String c r =>
      match rstrip r with
      | EmptyString => if is_space c then EmptyString else String c EmptyString
      | r' => String c r'
      end
  end.

Definition strip (s : string) : string := rstrip (lstrip s).

End Text.

(** ** The syntax accepted by [float(s)] for a [str] *)

Module FloatSyntax.
Import Text.

(** Underscores may only stand between two digits; they are dropped
    before the number is read.  [prev] is the previous character. *)
Fixpoint drop_underscores (prev : ascii) (s : string) : option string :=
  match s with
  | EmptyString => if Ascii.eqb prev "_" then None else Some EmptyString
  | String c r =>
      if Ascii.eqb c "_" then
        if is_decimal prev then drop_underscores c r else None
      else if Ascii.eqb prev "_" && negb (is_decimal c) then None
      else option_map (String c) (drop_underscores c r)
  end.

Definition strip_sign (s : string) : string :=
  match s with
  | String c r => if Ascii.eqb c "+" || Ascii.eqb c "-" then r else s
  | EmptyString => s
  end.

Fixpoint skip_digits (s : string) : string :=
  match s with
  | String c r => if is_decimal c then skip_digits r else s
  | EmptyString => s
  end.

Definition starts_digit (s : string) : bool :=
  match s with
  | String c _ => is_decimal c
  | EmptyString => false
  end.

(** What may follow the mantissa: nothing, or [e], an optional sign and
    at least one digit. *)
Definition exponent_ok (s : string) : bool :=
  match s with
  | EmptyString => true
  | String c r =>
      (Ascii.eqb c "e" || Ascii.eqb c "E") &&
      let r' := strip_sign r in
      starts_digit r' && String.eqb (skip_digits r') ""
  end.

(** digits [.] digits with at least one digit, then the exponent. *)
Definition number_ok (s : string) : bool :=
  match skip_digits s with
  | String "." r' =>
      (starts_digit s || starts_digit r') && exponent_ok (skip_digits r')
  | r => starts_digit s && exponent_ok r
  end.

Definition inf_or_nan (s : string) : bool :=
  let l := lower s in
  String.eqb l "inf" || String.eqb l "infinity" || String.eqb l "nan".

Definition is_nan_literal (s : string) : bool :=
  String.eqb (lower s) "nan".

(** [float(s)] does not raise [ValueError]. *)
Definition float_syntax (s : string) : bool :=
  match drop_underscores "000" (strip s) with
  | None => false
  | Some t => let u := strip_sign t in number_ok u || inf_or_nan u
  end.

End FloatSyntax.

(** ** Python scalars held in a table cell *)

(** The two float routines of the runtime that are not re-implemented
    here: the shortest-digits printing of a float that is not NaN or
    infinite, and the correctly rounded value of a numeric literal. *)
Class FloatText : Type := {
  float_repr : float -> string;
  strtod : string -> float
}.

Inductive pyvalue : Type :=
| VStr (s : string)
| VFloat (f : float)
| VInt (z : Z)
| VBool (b : bool)
| VNone.

Section Builtins.
Context {FT : FloatText}.
Import Text FloatSyntax.

Definition str_of_float (f : float) : string :=
  if PrimFloat.is_nan f then "nan"
  else if PrimFloat.eqb f infinity then "inf"
  else if PrimFloat.eqb f neg_infinity then "-inf"
  else float_repr f.

(** [str(V)] *)
Definition py_str (V : pyvalue) : string :=
  match V with
  | VStr s => s
  | VFloat f => str_of_float f
  | VInt z => NilZero.string_of_int (Z.to_int z)
  | VBool true => "True"
  | VBool false => "False"
  | VNone => "None"
  end.

(** [str] of an [int] returns as long as the int has no more decimal
    digits than the interpreter's limit, 4300; past it [str] raises
    [ValueError].  [py_str] is the text on the values [str] returns
    on, which [printable] marks. *)
Definition max_str_digits : Z := 4300.

Definition printable (V : pyvalue) : bool :=
  match V with
  | VInt z => Z.ltb (Z.abs z) (10 ^ max_str_digits)
  | _ => true
  end.

Definition starts_minus (s : string) : bool :=
  match s with
  | String c _ => Ascii.eqb c "-"
  | EmptyString => false
  end.

(** The value of a string that [float_syntax] accepts. *)
Definition float_of_literal (s : string) : float :=
  match drop_underscores "000" (strip s) with
  | None => nan
  | Some t =>
      let u := lower (strip_sign t) in
      if String.eqb u "nan" then nan
      else if String.eqb u "inf" || String.eqb u "infinity"
      then (if starts_minus t then neg_infinity else infinity)
      else strtod t
  end.

(** An [int] rounds to the nearest float, ties to even. *)
Definition float_of_int (z : Z) : float :=
  SF2Prim (binary_normalize prec emax z 0 false).

(** [float(V)] *)
Definition py_float (V : pyvalue) : result float :=
  match V with
  | VStr s => if float_syntax s then Ok (float_of_literal s) else Raise ValueError
  | VFloat f => Ok f
  | VInt z =>
      let f := float_of_int z in
      if PrimFloat.is_infinity f then Raise OverflowError else Ok f
  | VBool b => Ok (if b then one else zero)
  | VNone => Raise TypeError
  end.

(** [sub in V]: only a [str] supports the membership test. *)
Definition py_contains (sub : string) (V : pyvalue) : result bool :=
  match V with
  | VStr s => Ok (contains sub s)
  | _ => Raise TypeError
  end.

Definition is_str (V : pyvalue) : bool :=
  match V with VStr _ => true | _ => false end.

(** *** Distinct values

    [Series.unique()] keeps the first occurrence of every value, in
    order; two cells hold the same value when they compare equal in
    Python, and all NaN count as one value. *)

Definition Z_eq_float (z : Z) (f : float) : bool :=
  match Prim2SF f with
  | S754_zero _ => Z.eqb z 0
  | S754_finite s m e =>
      let v := cond_Zopp s (Zpos m) in
      if Z.leb 0 e then Z.eqb z (v * 2 ^ e) else Z.eqb (z * 2 ^ (- e)) v
  | _ => false
  end.

Definition same_value (a b : pyvalue) : bool :=
  match a, b with
  | VStr s, VStr t => String.eqb s t
  | VNone, VNone => true
  | VFloat f, VFloat g =>
      PrimFloat.eqb f g || (PrimFloat.is_nan f && PrimFloat.is_nan g)
  | VFloat f, VInt z | VInt z, VFloat f => Z_eq_float z f
  | VFloat f, VBool c | VBool c, VFloat f => Z_eq_float (Z.b2z c) f
  | VInt z, VInt y => Z.eqb z y
  | VInt z, VBool c | VBool c, VInt z => Z.eqb z (Z.b2z c)
  | VBool c, VBool d => Bool.eqb c d
  | _, _ => false
  end.

Fixpoint unique_from (seen : list pyvalue) (l : list pyvalue) : list pyvalue :=
  match l with
  | [] => []
  | x :: r =>
      if existsb (same_value x) seen then unique_from seen r
      else x :: unique_from (x :: seen) r
  end.

Definition unique (l : list pyvalue) : list pyvalue := unique_from [] l.

End Builtins.

(** ** Dictionaries, sets and tables *)

(** A [dict] with [str] keys, in insertion order; keys are unique. *)
Definition dict (V : Type) : Type := list (string * V).

Module Dict.
Section Ops.
Context {V : Type}.

Definition keys (d : dict V) : list string := map fst d.

(** [d.get(k)] *)
Fixpoint get (k : string) (d : dict V) : option V :=
  match d with
  | [] => None
  | (k', v) :: r => if String.eqb k k' then Some v else get k r
  end.

(** [d[k]] *)
Definition getitem (k : string) (d : dict V) : result V :=
  match get k d with
  | Some v => Ok v
  | None => Raise KeyError
  end.

(** [d[k] = v]: an existing key keeps its place. *)
Fixpoint set (k : string) (v : V) (d : dict V) : dict V :=
  match d with
  | [] => [(k, v)]
  | (k', v') :: r =>
      if String.eqb k k' then (k, v) :: r else (k', v') :: set k v r
  end.

(** [k in d] *)
Definition mem (k : string) (d : dict V) : bool :=
  match get k d with Some _ => true | None => false end.
End Ops.

(** [d[k].append(x)] *)
Definition append {A : Type} (k : string) (x : A) (d : dict (list A))
  : result (dict (list A)) :=
  l <- getitem k d ;; Ok (set k (l ++ [x]) d).

(** [d.setdefault(k, []).append(x)] *)
Definition setdefault_append {A : Type} (k : string) (x : A) (d : dict (list A))
  : dict (list A) :=
  match get k d with
  | Some l => set k (l ++ [x]) d
  | None => set k [x] d
  end.
End Dict.

(** [x in l] for a list of [str]. *)
Definition in_list (x : string) (l : list string) : bool :=
  existsb (String.eqb x) l.

(** A number used as a condition. *)
Definition truthy (n : nat) : bool := negb (Nat.eqb n 0).

(** A column: the dtype name pandas gives it and its cells, row by row. *)
Record Series : Type := mk_Series {
  dtype_name : string;
  values : list pyvalue
}.

(** A table: its columns in order.  Column labels are unique. *)
Definition DataFrame : Type := list (string * Series).

Definition columns (md : DataFrame) : list string := map fst md.

(** [md[col]] *)
Definition df_getitem (md : DataFrame) (col : string) : result Series :=
  Dict.getitem col md.

(** No cell of the table is an int that [str] refuses. *)
Definition printable_table (md : DataFrame) : bool :=
  forallb (fun item => forallb printable (values (snd item))) md.

(** [s.replace(d)] for a mapping [d], which is pandas' business: it
    substitutes the cells that are keys of [d] and then infers the
    dtype of the column anew, so that an object column can come back as
    float64, its ints turned to floats and its [None] to NaN.  The
    finalizer is read for whatever [replace] returns or raises. *)
Class Pandas : Type := {
  series_replace : dict pyvalue -> Series -> result Series
}.

(** ** Scanner: [set_column_dtypes] and [get_dtypes_and_unks] *)

(** [float_to_string]: the four fields of the list, by index. *)
Record fts : Type := mk_fts {
  fts0 : nat;            (* contains a 'nan' *)
  fts1 : nat;            (* contains a 'float64' *)
  fts2 : nat;            (* contains a non-'float64' *)
  fts3 : list pyvalue    (* the unique non-'float64's *)
}.

Definition set_column_dtypes (dtypes : dict (list string)) (column : string)
    (float_to_string : fts) : result (dict (list string)) :=
  if negb (truthy (fts2 float_to_string)) then
    Dict.append column "float64" dtypes
  else if truthy (fts2 float_to_string) then
    if truthy (fts1 float_to_string) || truthy (fts0 float_to_string) then
      Dict.append column "check" dtypes
    else
      Dict.append column "object" dtypes
  else Ok dtypes.

Definition default_sampleIDs : list string := ["#SampleID"; "sample_name"].

(** [sampleID_cols] when it is given and not empty, else the default. *)
Definition sampleIDs_of (sampleID_cols : option (list string)) : list string :=
  match sampleID_cols with
  | Some (c :: l) => c :: l
  | _ => default_sampleIDs
  end.

Section Scanner.
Context {FT : FloatText}.
Import Text.

(** A [set] of cell values; the order of a Python set is not observable. *)
Definition set_add (x : pyvalue) (s : list pyvalue) : list pyvalue :=
  if existsb (same_value x) s then s else s ++ [x].

Definition scan_state : Type := fts * dict (list string) * list pyvalue.

(** The test that makes a non-float value a candidate factor. *)
Definition short_plain (v : string) : bool :=
  Nat.ltb (String.length v) 20 &&
  negb (has_char "/" v) && negb (has_char "-" v) &&
  negb (truthy (List.length (digits_of v))).

(** The body of the loop over the distinct values of a column. *)
Definition scan_value (regex_unk : string -> bool) (column : string)
    (st : scan_state) (V : pyvalue) : result scan_state :=
  let '(float_to_string, potential_unks, nan_diversity) := st in
  let v := lower (py_str V) in
  nan_diversity <-
    (if regex_unk v then
       b <- py_contains ":Unspecified" V ;;
       Ok (if negb b then set_add V nan_diversity else nan_diversity)
     else Ok nan_diversity) ;;
  if String.eqb (py_str V) "nan" then
    Ok (mk_fts (fts0 float_to_string + 1) (fts1 float_to_string)
               (fts2 float_to_string) (fts3 float_to_string),
        potential_unks, nan_diversity)
  else
    match py_float V with
    | Ok _ =>
        Ok (mk_fts (fts0 float_to_string) (fts1 float_to_string + 1)
                   (fts2 float_to_string) (fts3 float_to_string),
            potential_unks, nan_diversity)
    | Raise _ =>
        let float_to_string :=
          mk_fts (fts0 float_to_string) (fts1 float_to_string)
                 (fts2 float_to_string + 1) (fts3 float_to_string ++ [V]) in
        if short_plain v then
          Ok (float_to_string,
              Dict.setdefault_append v column potential_unks, nan_diversity)
        else Ok (float_to_string, potential_unks, nan_diversity)
    end.

Definition scan_result : Type :=
  dict (list string) * dict (list string) * list pyvalue.

(** The body of the loop over the columns. *)
Definition scan_column (pd_tab : DataFrame) (regex_unk : string -> bool)
    (sampleIDs : list string) (st : scan_result) (column : string)
  : result scan_result :=
  let '(dtypes, potential_unks, nan_diversity) := st in
  col <- df_getitem pd_tab column ;;
  let native_dtype := dtype_name col in
  let dtypes := Dict.set column [native_dtype] dtypes in
  let float_to_string := mk_fts 0 0 0 [] in
  if in_list column sampleIDs then
    dtypes <- Dict.append column "object" dtypes ;;
    Ok (dtypes, potential_unks, nan_diversity)
  else
    ' (float_to_string, potential_unks, nan_diversity) <-
      for_each (scan_value regex_unk column) (unique (values col))
               (float_to_string, potential_unks, nan_diversity) ;;
    dtypes <- set_column_dtypes dtypes column float_to_string ;;
    Ok (dtypes, potential_unks, nan_diversity).

(** Returns [(dtypes, potential_unks, nan_diversity)]. *)
Definition get_dtypes_and_unks (pd_tab : DataFrame)
    (regex_unk : string -> bool) (sampleID_cols : option (list string))
  : result scan_result :=
  let sampleIDs := sampleIDs_of sampleID_cols in
  for_each (scan_column pd_tab regex_unk sampleIDs) (columns pd_tab)
           ([], [], []).

End Scanner.

(** ** Confirmer: [get_certainly_NaNs] *)

(** [sorted(d.items())]: by key, in code-point order. *)
Fixpoint insert_item {V : Type} (x : string * V) (l : list (string * V))
  : list (string * V) :=
  match l with
  | [] => [x]
  | y :: r => if String.leb (fst x) (fst y) then x :: y :: r
              else y :: insert_item x r
  end.

Fixpoint sorted_items {V : Type} (d : dict V) : list (string * V) :=
  match d with
  | [] => []
  | x :: r => insert_item x (sorted_items r)
  end.

(** The binary table: one row per table column, one column per factor. *)
Record Incidence : Type := mk_Incidence {
  inc_index : list string;      (* row labels *)
  inc_columns : list string;    (* column labels *)
  inc_rows : list (list nat)    (* the cells, row by row *)
}.

(** [frame.sum(0)]: the sum of every column. *)
Definition column_sums (fr : Incidence) : list nat :=
  map (fun j => list_sum (map (fun row => nth j row 0) (inc_rows fr)))
      (seq 0 (List.length (inc_columns fr))).

(** Keeps the entries of [l] whose mask is [true]. *)
Fixpoint select {A : Type} (mask : list bool) (l : list A) : list A :=
  match mask, l with
  | b :: mask', x :: l' => if b then x :: select mask' l' else select mask' l'
  | _, _ => []
  end.

(** [frame.loc[:, mask]] *)
Definition loc_columns (fr : Incidence) (mask : list bool) : Incidence :=
  mk_Incidence (inc_index fr) (select mask (inc_columns fr))
               (map (select mask) (inc_rows fr)).

Definition get_certainly_NaNs (potential_unks : dict (list string))
    (md_pd : DataFrame) (thresh : Z) : Incidence :=
  let potential_unks_pd_L :=
    map (fun col =>
           map (fun item => if in_list col (snd item) then 1 else 0)
               (sorted_items potential_unks))
        (columns md_pd) in
  let potential_unks_pd :=
    mk_Incidence (columns md_pd) (map fst (sorted_items potential_unks))
                 potential_unks_pd_L in
  let sumCols := column_sums potential_unks_pd in
  loc_columns potential_unks_pd
              (map (fun s => Z.ltb thresh (Z.of_nat s)) sumCols).

(** ** Finalizer: [get_dtypes_final] *)

Section Finalizer.
Context {FT : FloatText} {PD : Pandas}.

(** [md.replace({col: d})]: the column labelled [col] goes through
    [replace]; a label that is not a column is ignored. *)
Fixpoint df_replace (d : dict pyvalue) (md : DataFrame) (col : string)
  : result DataFrame :=
  match md with
  | [] => Ok []
  | (c, s) :: r =>
      if String.eqb col c
      then s' <- series_replace d s ;; Ok ((c, s') :: r)
      else r' <- df_replace d r col ;; Ok ((c, s) :: r')
  end.

(** The module-level name [to_nan] the function reads, the mapping from
    confirmed factors to the value that replaces them.  The file does
    not bind the name: [None] is the module as it is, in which reading
    the name raises [NameError]; [Some d] is the module once a caller
    has set the name to [d]. *)
Variable to_nan : option (dict pyvalue).

Definition read_to_nan : result (dict pyvalue) :=
  match to_nan with
  | Some d => Ok d
  | None => Raise NameError
  end.

(** [checks[-1]] *)
Definition last_item (checks : list string) : result string :=
  match rev checks with
  | x :: _ => Ok x
  | [] => Raise IndexError
  end.

(** The second scan of a column: [true] when the loop leaves through
    [break], at the first value that is neither 'nan' nor a float. *)
Fixpoint rescan_breaks (l : list pyvalue) : bool :=
  match l with
  | [] => false
  | v :: r =>
      if String.eqb (py_str v) "nan" then rescan_breaks r
      else match py_float v with
           | Ok _ => rescan_breaks r
           | Raise _ => true
           end
  end.

Definition final_state : Type :=
  dict (list string) * dict string * DataFrame.

(** The body of the loop over [dtypes.items()]. *)
Definition finalize_column (sampleIDs : list string) (st : final_state)
    (item : string * list string) : result final_state :=
  let '(dtypes, dtypes_final, md_pd) := st in
  let '(col, checks) := item in
  if in_list col sampleIDs then
    dtypes <- Dict.append col "object" dtypes ;;
    Ok (dtypes, Dict.set col "O" dtypes_final, md_pd)
  else
    tag <- last_item checks ;;
    if in_list tag ["check"; "object"] then
      d <- read_to_nan ;;
      md_pd <- df_replace d md_pd col ;;
      s <- df_getitem md_pd col ;;
      if rescan_breaks (unique (values s)) then
        dtypes <- Dict.append col "object" dtypes ;;
        Ok (dtypes, Dict.set col "O" dtypes_final, md_pd)
      else
        dtypes <- Dict.append col "float64" dtypes ;;
        Ok (dtypes, Dict.set col "Q" dtypes_final, md_pd)
    else
      dtypes <- Dict.append col tag dtypes ;;
      Ok (dtypes, Dict.set col "Q" dtypes_final, md_pd).

Definition get_dtypes_final_state (dtypes : dict (list string))
    (md_pd : DataFrame) (sampleID_cols : option (list string))
  : result final_state :=
  let sampleIDs := sampleIDs_of sampleID_cols in
  for_each (finalize_column sampleIDs) dtypes (dtypes, [], md_pd).

(** Returns [(dtypes_final, md_pd)]; the lists held by [dtypes] have
    grown by one tag each, which [get_dtypes_final_state] also shows. *)
Definition get_dtypes_final (dtypes : dict (list string))
    (md_pd : DataFrame) (sampleID_cols : option (list string))
  : result (dict string * DataFrame) :=
  ' (_, dtypes_final, md_pd) <-
    get_dtypes_final_state dtypes md_pd sampleID_cols ;;
  Ok (dtypes_final, md_pd).

End Finalizer.

(** ** Rewriter: [rectify_dtypes_in_md] *)

Section Rewriter.
Context {FT : FloatText}.

(** One cell under [astype('float64')]: [None] becomes NaN, anything
    else goes through [float]. *)
Definition to_float64 (v : pyvalue) : result float :=
  match v with
  | VNone => Ok nan
  | _ => py_float v
  end.

Fixpoint map_result {A B : Type} (f : A -> result B) (l : list A)
  : result (list B) :=
  match l with
  | [] => Ok []
  | x :: r => y <- f x ;; ys <- map_result f r ;; Ok (y :: ys)
  end.

(** [s.astype('float64')] *)
Definition astype_float64 (s : Series) : result Series :=
  fs <- map_result to_float64 (values s) ;;
  Ok (mk_Series "float64" (map VFloat fs)).

(** [s.astype('str')] *)
Definition astype_str (s : Series) : Series :=
  mk_Series "object" (map (fun v => VStr (py_str v)) (values s)).

(** [md[col] = s]: an existing column keeps its place, a new one
    goes last. *)
Definition df_setitem (md : DataFrame) (col : string) (s : Series)
  : DataFrame :=
  Dict.set col s md.

(** The body of the loop over [dtypes_final.items()]. *)
Definition rectify_column (md_pd : DataFrame) (item : string * string)
  : result DataFrame :=
  let '(col, dtype) := item in
  if in_list col (columns md_pd) then
    if String.eqb dtype "Q" then
      s <- df_getitem md_pd col ;;
      s' <- astype_float64 s ;;
      Ok (df_setitem md_pd col s')
    else
      s <- df_getitem md_pd col ;;
      Ok (df_setitem md_pd col (astype_str s))
  else
    s <- df_getitem md_pd col ;;
    Ok (df_setitem md_pd col (astype_str s)).

Definition rectify_dtypes_in_md (dtypes_final : dict string)
    (md_pd : DataFrame) : result DataFrame :=
  for_each rectify_column dtypes_final md_pd.

End Rewriter.

(** ** The float routines of CPython

    [strtod] rounds a decimal literal to the nearest float, ties to even;
    [float_repr] prints the shortest decimal string that reads back as
    the same float. *)

Module CPython.
Import Text FloatSyntax.
Local Open Scope Z_scope.

Definition digit_value (c : ascii) : Z := Z.of_nat (nat_of_ascii c) - 48.

(** Reads a run of digits: the number so far, how many digits were
    read, and the rest of the text. *)
Fixpoint read_digits (acc count : Z) (s : string) : Z * Z * string :=
  match s with
  | String c r =>
      if is_decimal c then read_digits (acc * 10 + digit_value c) (count + 1) r
      else (acc, count, s)
  | EmptyString => (acc, count, s)
  end.

(** A literal [sign digits . digits e sign digits] as
    [(negative, m, e)], standing for [m * 10 ^ e]. *)
Definition read_literal (t : string) : bool * Z * Z :=
  let '(i, _, r1) := read_digits 0 0 (strip_sign t) in
  let '(m, nf, r2) :=
    match r1 with
    | String "." r => read_digits i 0 r
    | _ => (i, 0, r1)
    end in
  let x :=
    match r2 with
    | String _ r =>
        let '(x, _, _) := read_digits 0 0 (strip_sign r) in
        if starts_minus r then - x else x
    | EmptyString => 0
    end in
  (starts_minus t, m, x - nf).

(** [n / d] rounded to the nearest float, for [n] and [d] positive:
    the quotient is taken with enough bits, and what is left over
    tells the rounding where the exact value lies. *)
Definition round_ratio (negative : bool) (n d : Z) : spec_float :=
  let k := Z.max 0 (56 + Z.log2 d - Z.log2 n) in
  let '(q, r) := Z.div_eucl (n * 2 ^ k) d in
  let loc := if r =? 0 then loc_Exact else loc_Inexact (Z.compare (2 * r) d) in
  binary_round_aux prec emax negative q (- k) loc.

Definition float_of_decimal (negative : bool) (m e : Z) : float :=
  if m =? 0 then (if negative then neg_zero else zero)
  else if 310 <? e then (if negative then neg_infinity else infinity)
  else if 3 * e + Z.log2 m + 1 <? -1076 then (if negative then neg_zero else zero)
  else if 0 <=? e then SF2Prim (round_ratio negative (m * 10 ^ e) 1)
  else SF2Prim (round_ratio negative m (10 ^ (- e))).

Definition strtod (t : string) : float :=
  let '(negative, m, e) := read_literal t in
  float_of_decimal negative m e.

(** *** Printing *)

(** [floor (log10 (n / d))] for [n] and [d] positive, from an estimate
    that is off by one at most. *)
Definition pow10_le (k n d : Z) : bool :=   (* 10 ^ k <= n / d *)
  if 0 <=? k then 10 ^ k * d <=? n else d <=? n * 10 ^ (- k).

Definition floor_log10 (n d : Z) : Z :=
  let est := ((Z.log2 n - Z.log2 d) * 30103) / 100000 in
  if pow10_le (est + 2) n d then est + 2
  else if pow10_le (est + 1) n d then est + 1
  else if pow10_le est n d then est
  else if pow10_le (est - 1) n d then est - 1
  else est - 2.

(** The shortest digits: at most [fuel] more lengths are tried, from
    [n] digits on.  The float is [v / dn], the reals that round to it
    lie between [lo / dn] and [hi / dn], ends included when
    [closed]. *)
Fixpoint shortest (fuel : nat) (n : Z) (k10 : Z) (v lo hi dn : Z) (closed : bool)
  : Z * Z :=
  let p := k10 - n + 1 in
  let P := 10 ^ (Z.max p 0) * dn in
  let Q := 10 ^ (Z.max (- p) 0) in
  let d := (v * Q) / P in
  let low_ok := if closed then lo * Q <=? d * P else lo * Q <? d * P in
  let high_ok := if closed then (d + 1) * P <=? hi * Q else (d + 1) * P <? hi * Q in
  let up :=
    match Z.compare (2 * (v * Q - d * P)) P with
    | Lt => false
    | Eq => Z.odd d
    | Gt => true
    end in
  match fuel with
  | O => (if up then d + 1 else d, p)
  | S fuel' =>
      if low_ok && high_ok then (if up then d + 1 else d, p)
      else if low_ok then (d, p)
      else if high_ok then (d + 1, p)
      else shortest fuel' (n + 1) k10 v lo hi dn closed
  end.

Fixpoint strip_zeros (fuel : nat) (d p : Z) : Z * Z :=
  match fuel with
  | O => (d, p)
  | S fuel' => if (d mod 10 =? 0) && negb (d =? 0)
               then strip_zeros fuel' (d / 10) (p + 1) else (d, p)
  end.

(** The digits and the decimal exponent of a finite positive float
    [m * 2 ^ e]. *)
Definition shortest_digits (m : positive) (e : Z) : Z * Z :=
  let e2 := e - 2 in
  let s2 := 2 ^ (Z.max e2 0) in
  let dn := 2 ^ (Z.max (- e2) 0) in
  let narrow := (Zpos m =? 2 ^ 52) && (-1074 <? e) in
  let v := 4 * Zpos m * s2 in
  let lo := (4 * Zpos m - (if narrow then 1 else 2)) * s2 in
  let hi := (4 * Zpos m + 2) * s2 in
  let '(d, p) := shortest 17 1 (floor_log10 v dn) v lo hi dn (Z.even (Zpos m)) in
  strip_zeros 20 d p.

Definition digits_text (d : Z) : string := NilZero.string_of_int (Z.to_int d).

Fixpoint zeros (n : nat) : string :=
  match n with
  | O => ""
  | S n' => String "0" (zeros n')
  end.

(** The text of the digits [ds] with the decimal point after the first
    [decpt] of them, the way [repr] lays a float out. *)
Definition layout (ds : string) (decpt : Z) : string :=
  let nd := Z.of_nat (String.length ds) in
  if (decpt <=? -4) || (16 <? decpt) then
    let x := decpt - 1 in
    let xs := digits_text (Z.abs x) in
    let mant :=
      match ds with
      | String c EmptyString => ds
      | String c r => String c (String "." r)
      | EmptyString => ds
      end in
    mant ++ "e" ++ (if x <? 0 then "-" else "+") ++
    (if Z.abs x <? 10 then "0" else "") ++ xs
  else if decpt <=? 0 then
    "0." ++ zeros (Z.to_nat (- decpt)) ++ ds
  else if nd <=? decpt then
    ds ++ zeros (Z.to_nat (decpt - nd)) ++ ".0"
  else
    substring 0 (Z.to_nat decpt) ds ++ "." ++
    substring (Z.to_nat decpt) (Z.to_nat (nd - decpt)) ds.

Definition float_repr (f : float) : string :=
  match Prim2SF f with
  | S754_zero s => if s then "-0.0" else "0.0"
  | S754_finite s m e =>
      let '(d, p) := shortest_digits m e in
      let ds := digits_text d in
      (if s then "-" else "") ++ layout ds (p + Z.of_nat (String.length ds))
  | S754_infinity s => if s then "-inf" else "inf"
  | S754_nan => "nan"
  end.

End CPython.

#[export] Instance cpython_float_text : FloatText :=
  {| float_repr := CPython.float_repr; strtod := CPython.strtod |}.

(** ** [replace] as pandas 1.5 does it

    On a column that is not of dtype object, or with an empty mapping,
    nothing changes.  On an object column the cells that are keys of
    the mapping are substituted, all at once; unless every new value is
    [None], the dtype is then inferred anew from the cells, read from
    the first to the last. *)

Module Pandas15.
Local Open Scope Z_scope.

(** One cell under the mapping. *)
Definition substitute (d : dict pyvalue) (v : pyvalue) : pyvalue :=
  match v with
  | VStr s => match Dict.get s d with Some y => y | None => v end
  | _ => v
  end.

(** What the inference has seen of the cells so far. *)
Record Seen : Type := mk_Seen {
  null_ : bool;      (* a None *)
  nan_ : bool;       (* a NaN *)
  bool_ : bool;
  float_ : bool;
  int_ : bool;
  uint_ : bool;      (* an int above the largest int64 *)
  sint_ : bool;      (* a negative int *)
  object_ : bool     (* something that stays a Python object *)
}.

Definition seen0 : Seen :=
  mk_Seen false false false false false false false false.

Definition int64_min : Z := - 2 ^ 63.
Definition int64_max : Z := 2 ^ 63 - 1.
Definition uint64_max : Z := 2 ^ 64 - 1.

(** The loop over the cells; it stops at the first cell that has to
    stay an object.  An int is also stored as a float on the way, which
    raises when it is past the floats. *)
Fixpoint scan_objects (l : list pyvalue) (sn : Seen) : result Seen :=
  match l with
  | [] => Ok sn
  | v :: r =>
      match v with
      | VNone =>
          scan_objects r
            (mk_Seen true (nan_ sn) (bool_ sn) (float_ sn) (int_ sn)
                     (uint_ sn) (sint_ sn) (object_ sn))
      | VFloat f =>
          if PrimFloat.is_nan f
          then scan_objects r
                 (mk_Seen (null_ sn) true (bool_ sn) (float_ sn) (int_ sn)
                          (uint_ sn) (sint_ sn) (object_ sn))
          else scan_objects r
                 (mk_Seen (null_ sn) (nan_ sn) (bool_ sn) true (int_ sn)
                          (uint_ sn) (sint_ sn) (object_ sn))
      | VBool _ =>
          scan_objects r
            (mk_Seen (null_ sn) (nan_ sn) true (float_ sn) (int_ sn)
                     (uint_ sn) (sint_ sn) (object_ sn))
      | VInt z =>
          if PrimFloat.is_infinity (float_of_int z) then Raise OverflowError
          else if null_ sn
          then scan_objects r
                 (mk_Seen (null_ sn) (nan_ sn) (bool_ sn) (float_ sn) true
                          (uint_ sn) (sint_ sn) (object_ sn))
          else
            let u := uint_ sn || ((int64_max <? z) && (z <=? uint64_max)) in
            let g := sint_ sn || ((int64_min <=? z) && (z <? 0)) in
            if (u && g) || (uint64_max <? z) || (z <? int64_min)
            then Ok (mk_Seen (null_ sn) (nan_ sn) (bool_ sn) (float_ sn) true
                             u g true)
            else scan_objects r
                   (mk_Seen (null_ sn) (nan_ sn) (bool_ sn) (float_ sn) true
                            u g (object_ sn))
      | VStr _ =>
          Ok (mk_Seen (null_ sn) (nan_ sn) (bool_ sn) (float_ sn) (int_ sn)
                      (uint_ sn) (sint_ sn) true)
      end
  end.

(** A cell of a column that becomes float64. *)
Definition float_cell (v : pyvalue) : pyvalue :=
  match v with
  | VNone => VFloat nan
  | VInt z => VFloat (float_of_int z)
  | _ => v
  end.

(** The column inferred from the cells of an object column. *)
Definition convert_objects (l : list pyvalue) : result Series :=
  sn <- scan_objects l seen0 ;;
  let numbers := float_ sn || int_ sn in
  Ok (if object_ sn then mk_Series "object" l
      else if null_ sn || nan_ sn then
        if negb (bool_ sn) && (numbers || nan_ sn)
        then mk_Series "float64" (map float_cell l)
        else mk_Series "object" l
      else if bool_ sn then
        if numbers then mk_Series "object" l else mk_Series "bool" l
      else if float_ sn then mk_Series "float64" (map float_cell l)
      else if int_ sn then
        if uint_ sn then mk_Series "uint64" l else mk_Series "int64" l
      else mk_Series "object" l).

Definition is_none (v : pyvalue) : bool :=
  match v with VNone => true | _ => false end.

Definition replace (d : dict pyvalue) (s : Series) : result Series :=
  if negb (String.eqb (dtype_name s) "object") then Ok s
  else
    match d with
    | [] => Ok s
    | _ :: _ =>
        let l := map (substitute d) (values s) in
        if forallb is_none (map snd d) then Ok (mk_Series "object" l)
        else convert_objects l
    end.

End Pandas15.

#[export] Instance pandas15 : Pandas :=
  {| series_replace := Pandas15.replace |}.

(** ** Vocabulary of the properties *)

Section Vocabulary.
Context {FT : FloatText}.

(** The string form of [V] is the native-missing marker. *)
Definition is_missing (V : pyvalue) : bool := String.eqb (py_str V) "nan".

(** [float(V)] returns. *)
Definition parses (V : pyvalue) : bool := is_ok (py_float V).

(** The distinct values of each kind, as the three counters count them. *)
Definition count_missing (l : list pyvalue) : nat :=
  List.length (filter is_missing l).

Definition count_float (l : list pyvalue) : nat :=
  List.length (filter (fun V => negb (is_missing V) && parses V) l).

Definition count_non_float (l : list pyvalue) : nat :=
  List.length (filter (fun V => negb (is_missing V) && negb (parses V)) l).

(** The preliminary tag, from the three counters. *)
Definition tag_of_counts (missing floats non_floats : nat) : string :=
  if Nat.eqb non_floats 0 then "float64"
  else if negb (Nat.eqb floats 0) || negb (Nat.eqb missing 0) then "check"
  else "object".

(** The tag the scanner gives column [column] holding [s]. *)
Definition scanner_tag (sampleIDs : list string) (column : string) (s : Series)
  : string :=
  if in_list column sampleIDs then "object"
  else
    let U := unique (values s) in
    tag_of_counts (count_missing U) (count_float U) (count_non_float U).

(** The columns a factor maps to in the candidate-unknowns map. *)
Definition factor_columns (potential_unks : dict (list string)) (v : string)
  : list string :=
  match Dict.get v potential_unks with
  | Some l => l
  | None => []
  end.

(** The value is appended to the candidate-unknowns map when the loop
    reaches it. *)
Definition registers (V : pyvalue) : bool :=
  negb (parses V) && short_plain (Text.lower (py_str V)).

(** Reading the value makes the scanner raise: the pattern matches its
    lowercase string form and it is not a [str]. *)
Definition trips (regex_unk : string -> bool) (V : pyvalue) : bool :=
  regex_unk (Text.lower (py_str V)) && negb (is_str V).

(** The three parts of the state after the value loop has read [V]. *)
Definition next_counters (f : fts) (V : pyvalue) : fts :=
  if is_missing V then mk_fts (fts0 f + 1) (fts1 f) (fts2 f) (fts3 f)
  else if parses V then mk_fts (fts0 f) (fts1 f + 1) (fts2 f) (fts3 f)
  else mk_fts (fts0 f) (fts1 f) (fts2 f + 1) (fts3 f ++ [V]).

Definition next_unks (column : string) (pu : dict (list string)) (V : pyvalue)
  : dict (list string) :=
  if registers V
  then Dict.setdefault_append (Text.lower (py_str V)) column pu
  else pu.

Definition next_diversity (regex_unk : string -> bool) (nd : list pyvalue)
    (V : pyvalue) : list pyvalue :=
  match V with
  | VStr s =>
      if regex_unk (Text.lower s) && negb (Text.contains ":Unspecified" s)
      then set_add V nd else nd
  | _ => nd
  end.

(** Column [c] holds a distinct value that is registered under [v]. *)
Definition contributes (pd_tab : DataFrame) (sampleIDs : list string)
    (c v : string) : Prop :=
  exists s V, Dict.get c pd_tab = Some s /\ in_list c sampleIDs = false /\
              In V (unique (values s)) /\
              Text.lower (py_str V) = v /\ registers V = true.

(** The table with the cells of column [column] replaced by [vs]. *)
Definition with_values (column : string) (vs : list pyvalue) (md : DataFrame)
  : DataFrame :=
  map (fun cs => if String.eqb column (fst cs)
                 then (fst cs, mk_Series (dtype_name (snd cs)) vs)
                 else cs) md.

(** The number of table columns that the list [cols] names; a column
    counts once however often [cols] repeats it. *)
Definition column_count (md : DataFrame) (cols : list string) : nat :=
  List.length (filter (fun c => in_list c cols) (columns md)).

(** What the finalizer owes the entry [(col, checks)] of [dtypes]. *)
Definition finalized {PD : Pandas} (to_nan : option (dict pyvalue))
    (sampleIDs : list string)
    (md_pd : DataFrame) (col : string) (checks : list string)
    (final : dict string) (md : DataFrame) : Prop :=
  (in_list col sampleIDs = true ->
   Dict.get col final = Some "O" /\ Dict.get col md = Dict.get col md_pd) /\
  (in_list col sampleIDs = false ->
   exists tag, last_item checks = Ok tag /\
     (in_list tag ["check"; "object"] = true ->
      exists d s s',
        to_nan = Some d /\ Dict.get col md_pd = Some s /\
        series_replace d s = Ok s' /\ Dict.get col md = Some s' /\
        Dict.get col final =
        Some (if rescan_breaks (unique (values s')) then "O" else "Q")) /\
     (in_list tag ["check"; "object"] = false ->
      Dict.get col final = Some "Q" /\ Dict.get col md = Dict.get col md_pd)).

(** The column is already what [astype] makes of a column. *)
Definition coerced (dtype : string) (s : Series) : Prop :=
  if String.eqb dtype "Q"
  then exists fs, s = mk_Series "float64" (map VFloat fs)
  else exists ss, s = mk_Series "object" (map VStr ss).

End Vocabulary.

(** ** A small table, used to run the four stages *)

(** A pattern of the kind callers pass: the lowercase text holds one of
    a few words. *)
Definition demo_regex (v : string) : bool :=
  Text.contains "unk" v || Text.contains "nan" v ||
  Text.contains "missing" v || Text.contains "not provided" v.

Definition demo_table : DataFrame :=
  [("sample_name", mk_Series "object" [VStr "101"; VStr "102"; VStr "103"; VStr "104"]);
   ("age", mk_Series "object" [VInt 25; VInt 30; VStr "nan"; VInt 40]);
   ("weight_kg", mk_Series "object" [VFloat 55.5; VStr "unk"; VFloat 60; VFloat 55.5]);
   ("host_diet", mk_Series "object"
      [VStr "missing"; VStr "omnivore"; VStr "not provided"; VStr "herbivore"])].

(** What the scanner returns on [demo_table]. *)
Definition demo_dtypes : dict (list string) :=
  [("sample_name", ["object"; "object"]);
   ("age", ["object"; "float64"]);
   ("weight_kg", ["object"; "check"]);
   ("host_diet", ["object"; "object"])].

Definition demo_unks : dict (list string) :=
  [("unk", ["weight_kg"]);
   ("missing", ["host_diet"]);
   ("omnivore", ["host_diet"]);
   ("not provided", ["host_diet"]);
   ("herbivore", ["host_diet"])].

Definition demo_diversity : list pyvalue :=
  [VStr "nan"; VStr "unk"; VStr "missing"; VStr "not provided"].

(** The substitution a caller builds once 'unk' is confirmed. *)
Definition demo_to_nan : dict pyvalue := [("unk", VFloat nan)].

Definition demo_final : dict string :=
  [("sample_name", "O"); ("age", "Q"); ("weight_kg", "Q"); ("host_diet", "O")].

(** The working table the finalizer returns with [demo_to_nan]. *)
Definition demo_replaced : DataFrame :=
  [("sample_name", mk_Series "object" [VStr "101"; VStr "102"; VStr "103"; VStr "104"]);
   ("age", mk_Series "object" [VInt 25; VInt 30; VStr "nan"; VInt 40]);
   ("weight_kg", mk_Series "float64" [VFloat 55.5; VFloat nan; VFloat 60; VFloat 55.5]);
   ("host_diet", mk_Series "object"
      [VStr "missing"; VStr "omnivore"; VStr "not provided"; VStr "herbivore"])].

(** The table after the rewriter. *)
Definition demo_rewritten : DataFrame :=
  [("sample_name", mk_Series "object" [VStr "101"; VStr "102"; VStr "103"; VStr "104"]);
   ("age", mk_Series "float64" [VFloat 25; VFloat 30; VFloat nan; VFloat 40]);
   ("weight_kg", mk_Series "float64" [VFloat 55.5; VFloat nan; VFloat 60; VFloat 55.5]);
   ("host_diet", mk_Series "object"
      [VStr "missing"; VStr "omnivore"; VStr "not provided"; VStr "herbivore"])].

(** A column of floats with a missing cell, and a pattern that matches
    the text 'nan'. *)
Definition nan_table : DataFrame :=
  [("depth_m", mk_Series "float64" [VFloat 1.5; VFloat nan; VFloat 3])].

Definition nan_regex (v : string) : bool := Text.contains "nan" v.

(** A candidate map in which 'unk' was met in three columns, twice in
    one of them, and a table with four columns. *)
Definition count_unks : dict (list string) :=
  [("unk", ["age"; "weight_kg"; "weight_kg"; "host_diet"]);
   ("omnivore", ["host_diet"])].

(** ** Vocabulary of the further properties *)

(** The value is a [str] that the pattern matches and that does not
    hold ':Unspecified'. *)
Definition flagged (regex_unk : string -> bool) (W : pyvalue) : Prop :=
  exists t, W = VStr t /\ regex_unk (Text.lower t) = true /\
            Text.contains ":Unspecified" t = false.

(** The distinct values of [l] that are registered under [v]. *)
Definition registered_under {FT : FloatText} (v : string) (l : list pyvalue)
  : list pyvalue :=
  filter (fun V => String.eqb (Text.lower (py_str V)) v &&
                   (negb (parses V) && short_plain v)) l.

(** The order [sorted] puts the items of a dict in: by key. *)
Definition key_le {V : Type} (p q : string * V) : Prop :=
  String.leb (fst p) (fst q) = true.

(** The entries of the candidate map that pass the threshold, sorted. *)
Definition kept_items (potential_unks : dict (list string)) (md_pd : DataFrame)
    (thresh : Z) : list (string * list string) :=
  filter (fun item => Z.ltb thresh (Z.of_nat (column_count md_pd (snd item))))
         (sorted_items potential_unks).

(** [replace] with the mapping [d] returns on every column of the
    table, and returns no int that [str] refuses. *)
Definition substitution_returns {PD : Pandas} (d : dict pyvalue) (md : DataFrame)
  : bool :=
  forallb (fun item =>
             match series_replace d (snd item) with
             | Ok s' => forallb printable (values s')
             | Raise _ => false
             end) md.

(** The entry of [(col, checks)] in the grown [dtypes] and its code. *)
Definition tag_appended (col : string) (checks : list string)
    (d : dict (list string)) (final : dict string) : Prop :=
  exists t code,
    Dict.get col d = Some (checks ++ [t]) /\ Dict.get col final = Some code /\
    (code = "O" /\ t = "object" \/
     code = "Q" /\ (t = "float64" \/ last_item checks = Ok t)).

(** What the rewriter makes of the column [s] under the code [dtype]. *)
Definition rewritten_as {FT : FloatText} (dtype : string) (s s' : Series) : Prop :=
  if String.eqb dtype "Q" then astype_float64 s = Ok s' else s' = astype_str s.

(** Every cell can go to float64: it is [None] or [float] takes it. *)
Definition float_cells {FT : FloatText} (s : Series) : Prop :=
  forall v, In v (values s) -> v = VNone \/ parses v = true.

(** * Properties *)

(** ** The error monad and loops *)

Lemma bind_ok {A B : Type} (c : result A) (k : A -> result B) (b : B) :
  bind c k = Ok b -> exists a, c = Ok a /\ k a = Ok b.
Proof.
  destruct c as [a|e]; simpl; intros H; [exists a; auto | discriminate].
Qed.

Lemma for_each_app {A S : Type} (body : S -> A -> result S) (l1 l2 : list A) (s : S) :
  for_each body (l1 ++ l2) s = bind (for_each body l1 s) (for_each body l2).
Proof.
  revert s; induction l1 as [|x l1 IH]; intros s; simpl; [reflexivity|].
  destruct (body s x) as [s'|e]; simpl; [apply IH | reflexivity].
Qed.

(** An invariant kept by every step that returns is kept by the loop;
    the step may use where it stands in the list. *)
Lemma for_each_invariant_at {A S : Type} (body : S -> A -> result S)
    (I : list A -> S -> Prop) (l : list A) (s0 s : S) :
  I [] s0 ->
  (forall done x rest s s',
      l = done ++ x :: rest -> I done s -> body s x = Ok s' -> I (done ++ [x]) s') ->
  for_each body l s0 = Ok s -> I l s.
Proof.
  intros H0 Hstep.
  assert (G : forall rest done s1,
             l = done ++ rest -> I done s1 ->
             for_each body rest s1 = Ok s -> I l s).
  { induction rest as [|x rest IH]; intros done s1 El Hd Hr; cbn [for_each] in Hr.
    - inversion Hr; subst. rewrite app_nil_r. exact Hd.
    - apply bind_ok in Hr. destruct Hr as [s2 [Hb Hr]].
      apply (IH (done ++ [x]) s2).
      + rewrite <- app_assoc. exact El.
      + apply (Hstep done x rest s1 s2 El Hd Hb).
      + exact Hr. }
  intros Hr. apply (G l [] s0); auto.
Qed.

Lemma for_each_invariant {A S : Type} (body : S -> A -> result S)
    (I : list A -> S -> Prop) (l : list A) (s0 s : S) :
  I [] s0 ->
  (forall done x s s', I done s -> In x l -> body s x = Ok s' -> I (done ++ [x]) s') ->
  for_each body l s0 = Ok s -> I l s.
Proof.
  intros H0 Hstep. apply for_each_invariant_at; [exact H0|].
  intros done x rest s1 s2 El Hd Hb. apply (Hstep done x s1 s2 Hd); [|exact Hb].
  rewrite El. apply in_elt.
Qed.

(** A loop returns when an invariant makes every step return. *)
Lemma for_each_returns_with {A S : Type} (body : S -> A -> result S)
    (I : S -> Prop) (l : list A) (s : S) :
  I s ->
  (forall x s1, In x l -> I s1 -> exists s2, body s1 x = Ok s2 /\ I s2) ->
  exists s', for_each body l s = Ok s' /\ I s'.
Proof.
  revert s; induction l as [|x l IH]; intros s Hs H; cbn [for_each].
  - eauto.
  - destruct (H x s (or_introl eq_refl) Hs) as [s2 [E Hs2]]. rewrite E. cbn [bind].
    apply IH; [exact Hs2|]. intros y s1 Hy. apply H. right. exact Hy.
Qed.

(** The same for an invariant that uses where the step stands. *)
Lemma for_each_returns_at {A S : Type} (body : S -> A -> result S)
    (I : list A -> S -> Prop) (l : list A) (s0 : S) :
  I [] s0 ->
  (forall done x rest s1,
      l = done ++ x :: rest -> I done s1 ->
      exists s2, body s1 x = Ok s2 /\ I (done ++ [x]) s2) ->
  exists s', for_each body l s0 = Ok s' /\ I l s'.
Proof.
  intros H0 Hstep.
  assert (G : forall rest done s1,
             l = done ++ rest -> I done s1 ->
             exists s', for_each body rest s1 = Ok s' /\ I l s').
  { induction rest as [|x rest IH]; intros done s1 El Hd; cbn [for_each].
    - exists s1. split; [reflexivity|]. rewrite El, app_nil_r. exact Hd.
    - destruct (Hstep done x rest s1 El Hd) as [s2 [E H2]]. rewrite E. cbn [bind].
      apply (IH (done ++ [x]) s2); [rewrite <- app_assoc; exact El | exact H2]. }
  apply (G l [] s0); auto.
Qed.

(** What the loop raises, a step has raised, in a state the invariant
    holds of. *)
Lemma for_each_raises_at {A S : Type} (body : S -> A -> result S)
    (I : list A -> S -> Prop) (P : exn -> Prop) (l : list A) (s0 : S) (e : exn) :
  I [] s0 ->
  (forall done x rest s s',
      l = done ++ x :: rest -> I done s -> body s x = Ok s' -> I (done ++ [x]) s') ->
  (forall done x rest s e1,
      l = done ++ x :: rest -> I done s -> body s x = Raise e1 -> P e1) ->
  for_each body l s0 = Raise e -> P e.
Proof.
  intros H0 Hstep Hraise.
  assert (G : forall rest done s1,
             l = done ++ rest -> I done s1 ->
             for_each body rest s1 = Raise e -> P e).
  { induction rest as [|x rest IH]; intros done s1 El Hd Hr; cbn [for_each] in Hr.
    - discriminate.
    - destruct (body s1 x) as [s2|e1] eqn:Hb; cbn [bind] in Hr.
      + apply (IH (done ++ [x]) s2).
        * rewrite <- app_assoc. exact El.
        * apply (Hstep done x rest s1 s2 El Hd Hb).
        * exact Hr.
      + inversion Hr; subst e1. apply (Hraise done x rest s1 e El Hd Hb). }
  intros Hr. apply (G l [] s0); auto.
Qed.

(** A loop whose steps all return, returns. *)
Lemma for_each_returns {A S : Type} (body : S -> A -> result S) (l : list A) (s : S) :
  (forall x s1, In x l -> exists s2, body s1 x = Ok s2) ->
  exists s', for_each body l s = Ok s'.
Proof.
  revert s; induction l as [|x l IH]; intros s H; simpl.
  - eexists; reflexivity.
  - destruct (H x s (or_introl eq_refl)) as [s2 E]. rewrite E. simpl.
    apply IH. intros y s1 Hy. apply H. right. exact Hy.
Qed.

(** ** Dictionaries *)

Lemma in_list_true (x : string) (l : list string) : in_list x l = true <-> In x l.
Proof.
  unfold in_list. rewrite existsb_exists. split.
  - intros [y [Hy E]]. apply String.eqb_eq in E. subst. exact Hy.
  - intros H. exists x. split; [exact H | apply String.eqb_refl].
Qed.

Lemma in_list_false (x : string) (l : list string) : in_list x l = false <-> ~ In x l.
Proof.
  rewrite <- in_list_true. destruct (in_list x l); split; intros; congruence.
Qed.

Module DictFacts.
Section Facts.
Context {V : Type}.
Implicit Types (d : dict V) (k : string) (v : V).

Lemma get_set_same k v d : Dict.get k (Dict.set k v d) = Some v.
Proof.
  induction d as [|[k' v'] d IH]; simpl.
  - rewrite String.eqb_refl. reflexivity.
  - destruct (String.eqb k k') eqn:E; simpl.
    + rewrite String.eqb_refl. reflexivity.
    + rewrite E. exact IH.
Qed.

Lemma get_set_other k k' v d :
  k <> k' -> Dict.get k' (Dict.set k v d) = Dict.get k' d.
Proof.
  intros Hn. induction d as [|[k0 v0] d IH]; simpl.
  - destruct (String.eqb k' k) eqn:E; [|reflexivity].
    apply String.eqb_eq in E. congruence.
  - destruct (String.eqb k k0) eqn:E; simpl.
    + apply String.eqb_eq in E. subst k0.
      destruct (String.eqb k' k) eqn:E'; [|reflexivity].
      apply String.eqb_eq in E'. congruence.
    + rewrite IH. reflexivity.
Qed.

Lemma get_in k d : Dict.get k d <> None <-> In k (Dict.keys d).
Proof.
  induction d as [|[k' v'] d IH]; simpl.
  - split; [congruence | tauto].
  - destruct (String.eqb k k') eqn:E.
    + apply String.eqb_eq in E. subst.
      split; [intros _; left; reflexivity | intros _; discriminate].
    + apply String.eqb_neq in E. rewrite IH. split; [auto|].
      intros [H|H]; [congruence | exact H].
Qed.

Lemma get_none k d : Dict.get k d = None <-> ~ In k (Dict.keys d).
Proof.
  rewrite <- get_in. destruct (Dict.get k d) as [v|]; split; intros H.
  - discriminate.
  - exfalso. apply H. discriminate.
  - intros H'. apply H'. reflexivity.
  - reflexivity.
Qed.

Lemma keys_set k v d :
  Dict.keys (Dict.set k v d) =
  if Dict.mem k d then Dict.keys d else Dict.keys d ++ [k].
Proof.
  unfold Dict.mem. induction d as [|[k' v'] d IH]; simpl; [reflexivity|].
  destruct (String.eqb k k') eqn:E; simpl.
  - apply String.eqb_eq in E. subst. reflexivity.
  - rewrite IH. destruct (Dict.get k d); reflexivity.
Qed.

Lemma get_of_in k v d :
  NoDup (Dict.keys d) -> In (k, v) d -> Dict.get k d = Some v.
Proof.
  induction d as [|[k' v'] d IH]; simpl; intros Hnd Hin; [tauto|].
  inversion Hnd as [|? ? Hni Hnd']; subst.
  destruct Hin as [E|Hin].
  - inversion E; subst. rewrite String.eqb_refl. reflexivity.
  - destruct (String.eqb k k') eqn:E.
    + apply String.eqb_eq in E. subst. exfalso. apply Hni.
      apply (in_map fst) in Hin. exact Hin.
    + apply IH; assumption.
Qed.

Lemma in_of_get k v d : Dict.get k d = Some v -> In (k, v) d.
Proof.
  induction d as [|[k' v'] d IH]; simpl; [congruence|].
  destruct (String.eqb k k') eqn:E.
  - apply String.eqb_eq in E. intros H. inversion H; subst. auto.
  - auto.
Qed.
End Facts.


Lemma append_set {A : Type} k (x : A) (l : list A) (d : dict (list A)) :
  Dict.append k x (Dict.set k l d) = Ok (Dict.set k (l ++ [x]) d).
Proof.
  unfold Dict.append, Dict.getitem. rewrite get_set_same. simpl.
  f_equal. induction d as [|[k' v'] d IH]; simpl.
  - rewrite String.eqb_refl. reflexivity.
  - destruct (String.eqb k k') eqn:E; simpl.
    + rewrite String.eqb_refl. reflexivity.
    + rewrite E. rewrite IH. reflexivity.
Qed.
End DictFacts.

(** ** Built-ins *)

Section BuiltinFacts.
Context {FT : FloatText}.

Lemma int_text_not_nan (z : Z) : NilZero.string_of_int (Z.to_int z) <> "nan".
Proof.
  destruct z as [|p|p]; simpl.
  - discriminate.
  - unfold NilZero.string_of_uint.
    destruct (Pos.to_uint p) as [|u|u|u|u|u|u|u|u|u|u]; simpl; discriminate.
  - discriminate.
Qed.

(** A value whose string form is 'nan' is a float NaN or the text
    'nan'; [float] accepts both. *)
Lemma missing_parses (V : pyvalue) : is_missing V = true -> parses V = true.
Proof.
  unfold is_missing, parses. intros H. apply String.eqb_eq in H.
  destruct V as [s|f|z|b|]; simpl in *.
  - subst s. reflexivity.
  - reflexivity.
  - exfalso. exact (int_text_not_nan z H).
  - reflexivity.
  - discriminate.
Qed.

Lemma py_contains_ok (sub : string) (V : pyvalue) (b : bool) :
  py_contains sub V = Ok b -> is_str V = true.
Proof. destruct V; simpl; intros H; congruence. Qed.

Lemma py_contains_raise (sub : string) (V : pyvalue) :
  is_str V = false -> py_contains sub V = Raise TypeError.
Proof. destruct V; simpl; intros H; congruence. Qed.
End BuiltinFacts.

(** ** One step of the value loop *)

Section ScanValue.
Context {FT : FloatText}.
Variable regex_unk : string -> bool.
Variable column : string.

(** What a step does, in one equation. *)
Lemma scan_value_eq (f : fts) (pu : dict (list string)) (nd : list pyvalue) (V : pyvalue) :
  scan_value regex_unk column (f, pu, nd) V =
  if trips regex_unk V then Raise TypeError
  else Ok (next_counters f V, next_unks column pu V, next_diversity regex_unk nd V).
Proof.
  unfold scan_value, trips, next_counters, next_unks, registers.
  pose proof (missing_parses V) as Hm.
  unfold is_missing, parses in *.
  destruct (regex_unk (Text.lower (py_str V))) eqn:Er; simpl.
  - destruct V as [s|g|z|b|]; simpl in *; try reflexivity.
    rewrite Er. simpl.
    destruct (Text.contains ":Unspecified" s); simpl;
      destruct (String.eqb s "nan") eqn:En; simpl;
      destruct (FloatSyntax.float_syntax s) eqn:Ef; simpl in *;
      try (specialize (Hm eq_refl); discriminate); try reflexivity;
      destruct (short_plain (Text.lower s)); reflexivity.
  - assert (Ed : next_diversity regex_unk nd V = nd).
    { destruct V; simpl in *; try reflexivity. rewrite Er. reflexivity. }
    rewrite Ed.
    destruct (String.eqb (py_str V) "nan") eqn:En; simpl.
    + rewrite (Hm eq_refl). reflexivity.
    + destruct (py_float V) as [x|e]; simpl; [reflexivity|].
      destruct (short_plain (Text.lower (py_str V))); reflexivity.
Qed.

Lemma scan_value_raises (st : scan_state) (V : pyvalue) (e : exn) :
  scan_value regex_unk column st V = Raise e ->
  e = TypeError /\ trips regex_unk V = true.
Proof.
  destruct st as [[f pu] nd]. rewrite scan_value_eq.
  destruct (trips regex_unk V); intros H; inversion H; auto.
Qed.

(** *** The value loop *)

Lemma scan_values_ok (l : list pyvalue) (f : fts) (pu : dict (list string))
    (nd : list pyvalue) (st : scan_state) :
  for_each (scan_value regex_unk column) l (f, pu, nd) = Ok st ->
  st = (fold_left next_counters l f, fold_left (next_unks column) l pu,
      fold_left (next_diversity regex_unk) l nd)
  /\ forallb (fun V => negb (trips regex_unk V)) l = true.
Proof.
  revert f pu nd. induction l as [|V l IH]; intros f pu nd; cbn [for_each fold_left forallb].
  - intros H. inversion H. auto.
  - rewrite scan_value_eq. destruct (trips regex_unk V); cbn [bind negb andb]; [discriminate|].
    apply IH.
Qed.

Lemma scan_values_returns (l : list pyvalue) (st : scan_state) :
  forallb (fun V => negb (trips regex_unk V)) l = true ->
  exists st', for_each (scan_value regex_unk column) l st = Ok st'.
Proof.
  revert st. induction l as [|V l IH]; intros [[f pu] nd]; cbn [for_each forallb].
  - eauto.
  - rewrite scan_value_eq. intros H. apply andb_prop in H. destruct H as [H1 H2].
    destruct (trips regex_unk V); cbn [bind negb] in *; [discriminate|]. apply IH. exact H2.
Qed.

Lemma scan_values_raises (l : list pyvalue) (st : scan_state) :
  existsb (trips regex_unk) l = true ->
  for_each (scan_value regex_unk column) l st = Raise TypeError.
Proof.
  revert st. induction l as [|V l IH]; intros [[f pu] nd]; cbn [for_each existsb].
  - discriminate.
  - rewrite scan_value_eq. destruct (trips regex_unk V); cbn [bind orb]; [reflexivity|].
    apply IH.
Qed.

(** The counters after the loop count the three kinds of values. *)
Lemma counters_count (l : list pyvalue) (f : fts) :
  let f' := fold_left next_counters l f in
  fts0 f' = fts0 f + count_missing l /\
  fts1 f' = fts1 f + count_float l /\
  fts2 f' = fts2 f + count_non_float l /\
  fts3 f' = fts3 f ++ filter (fun V => negb (is_missing V) && negb (parses V)) l.
Proof.
  revert f. induction l as [|V l IH]; intros f; simpl.
  - rewrite app_nil_r. unfold count_missing, count_float, count_non_float. simpl.
    repeat split; lia.
  - destruct (IH (next_counters f V)) as (H0 & H1 & H2 & H3).
    rewrite H0, H1, H2, H3. clear IH H0 H1 H2 H3.
    unfold next_counters, count_missing, count_float, count_non_float. simpl.
    destruct (is_missing V); simpl.
    + repeat split; lia.
    + destruct (parses V); simpl.
      * repeat split; lia.
      * rewrite <- app_assoc. simpl. repeat split; lia.
Qed.
End ScanValue.

Lemma for_each_ext {A S : Type} (f g : S -> A -> result S) (l : list A) (s : S) :
  (forall x s1, In x l -> f s1 x = g s1 x) ->
  for_each f l s = for_each g l s.
Proof.
  revert s; induction l as [|x l IH]; intros s H; cbn [for_each]; [reflexivity|].
  rewrite (H x s (or_introl eq_refl)). destruct (g s x) as [s'|e]; cbn [bind]; [|reflexivity].
  apply IH. intros y s1 Hy. apply H. right. exact Hy.
Qed.

(** ** The column loop of the scanner *)

Section ScanColumn.
Context {FT : FloatText}.
Variable pd_tab : DataFrame.
Variable regex_unk : string -> bool.
Variable sampleIDs : list string.

Lemma tag_of_counters (dtypes : dict (list string)) (column native : string) (f : fts) :
  set_column_dtypes (Dict.set column [native] dtypes) column f =
  Ok (Dict.set column [native; tag_of_counts (fts0 f) (fts1 f) (fts2 f)] dtypes).
Proof.
  unfold set_column_dtypes, tag_of_counts, truthy.
  destruct (Nat.eqb (fts2 f) 0); cbn [negb].
  - exact (DictFacts.append_set column _ [native] dtypes).
  - destruct (negb (Nat.eqb (fts1 f) 0) || negb (Nat.eqb (fts0 f) 0));
      exact (DictFacts.append_set column _ [native] dtypes).
Qed.

(** What one turn of the column loop does, in one equation. *)
Lemma scan_column_eq (dtypes pu : dict (list string)) (nd : list pyvalue)
    (column : string) (s : Series) :
  Dict.get column pd_tab = Some s ->
  scan_column pd_tab regex_unk sampleIDs (dtypes, pu, nd) column =
  if in_list column sampleIDs then
    Ok (Dict.set column [dtype_name s; "object"] dtypes, pu, nd)
  else if existsb (trips regex_unk) (unique (values s)) then Raise TypeError
  else Ok (Dict.set column [dtype_name s; scanner_tag sampleIDs column s] dtypes,
           fold_left (next_unks column) (unique (values s)) pu,
           fold_left (next_diversity regex_unk) (unique (values s)) nd).
Proof.
  intros Hs. unfold scan_column, df_getitem, Dict.getitem, scanner_tag.
  rewrite Hs. cbn [bind].
  destruct (in_list column sampleIDs).
  - rewrite (DictFacts.append_set column "object" [dtype_name s] dtypes). reflexivity.
  - destruct (existsb (trips regex_unk) (unique (values s))) eqn:Et.
    + rewrite scan_values_raises by exact Et. reflexivity.
    + destruct (scan_values_returns regex_unk column (unique (values s))
                  (mk_fts 0 0 0 [], pu, nd)) as [st Hst].
      { rewrite forallb_forall. intros V HV.
        destruct (trips regex_unk V) eqn:E; [|reflexivity].
        assert (existsb (trips regex_unk) (unique (values s)) = true)
          by (apply existsb_exists; eauto).
        congruence. }
      rewrite Hst. apply scan_values_ok in Hst. destruct Hst as [Hst _].
      subst st. cbn [bind]. rewrite tag_of_counters. cbn [bind].
      destruct (counters_count (unique (values s)) (mk_fts 0 0 0 []))
        as (H0 & H1 & H2 & _).
      rewrite H0, H1, H2. reflexivity.
Qed.

Lemma scan_column_raises (st : scan_result) (column : string) (e : exn) :
  In column (columns pd_tab) ->
  scan_column pd_tab regex_unk sampleIDs st column = Raise e ->
  e = TypeError.
Proof.
  intros Hin. destruct st as [[dtypes pu] nd].
  destruct (Dict.get column pd_tab) as [s|] eqn:Hs.
  - rewrite (scan_column_eq _ _ _ _ _ Hs).
    destruct (in_list column sampleIDs); [discriminate|].
    destruct (existsb _ _); intros H; inversion H; reflexivity.
  - apply DictFacts.get_none in Hs. contradiction.
Qed.
End ScanColumn.

Lemma for_each_raises {A S : Type} (body : S -> A -> result S) (E : exn)
    (l : list A) (x : A) (s : S) :
  (forall y s1 e, In y l -> body s1 y = Raise e -> e = E) ->
  In x l -> (forall s1, body s1 x = Raise E) ->
  for_each body l s = Raise E.
Proof.
  revert s; induction l as [|y l IH]; intros s Hall Hin Hx; [contradiction|].
  cbn [for_each]. destruct (body s y) as [s'|e] eqn:Hb; cbn [bind].
  - destruct Hin as [->|Hin]; [rewrite Hx in Hb; discriminate|].
    apply IH; auto. intros z s1 e Hz. apply Hall. right. exact Hz.
  - f_equal. apply (Hall y s e); auto. left. reflexivity.
Qed.

(** ** The scanner as a whole *)

Section ScannerFacts.
Context {FT : FloatText}.
Variable pd_tab : DataFrame.
Variable regex_unk : string -> bool.
Variable sampleID_cols : option (list string).

Local Abbreviation sampleIDs := (sampleIDs_of sampleID_cols).

Lemma column_has_series (c : string) :
  In c (columns pd_tab) -> exists s, Dict.get c pd_tab = Some s.
Proof.
  intros H. apply DictFacts.get_in in H.
  destruct (Dict.get c pd_tab) as [s|]; [eauto | congruence].
Qed.

Lemma series_has_column (c : string) (s : Series) :
  Dict.get c pd_tab = Some s -> In c (columns pd_tab).
Proof. intros H. apply DictFacts.get_in. congruence. Qed.

(** The scanner raises as soon as a scanned column holds a value that
    trips the membership test. *)
Lemma scanner_raises (c : string) (s : Series) (V : pyvalue) :
  Dict.get c pd_tab = Some s -> in_list c sampleIDs = false ->
  In V (unique (values s)) -> trips regex_unk V = true ->
  get_dtypes_and_unks pd_tab regex_unk sampleID_cols = Raise TypeError.
Proof.
  intros Hs Hid HV Ht. unfold get_dtypes_and_unks.
  apply for_each_raises with (x := c).
  - intros y s1 e Hy. apply scan_column_raises. exact Hy.
  - eapply series_has_column; eauto.
  - intros [[d pu] nd]. rewrite (scan_column_eq _ _ _ _ _ _ _ _ Hs).
    fold sampleIDs. rewrite Hid.
    assert (E : existsb (trips regex_unk) (unique (values s)) = true)
      by (apply existsb_exists; eauto).
    rewrite E. reflexivity.
Qed.

(** Otherwise it returns. *)
Lemma scanner_returns :
  (forall c s V, Dict.get c pd_tab = Some s -> in_list c sampleIDs = false ->
                 In V (unique (values s)) -> trips regex_unk V = false) ->
  exists r, get_dtypes_and_unks pd_tab regex_unk sampleID_cols = Ok r.
Proof.
  intros H. unfold get_dtypes_and_unks. apply for_each_returns.
  intros c [[d pu] nd] Hc. destruct (column_has_series c Hc) as [s Hs].
  rewrite (scan_column_eq _ _ _ _ _ _ _ _ Hs). fold sampleIDs.
  destruct (in_list c sampleIDs) eqn:Hid; [eauto|].
  destruct (existsb (trips regex_unk) (unique (values s))) eqn:E; [|eauto].
  apply existsb_exists in E. destruct E as [V [HV Ht]].
  rewrite (H c s V Hs Hid HV) in Ht. discriminate.
Qed.

Lemma scanner_only_type_error (e : exn) :
  get_dtypes_and_unks pd_tab regex_unk sampleID_cols = Raise e -> e = TypeError.
Proof.
  unfold get_dtypes_and_unks.
  generalize (@nil (string * list string), @nil (string * list string), @nil pyvalue).
  assert (G : forall l, incl l (columns pd_tab) -> forall st : scan_result,
            for_each (scan_column pd_tab regex_unk sampleIDs) l st = Raise e -> e = TypeError).
  { induction l as [|c l IH]; intros Hl st; cbn [for_each]; [discriminate|].
    destruct (scan_column pd_tab regex_unk sampleIDs st c) as [st'|e'] eqn:Hc; cbn [bind].
    - apply IH. intros x Hx. apply Hl. right. exact Hx.
    - intros H. inversion H; subst. eapply scan_column_raises; eauto.
      apply Hl. left. reflexivity. }
  intros st. apply G. apply incl_refl.
Qed.

(** The tags of every column. *)
Lemma scanner_dtypes (dtypes pu : dict (list string)) (nd : list pyvalue) :
  get_dtypes_and_unks pd_tab regex_unk sampleID_cols = Ok (dtypes, pu, nd) ->
  forall c s, Dict.get c pd_tab = Some s ->
    Dict.get c dtypes = Some [dtype_name s; scanner_tag sampleIDs c s].
Proof.
  intros Hr.
  pose (I := fun (done : list string) (st : scan_result) =>
               forall c s, In c done -> Dict.get c pd_tab = Some s ->
                 Dict.get c (fst (fst st)) = Some [dtype_name s; scanner_tag sampleIDs c s]).
  assert (HI : I (columns pd_tab) (dtypes, pu, nd)).
  { apply (for_each_invariant (scan_column pd_tab regex_unk sampleIDs) I
             (columns pd_tab) ([], [], [])); [| |exact Hr].
    - intros c s [].
    - intros done x [[d p] n] st' Hd Hx Hb c s Hc Hs.
      destruct (column_has_series x Hx) as [sx Hsx].
      rewrite (scan_column_eq _ _ _ _ _ _ _ _ Hsx) in Hb.
      assert (Hst : fst (fst st') = Dict.set x [dtype_name sx; scanner_tag sampleIDs x sx] d).
      { unfold scanner_tag in *. destruct (in_list x sampleIDs).
        - inversion Hb; reflexivity.
        - destruct (existsb _ _); inversion Hb; reflexivity. }
      rewrite Hst. destruct (string_dec x c) as [->|Hn].
      + rewrite DictFacts.get_set_same. congruence.
      + rewrite DictFacts.get_set_other by exact Hn.
        apply (Hd c s); [|exact Hs].
        apply in_app_or in Hc. destruct Hc as [Hc|[Hc|[]]]; [exact Hc | congruence]. }
  intros c s Hs. apply (HI c s); [|exact Hs]. eapply series_has_column; eauto.
Qed.
End ScannerFacts.

(** ** The candidate-unknowns map *)

Lemma factor_columns_setdefault (k x v : string) (d : dict (list string)) :
  factor_columns (Dict.setdefault_append k x d) v =
  if String.eqb v k then factor_columns d v ++ [x] else factor_columns d v.
Proof.
  unfold factor_columns, Dict.setdefault_append.
  destruct (String.eqb v k) eqn:E.
  - apply String.eqb_eq in E. subst v.
    destruct (Dict.get k d) as [l|]; rewrite DictFacts.get_set_same; reflexivity.
  - apply String.eqb_neq in E.
    destruct (Dict.get k d) as [l|];
      rewrite DictFacts.get_set_other by congruence; reflexivity.
Qed.

Section Unknowns.
Context {FT : FloatText}.

Lemma next_unks_columns (column : string) (l : list pyvalue)
    (pu : dict (list string)) (v c : string) :
  In c (factor_columns (fold_left (next_unks column) l pu) v) <->
  In c (factor_columns pu v) \/
  (c = column /\
   exists V, In V l /\ Text.lower (py_str V) = v /\ registers V = true).
Proof.
  revert pu. induction l as [|V l IH]; intros pu; cbn [fold_left].
  - split; [auto|]. intros [H|[_ [V [[] _]]]]. exact H.
  - rewrite IH. unfold next_unks.
    destruct (registers V) eqn:Er.
    + rewrite factor_columns_setdefault.
      destruct (String.eqb v (Text.lower (py_str V))) eqn:Ev.
      * apply String.eqb_eq in Ev. rewrite in_app_iff. cbn [In]. split.
        -- intros [[H|[H|[]]]|[Hc [W [HW HW']]]].
           ++ left. exact H.
           ++ right. split; [congruence|]. exists V.
              split; [left; reflexivity | split; [congruence | exact Er]].
           ++ right. split; [exact Hc|]. exists W. split; [right; exact HW | exact HW'].
        -- intros [H|[Hc [W [[HW|HW] HW']]]].
           ++ left. left. exact H.
           ++ left. right. left. congruence.
           ++ right. split; [exact Hc|]. exists W. split; assumption.
      * apply String.eqb_neq in Ev. split.
        -- intros [H|[Hc [W [HW HW']]]]; [left; exact H|].
           right. split; [exact Hc|]. exists W. split; [right; exact HW | exact HW'].
        -- intros [H|[Hc [W [[HW|HW] HW']]]]; [left; exact H| |].
           ++ subst W. destruct HW' as [HW' _]. congruence.
           ++ right. split; [exact Hc|]. exists W. split; assumption.
    + split.
      * intros [H|[Hc [W [HW HW']]]]; [left; exact H|].
        right. split; [exact Hc|]. exists W. split; [right; exact HW | exact HW'].
      * intros [H|[Hc [W [[HW|HW] HW']]]]; [left; exact H| |].
        -- subst W. destruct HW' as [_ HW']. congruence.
        -- right. split; [exact Hc|]. exists W. split; assumption.
Qed.

Variable pd_tab : DataFrame.
Variable regex_unk : string -> bool.
Variable sampleID_cols : option (list string).

Local Abbreviation sampleIDs := (sampleIDs_of sampleID_cols).

Lemma scanner_unks (dtypes pu : dict (list string)) (nd : list pyvalue) :
  get_dtypes_and_unks pd_tab regex_unk sampleID_cols = Ok (dtypes, pu, nd) ->
  forall v c, In c (factor_columns pu v) <-> contributes pd_tab sampleIDs c v.
Proof.
  intros Hr.
  pose (I := fun (done : list string) (st : scan_result) =>
               forall v c, In c (factor_columns (snd (fst st)) v) <->
                           In c done /\ contributes pd_tab sampleIDs c v).
  assert (HI : I (columns pd_tab) (dtypes, pu, nd)).
  { apply (for_each_invariant (scan_column pd_tab regex_unk sampleIDs) I
             (columns pd_tab) ([], [], [])); [| |exact Hr].
    - intros v c. cbn. tauto.
    - intros done x [[d p] n] st' Hd Hx Hb v c.
      destruct (column_has_series pd_tab x Hx) as [sx Hsx].
      rewrite (scan_column_eq _ _ _ _ _ _ _ _ Hsx) in Hb.
      rewrite in_app_iff. cbn [In].
      destruct (in_list x sampleIDs) eqn:Hid.
      + inversion Hb; subst st'. cbn [fst snd]. rewrite (Hd v c). cbn [fst snd].
        split; [tauto|]. intros [[H|[H|[]]] Hc]; [tauto|].
        subst x. destruct Hc as (s & V & _ & Hc & _). congruence.
      + destruct (existsb _ _); inversion Hb; subst st'. cbn [fst snd].
        rewrite next_unks_columns. rewrite (Hd v c). cbn [fst snd]. split.
        * intros [[H1 H2]|[Hc [V HV]]]; [tauto|]. subst c.
          split; [tauto|]. exists sx, V. tauto.
        * intros [[H|[H|[]]] Hc]; [tauto|]. subst x. right. split; [reflexivity|].
          destruct Hc as (s & V & Hs & _ & HV). exists V.
          assert (s = sx) by congruence. subst s. exact HV. }
  intros v c. rewrite (HI v c). cbn [fst snd]. split; [tauto|].
  intros Hc. split; [|exact Hc]. destruct Hc as (s & V & Hs & _).
  eapply series_has_column; eauto.
Qed.
End Unknowns.

(** ** Identifier columns are not read *)

Section Identifier.
Context {FT : FloatText}.

Lemma columns_with_values (column : string) (vs : list pyvalue) (md : DataFrame) :
  columns (with_values column vs md) = columns md.
Proof.
  unfold columns, with_values. rewrite map_map. apply map_ext.
  intros [c s]. cbn. destruct (String.eqb column c); reflexivity.
Qed.

Lemma get_with_values (column c : string) (vs : list pyvalue) (md : DataFrame) :
  Dict.get c (with_values column vs md) =
  match Dict.get c md with
  | Some s => Some (if String.eqb column c then mk_Series (dtype_name s) vs else s)
  | None => None
  end.
Proof.
  induction md as [|[c' s'] md IH]; cbn; [reflexivity|].
  destruct (String.eqb column c') eqn:E; cbn.
  - destruct (String.eqb c c') eqn:E'; [|exact IH].
    apply String.eqb_eq in E'. subst c'. rewrite E. reflexivity.
  - destruct (String.eqb c c') eqn:E'; [|exact IH].
    apply String.eqb_eq in E'. subst c'. rewrite E. reflexivity.
Qed.

Lemma scanner_skips_identifier (pd_tab : DataFrame) (regex_unk : string -> bool)
    (sampleID_cols : option (list string)) (column : string) (vs : list pyvalue) :
  in_list column (sampleIDs_of sampleID_cols) = true ->
  get_dtypes_and_unks (with_values column vs pd_tab) regex_unk sampleID_cols =
  get_dtypes_and_unks pd_tab regex_unk sampleID_cols.
Proof.
  intros Hid. unfold get_dtypes_and_unks. rewrite columns_with_values.
  apply for_each_ext. intros c [[d pu] nd] Hc.
  destruct (column_has_series pd_tab c Hc) as [s Hs].
  rewrite (scan_column_eq pd_tab _ _ _ _ _ _ _ Hs).
  assert (Hs' : Dict.get c (with_values column vs pd_tab) =
                Some (if String.eqb column c then mk_Series (dtype_name s) vs else s))
    by (rewrite get_with_values, Hs; reflexivity).
  rewrite (scan_column_eq _ _ _ _ _ _ _ _ Hs').
  destruct (String.eqb column c) eqn:E; [|reflexivity].
  apply String.eqb_eq in E. subst c. rewrite Hid. reflexivity.
Qed.
End Identifier.

(** ** The confirmer *)

Section Sorted.
Context {V : Type}.

Lemma insert_item_perm (x : string * V) (l : list (string * V)) :
  Permutation (x :: l) (insert_item x l).
Proof.
  induction l as [|y l IH]; cbn; [apply Permutation_refl|].
  destruct (String.leb (fst x) (fst y)); [apply Permutation_refl|].
  eapply perm_trans; [apply perm_swap|]. apply perm_skip. exact IH.
Qed.

Lemma sorted_items_perm (d : dict V) : Permutation d (sorted_items d).
Proof.
  induction d as [|x d IH]; cbn; [apply perm_nil|].
  eapply perm_trans; [apply perm_skip; exact IH|]. apply insert_item_perm.
Qed.

Lemma in_sorted_items (x : string * V) (d : dict V) :
  In x (sorted_items d) <-> In x d.
Proof.
  split; apply Permutation_in;
    [apply Permutation_sym|]; apply sorted_items_perm.
Qed.
End Sorted.

Lemma map_nth_seq {A : Type} (l : list A) (d : A) :
  map (fun j => nth j l d) (seq 0 (List.length l)) = l.
Proof.
  induction l as [|x l IH]; cbn [List.length seq map nth]; [reflexivity|].
  f_equal. rewrite <- seq_shift, map_map. exact IH.
Qed.

Lemma select_map {A B : Type} (p : A -> bool) (g : A -> B) (l : list A) :
  select (map p l) (map g l) = map g (filter p l).
Proof.
  induction l as [|x l IH]; cbn; [reflexivity|].
  destruct (p x); cbn; rewrite IH; reflexivity.
Qed.

Lemma list_sum_indicator {A : Type} (p : A -> bool) (l : list A) :
  list_sum (map (fun x => if p x then 1 else 0) l) = List.length (filter p l).
Proof.
  induction l as [|x l IH]; cbn [map filter]; [reflexivity|].
  destruct (p x); cbn [List.length]; rewrite <- IH; reflexivity.
Qed.

Section Confirmer.
Variable potential_unks : dict (list string).
Variable md_pd : DataFrame.
Variable thresh : Z.

Local Abbreviation items := (sorted_items potential_unks).

Lemma sums_are_column_counts :
  column_sums
    (mk_Incidence (columns md_pd) (map fst items)
       (map (fun col => map (fun item => if in_list col (snd item) then 1 else 0) items)
            (columns md_pd))) =
  map (fun item => column_count md_pd (snd item)) items.
Proof.
  unfold column_sums. cbn [inc_rows inc_columns]. rewrite length_map.
  transitivity (map (fun j => column_count md_pd (snd (nth j items ("", []))))
                    (seq 0 (List.length items))).
  - apply map_ext_in. intros j Hj. apply in_seq in Hj. rewrite map_map.
    unfold column_count. rewrite <- list_sum_indicator. f_equal.
    apply map_ext. intros col.
    pose (cell := fun item : string * list string =>
                    if in_list col (snd item) then 1 else 0).
    change (nth j (map cell items) 0 = cell (nth j items ("", []))).
    rewrite (nth_indep _ 0 (cell ("", []))) by (rewrite length_map; lia).
    apply map_nth.
  - rewrite <- (map_map (fun j => nth j items ("", []))
                        (fun item => column_count md_pd (snd item))).
    rewrite map_nth_seq. reflexivity.
Qed.

(** The confirmed factors are the keys whose list names more than
    [thresh] table columns. *)
Lemma confirmed_factors :
  inc_columns (get_certainly_NaNs potential_unks md_pd thresh) =
  map fst (filter (fun item => Z.ltb thresh (Z.of_nat (column_count md_pd (snd item))))
                  items).
Proof.
  unfold get_certainly_NaNs. fold items. rewrite sums_are_column_counts.
  unfold loc_columns. cbn [inc_columns]. rewrite map_map.
  apply select_map.
Qed.

Lemma confirmed_iff (f : string) :
  In f (inc_columns (get_certainly_NaNs potential_unks md_pd thresh)) <->
  exists cols, In (f, cols) potential_unks /\
               (thresh < Z.of_nat (column_count md_pd cols))%Z.
Proof.
  rewrite confirmed_factors, in_map_iff. split.
  - intros [[g cols] [E H]]. cbn in E. subst g.
    apply filter_In in H. destruct H as [H1 H2]. cbn in H2.
    apply (proj1 (in_sorted_items _ _)) in H1. apply Z.ltb_lt in H2.
    exists cols. split; assumption.
  - intros [cols [H1 H2]]. exists (f, cols). split; [reflexivity|].
    apply filter_In. split; [apply (proj2 (in_sorted_items _ _)); exact H1|].
    cbn. apply Z.ltb_lt. exact H2.
Qed.
End Confirmer.

Lemma column_count_repeat (md : DataFrame) (c : string) (cols : list string) :
  In c cols -> column_count md (c :: cols) = column_count md cols.
Proof.
  intros H. unfold column_count. f_equal. apply filter_ext. intros x.
  unfold in_list. cbn [existsb].
  destruct (String.eqb x c) eqn:E; [|reflexivity].
  apply String.eqb_eq in E. subst x. cbn.
  symmetry. apply existsb_exists. exists c. split; [exact H | apply String.eqb_refl].
Qed.

(** ** The finalizer *)

Section FinalizerFacts.
Context {FT : FloatText} {PD : Pandas}.
Variable to_nan : option (dict pyvalue).
Variable sampleIDs : list string.

(** What a [replace] on the table that returns has done. *)
Lemma df_replace_ok (m : dict pyvalue) (md md' : DataFrame) (col : string) :
  df_replace m md col = Ok md' ->
  columns md' = columns md /\
  (forall c, c <> col -> Dict.get c md' = Dict.get c md) /\
  (Dict.get col md = None -> md' = md) /\
  (forall s, Dict.get col md = Some s ->
     exists s', series_replace m s = Ok s' /\ Dict.get col md' = Some s').
Proof.
  revert md'. induction md as [|[c' s'] md IH]; intros md'; cbn [df_replace].
  - intros H. inversion H. repeat split; auto. discriminate.
  - destruct (String.eqb_spec col c') as [<-|Hne].
    + intros H. apply bind_ok in H. destruct H as [s1 [Hs1 H]].
      inversion H; subst md'. split; [reflexivity|]. split; [|split].
      * intros c Hc. cbn [Dict.get].
        destruct (String.eqb_spec c col); [contradiction|reflexivity].
      * cbn [Dict.get]. rewrite String.eqb_refl. discriminate.
      * intros s. cbn [Dict.get]. rewrite String.eqb_refl.
        intros H1. inversion H1; subst. eauto.
    + intros H. apply bind_ok in H. destruct H as [r' [Hr H]].
      inversion H; subst md'. destruct (IH r' Hr) as (Hc & Ho & Hn & Hs).
      split; [cbn; unfold columns in Hc; rewrite Hc; reflexivity|].
      split; [|split].
      * intros c Hcne. cbn [Dict.get]. destruct (String.eqb c c'); [reflexivity|auto].
      * cbn [Dict.get]. destruct (String.eqb_spec col c'); [contradiction|].
        intros Hg. rewrite (Hn Hg). reflexivity.
      * cbn [Dict.get]. destruct (String.eqb_spec col c'); [contradiction|]. exact Hs.
Qed.

Lemma df_replace_returns (m : dict pyvalue) (md : DataFrame) (col : string) :
  (forall s, Dict.get col md = Some s -> exists s', series_replace m s = Ok s') ->
  exists md', df_replace m md col = Ok md'.
Proof.
  induction md as [|[c' s'] md IH]; cbn [df_replace Dict.get]; intros H.
  - eexists; reflexivity.
  - destruct (String.eqb col c').
    + destruct (H s' eq_refl) as [s1 ->]. cbn [bind]. eexists; reflexivity.
    + destruct (IH H) as [r' ->]. cbn [bind]. eexists; reflexivity.
Qed.

Lemma df_replace_raises (m : dict pyvalue) (md : DataFrame) (col : string)
    (e : exn) :
  df_replace m md col = Raise e ->
  exists s, Dict.get col md = Some s /\ series_replace m s = Raise e.
Proof.
  induction md as [|[c' s'] md IH]; cbn [df_replace Dict.get]; [discriminate|].
  destruct (String.eqb col c').
  - destruct (series_replace m s') as [s1|e1] eqn:E; cbn [bind]; [discriminate|].
    intros H. inversion H; subst. eauto.
  - destruct (df_replace m md col) as [r'|e1]; cbn [bind]; [discriminate|].
    intros H. inversion H; subst. apply IH. reflexivity.
Qed.

(** The second scan breaks exactly when some value is neither 'nan'
    nor accepted by [float]. *)
Lemma rescan_breaks_iff (l : list pyvalue) :
  rescan_breaks l = true <->
  exists v, In v l /\ is_missing v = false /\ parses v = false.
Proof.
  induction l as [|v l IH]; cbn [rescan_breaks In].
  - split; [discriminate | intros [v [[] _]]].
  - fold (is_missing v). destruct (is_missing v) eqn:Em.
    + rewrite IH. split.
      * intros [w [Hw H]]. exists w. split; [right; exact Hw | exact H].
      * intros [w [[Hw|Hw] [H1 H2]]]; [subst w; congruence|].
        exists w. auto.
    + unfold parses in *. destruct (py_float v) as [x|e] eqn:Ef.
      * rewrite IH. split.
        -- intros [w [Hw H]]. exists w. split; [right; exact Hw | exact H].
        -- intros [w [[Hw|Hw] [H1 H2]]].
           ++ subst w. rewrite Ef in H2. discriminate.
           ++ exists w. auto.
      * split; [|reflexivity]. intros _. exists v.
        rewrite Ef. repeat split; auto.
Qed.

(** The loop stops at the first such value: what follows is not read. *)
Lemma rescan_short_circuit (l1 l2 : list pyvalue) (v : pyvalue) :
  is_missing v = false -> parses v = false ->
  rescan_breaks (l1 ++ v :: l2) = true.
Proof.
  intros H1 H2. apply rescan_breaks_iff. exists v.
  split; [apply in_elt | auto].
Qed.

Lemma rescan_breaks_prefix (l1 l2 : list pyvalue) :
  rescan_breaks l1 = true -> rescan_breaks (l1 ++ l2) = true.
Proof.
  rewrite !rescan_breaks_iff. intros [v [Hv H]]. exists v.
  split; [apply in_or_app; left; exact Hv | exact H].
Qed.

(** What a turn of the loop that returns has done. *)
Lemma finalize_column_ok (d final : _) (md : DataFrame) (col : string)
    (checks : list string) (d' : dict (list string)) (final' : dict string)
    (md' : DataFrame) :
  finalize_column to_nan sampleIDs (d, final, md) (col, checks) = Ok (d', final', md') ->
  exists code, final' = Dict.set col code final /\
    ((in_list col sampleIDs = true /\ code = "O" /\ md' = md) \/
     (in_list col sampleIDs = false /\
      exists tag, last_item checks = Ok tag /\
        ((in_list tag ["check"; "object"] = true /\
          exists m s1, to_nan = Some m /\ df_replace m md col = Ok md' /\
            Dict.get col md' = Some s1 /\
            code = if rescan_breaks (unique (values s1)) then "O" else "Q") \/
         (in_list tag ["check"; "object"] = false /\ code = "Q" /\ md' = md)))).
Proof.
  unfold finalize_column. destruct (in_list col sampleIDs) eqn:Hid.
  - intros H. apply bind_ok in H. destruct H as [d1 [_ H]]. inversion H; subst.
    exists "O". split; [reflexivity|]. left. auto.
  - intros H. apply bind_ok in H. destruct H as [tag [Ht H]].
    destruct (in_list tag ["check"; "object"]) eqn:Hc.
    + apply bind_ok in H. destruct H as [m [Hm H]].
      unfold read_to_nan in Hm. destruct to_nan as [m'|]; [|discriminate].
      inversion Hm; subst m'. clear Hm.
      apply bind_ok in H. destruct H as [md1 [Hmd H]].
      apply bind_ok in H. destruct H as [s1 [Hs H]].
      unfold df_getitem, Dict.getitem in Hs.
      destruct (Dict.get col md1) as [s1'|] eqn:Hg; [|discriminate].
      inversion Hs; subst s1'.
      destruct (rescan_breaks (unique (values s1))) eqn:Hb;
        apply bind_ok in H; destruct H as [d1 [_ H]]; inversion H; subst;
        eexists; (split; [reflexivity|]); right; (split; [reflexivity|]);
        exists tag; (split; [exact Ht|]); left;
        (split; [exact Hc|]); exists m, s1; rewrite Hb; auto.
    + apply bind_ok in H. destruct H as [d1 [_ H]]. inversion H; subst.
      exists "Q". split; [reflexivity|]. right. split; [reflexivity|].
      exists tag. split; [exact Ht|]. right. auto.
Qed.

(** What a turn of the loop raises, and why. *)
Lemma finalize_column_raises (d final : _) (md : DataFrame) (col : string)
    (checks : list string) (e : exn) :
  finalize_column to_nan sampleIDs (d, final, md) (col, checks) = Raise e ->
  (e = KeyError /\
   (Dict.get col d = None \/
    (in_list col sampleIDs = false /\ Dict.get col md = None))) \/
  (in_list col sampleIDs = false /\
   ((e = IndexError /\ checks = []) \/
    exists tag, last_item checks = Ok tag /\
      in_list tag ["check"; "object"] = true /\
      ((e = NameError /\ to_nan = None) \/
       exists m s, to_nan = Some m /\ Dict.get col md = Some s /\
                   series_replace m s = Raise e))).
Proof.
  assert (Happ : forall x k, bind (Dict.append col x d) k = Raise e ->
                             (forall d1, exists r : final_state, k d1 = Ok r) ->
                             e = KeyError /\ Dict.get col d = None).
  { intros x k. unfold Dict.append, Dict.getitem.
    destruct (Dict.get col d) as [l|]; cbn [bind].
    - intros H Hk. destruct (Hk (Dict.set col (l ++ [x]) d)) as [r Hr].
      rewrite Hr in H. discriminate.
    - intros H _. inversion H. auto. }
  unfold finalize_column. destruct (in_list col sampleIDs) eqn:Hid.
  - intros H. left. destruct (Happ _ _ H) as [-> Hg]; [|auto].
    intros d1. eexists; reflexivity.
  - destruct (last_item checks) as [tag|e0] eqn:Ht; cbn [bind].
    2:{ intros H. inversion H; subst e0. right. split; [reflexivity|]. left.
        unfold last_item in Ht. destruct (rev checks) as [|x r] eqn:Hrev;
          inversion Ht. split; [reflexivity|].
        destruct checks as [|c0 l]; [reflexivity|]. cbn [rev] in Hrev.
        apply app_eq_nil in Hrev. destruct Hrev as [_ Hrev]. discriminate. }
    destruct (in_list tag ["check"; "object"]) eqn:Hc.
    + unfold read_to_nan. destruct to_nan as [m|]; cbn [bind].
      * destruct (df_replace m md col) as [md1|e1] eqn:Hmd; cbn [bind].
        -- unfold df_getitem, Dict.getitem.
           destruct (Dict.get col md1) as [s1|] eqn:Hg1; cbn [bind].
           ++ destruct (rescan_breaks (unique (values s1))); intros H; left;
                (destruct (Happ _ _ H) as [-> Hg]; [|auto]);
                intros d1; eexists; reflexivity.
           ++ intros H. inversion H. left. split; [reflexivity|]. right.
              split; [reflexivity|].
              apply df_replace_ok in Hmd. destruct Hmd as (_ & _ & _ & Hsome).
              destruct (Dict.get col md) as [s|]; [|reflexivity].
              destruct (Hsome s eq_refl) as [s' [_ Hg']]. congruence.
        -- intros H. inversion H; subst e1.
           apply df_replace_raises in Hmd. destruct Hmd as [s [Hs He]].
           right. split; [reflexivity|]. right. exists tag.
           split; [reflexivity|]. split; [exact Hc|]. right. eauto.
      * intros H. inversion H. right. split; [reflexivity|]. right.
        exists tag. auto.
    + intros H. left. destruct (Happ _ _ H) as [-> Hg]; [|auto].
      intros d1. eexists; reflexivity.
Qed.
End FinalizerFacts.

Section FinalizerLoop.
Context {FT : FloatText} {PD : Pandas}.
Variable to_nan : option (dict pyvalue).
Variable sampleID_cols : option (list string).
Variable dtypes : dict (list string).
Variable md_pd : DataFrame.

Local Abbreviation sampleIDs := (sampleIDs_of sampleID_cols).

Lemma finalized_ext (col : string) (checks : list string)
    (final final' : dict string) (md md' : DataFrame) :
  Dict.get col final' = Dict.get col final ->
  Dict.get col md' = Dict.get col md ->
  finalized to_nan sampleIDs md_pd col checks final md ->
  finalized to_nan sampleIDs md_pd col checks final' md'.
Proof.
  unfold finalized. intros -> ->. tauto.
Qed.

Lemma fresh_key {V : Type} (l done rest : dict V) (k : string) (v : V) :
  NoDup (Dict.keys l) -> l = done ++ (k, v) :: rest -> ~ In k (Dict.keys done).
Proof.
  intros Hnd El. rewrite El in Hnd. unfold Dict.keys in *. rewrite map_app in Hnd.
  cbn [map fst] in Hnd. apply NoDup_remove_2 in Hnd.
  intros H. apply Hnd. apply in_or_app. left. exact H.
Qed.

(** The tables on the way: labels kept, and the columns of the entries
    not read yet as they were given. *)
Lemma finalize_column_table (ids : list string) (d final : _) (md : DataFrame)
    (col : string) (checks : list string) (st' : final_state) :
  finalize_column to_nan ids (d, final, md) (col, checks) = Ok st' ->
  columns (snd st') = columns md /\
  forall c, c <> col -> Dict.get c (snd st') = Dict.get c md.
Proof.
  destruct st' as [[d' f'] md']. intros H. apply finalize_column_ok in H.
  destruct H as [code [_ Hcases]]. cbn [snd].
  destruct Hcases as [(_ & _ & ->)|(_ & tag & _ & [(_ & m & s1 & _ & Hr & _)|(_ & _ & ->)])];
    try (split; [reflexivity|intros; reflexivity]).
  apply df_replace_ok in Hr. destruct Hr as (Hc & Ho & _). auto.
Qed.

Lemma finalizer_entries (d' : dict (list string)) (final : dict string)
    (md' : DataFrame) :
  NoDup (Dict.keys dtypes) ->
  get_dtypes_final_state to_nan dtypes md_pd sampleID_cols = Ok (d', final, md') ->
  forall col checks, In (col, checks) dtypes ->
    finalized to_nan sampleIDs md_pd col checks final md'.
Proof.
  intros Hnd Hr.
  pose (I := fun (done : dict (list string)) (st : final_state) =>
               (forall c, ~ In c (Dict.keys done) ->
                          Dict.get c (snd st) = Dict.get c md_pd) /\
               (forall c ch, In (c, ch) done ->
                             finalized to_nan sampleIDs md_pd c ch (snd (fst st)) (snd st))).
  assert (HI : I dtypes (d', final, md')).
  { apply (for_each_invariant_at (finalize_column to_nan sampleIDs) I
             dtypes (dtypes, [], md_pd)); [| |exact Hr].
    - split; [reflexivity | intros c ch []].
    - intros done [col checks] rest [[d1 f1] m1] [[d2 f2] m2] El [Hmd Hfin] Hb.
      cbn [fst snd] in *.
      assert (Hfresh : ~ In col (Dict.keys done))
        by (eapply fresh_key; eauto).
      assert (Hother : forall c, c <> col -> Dict.get c m2 = Dict.get c m1)
        by (apply (finalize_column_table _ _ _ _ _ _ _ Hb)).
      apply finalize_column_ok in Hb.
      destruct Hb as [code [Hf2 Hcases]].
      split.
      + intros c Hc. unfold Dict.keys in Hc. rewrite map_app, in_app_iff in Hc.
        cbn [map fst In] in Hc.
        rewrite Hother by (intros ->; tauto). apply Hmd. tauto.
      + intros c ch Hin. apply in_app_or in Hin.
        destruct Hin as [Hin|[Hin|[]]].
        * assert (Hne : c <> col).
          { intros ->. apply Hfresh. apply (in_map fst) in Hin. exact Hin. }
          apply (finalized_ext c ch f1 f2 m1 m2).
          -- subst f2. apply DictFacts.get_set_other. congruence.
          -- apply Hother. exact Hne.
          -- apply Hfin. exact Hin.
        * inversion Hin; subst c ch. clear Hin.
          pose proof (Hmd col Hfresh) as Hcol.
          unfold finalized. subst f2. cbn [fst snd]. rewrite DictFacts.get_set_same.
          destruct Hcases as [(Hid & -> & ->)|(Hid & tag & Ht & Hcases)].
          -- split; [auto | congruence].
          -- split; [congruence|]. intros _. exists tag. split; [exact Ht|].
             destruct Hcases as [(Hc & m & s1 & Hm & Hrep & Hs1 & ->)|(Hc & -> & ->)].
             ++ split; [|congruence]. intros _.
                apply df_replace_ok in Hrep. destruct Hrep as (_ & _ & Hnone & Hsome).
                destruct (Dict.get col m1) as [s|] eqn:Hg.
                ** destruct (Hsome s eq_refl) as [s' [Hs' Hg']].
                   assert (s' = s1) by congruence. subst s'.
                   exists m, s, s1. rewrite <- Hcol. auto.
                ** rewrite (Hnone eq_refl) in Hs1. congruence.
             ++ split; [congruence|]. auto. }
  destruct HI as [_ HI]. exact HI.
Qed.

(** The finalizer returns when [replace] does and every entry that is
    not an identifier column has a tag and, where it is rescanned, the
    name [to_nan] is bound and the table has the column. *)
Lemma finalizer_returns :
  NoDup (Dict.keys dtypes) ->
  (forall m c s, to_nan = Some m -> Dict.get c md_pd = Some s ->
                 exists s', series_replace m s = Ok s') ->
  (forall col checks, In (col, checks) dtypes -> in_list col sampleIDs = false ->
     exists tag, last_item checks = Ok tag /\
                 (in_list tag ["check"; "object"] = true ->
                  to_nan <> None /\ In col (columns md_pd))) ->
  exists r, get_dtypes_final to_nan dtypes md_pd sampleID_cols = Ok r.
Proof.
  intros Hnd Hrep Hwf. unfold get_dtypes_final, get_dtypes_final_state.
  fold sampleIDs.
  pose (I := fun (done : dict (list string)) (st : final_state) =>
               Dict.keys (fst (fst st)) = Dict.keys dtypes /\
               columns (snd st) = columns md_pd /\
               (forall c, ~ In c (Dict.keys done) ->
                          Dict.get c (snd st) = Dict.get c md_pd)).
  destruct (for_each_returns_at (finalize_column to_nan sampleIDs) I dtypes
              (dtypes, [], md_pd)) as [[[d1 f1] m1] [E _]].
  - repeat split; reflexivity.
  - intros done [col checks] rest [[d f] m] El (Hk & Hc & Hun). cbn [fst snd] in *.
    assert (Hin : In (col, checks) dtypes) by (rewrite El; apply in_elt).
    assert (Hfresh : ~ In col (Dict.keys done)) by (eapply fresh_key; eauto).
    assert (Hstep : exists st', finalize_column to_nan sampleIDs (d, f, m) (col, checks)
                                = Ok st' /\
                                Dict.keys (fst (fst st')) = Dict.keys dtypes).
    { assert (Happ : forall x, exists d2, Dict.append col x d = Ok d2 /\
                                          Dict.keys d2 = Dict.keys dtypes).
      { intros x. unfold Dict.append, Dict.getitem.
        assert (Hmem : In col (Dict.keys d))
          by (rewrite Hk; apply (in_map fst) in Hin; exact Hin).
        apply DictFacts.get_in in Hmem.
        destruct (Dict.get col d) as [l|] eqn:Hg; [|congruence].
        cbn [bind]. eexists. split; [reflexivity|].
        rewrite DictFacts.keys_set. unfold Dict.mem. rewrite Hg. exact Hk. }
      unfold finalize_column.
      destruct (in_list col sampleIDs) eqn:Hid.
      + destruct (Happ "object") as [d2 [-> Hk2]]. cbn [bind].
        eexists. split; [reflexivity|]. exact Hk2.
      + destruct (Hwf col checks Hin Hid) as [tag [-> Htag]]. cbn [bind].
        destruct (in_list tag ["check"; "object"]) eqn:Hc'.
        * destruct (Htag eq_refl) as [Hbound Hcol].
          unfold read_to_nan. destruct to_nan as [mp|] eqn:Etn; [|congruence].
          cbn [bind].
          destruct (df_replace_returns mp m col) as [md1 Hmd1].
          { intros s Hs. rewrite (Hun col Hfresh) in Hs. eapply Hrep; eauto. }
          rewrite Hmd1. cbn [bind].
          pose proof (df_replace_ok _ _ _ _ Hmd1) as (Hc1 & _).
          assert (Hmem : In col (columns md1)) by (rewrite Hc1, Hc; exact Hcol).
          apply DictFacts.get_in in Hmem. unfold df_getitem, Dict.getitem.
          destruct (Dict.get col md1) as [s1|]; [|congruence].
          cbn [bind].
          destruct (rescan_breaks (unique (values s1)));
            [destruct (Happ "object") as [d2 [-> Hk2]]
            |destruct (Happ "float64") as [d2 [-> Hk2]]];
            cbn [bind]; eexists; (split; [reflexivity|]); exact Hk2.
        * destruct (Happ tag) as [d2 [-> Hk2]]. cbn [bind].
          eexists. split; [reflexivity|]. exact Hk2. }
    destruct Hstep as [st' [Hst' Hk']]. exists st'. split; [exact Hst'|].
    pose proof (finalize_column_table _ _ _ _ _ _ _ Hst') as [Hc' Ho'].
    split; [exact Hk'|]. split; [rewrite Hc'; exact Hc|].
    intros c Hn. unfold Dict.keys in Hn. rewrite map_app, in_app_iff in Hn.
    cbn [map fst In] in Hn. rewrite Ho' by (intros ->; tauto). apply Hun. tauto.
  - rewrite E. cbn [bind]. eauto.
Qed.
End FinalizerLoop.

(** ** The rewriter *)

Lemma for_each_fixed {A S : Type} (body : S -> A -> result S) (l : list A) (s : S) :
  (forall x, In x l -> body s x = Ok s) -> for_each body l s = Ok s.
Proof.
  induction l as [|x l IH]; intros H; cbn [for_each]; [reflexivity|].
  rewrite (H x (or_introl eq_refl)). cbn [bind]. apply IH.
  intros y Hy. apply H. right. exact Hy.
Qed.

Lemma set_get_id {V : Type} (k : string) (v : V) (d : dict V) :
  Dict.get k d = Some v -> Dict.set k v d = d.
Proof.
  induction d as [|[k' v'] d IH]; cbn [Dict.get Dict.set]; [discriminate|].
  destruct (String.eqb k k') eqn:E.
  - apply String.eqb_eq in E. subst k'. intros H. inversion H. reflexivity.
  - intros H. rewrite (IH H). reflexivity.
Qed.

Section RewriterFacts.
Context {FT : FloatText}.

Lemma floats_stay (fs : list float) :
  map_result to_float64 (map VFloat fs) = Ok fs.
Proof.
  induction fs as [|f fs IH]; cbn [map map_result]; [reflexivity|].
  cbn [to_float64 py_float bind]. rewrite IH. reflexivity.
Qed.

Lemma texts_stay (ss : list string) :
  map (fun v => VStr (py_str v)) (map VStr ss) = map VStr ss.
Proof. rewrite map_map. reflexivity. Qed.

Lemma astype_float64_coerced (s s' : Series) :
  astype_float64 s = Ok s' -> coerced "Q" s'.
Proof.
  unfold astype_float64. intros H. apply bind_ok in H.
  destruct H as [fs [_ H]]. inversion H. exists fs. reflexivity.
Qed.

Lemma astype_str_coerced (dtype : string) (s : Series) :
  String.eqb dtype "Q" = false -> coerced dtype (astype_str s).
Proof.
  intros E. unfold coerced. rewrite E.
  exists (map py_str (values s)). unfold astype_str. rewrite map_map. reflexivity.
Qed.

Lemma rectify_column_absent (md : DataFrame) (col dtype : string) :
  ~ In col (columns md) -> rectify_column md (col, dtype) = Raise KeyError.
Proof.
  intros H. unfold rectify_column.
  assert (E : in_list col (columns md) = false) by (apply in_list_false; exact H).
  rewrite E. unfold df_getitem, Dict.getitem.
  apply DictFacts.get_none in H. rewrite H. reflexivity.
Qed.

Lemma rectify_column_ok (md md' : DataFrame) (col dtype : string) :
  rectify_column md (col, dtype) = Ok md' ->
  In col (columns md) /\
  exists s', md' = Dict.set col s' md /\ coerced dtype s'.
Proof.
  unfold rectify_column. destruct (in_list col (columns md)) eqn:E.
  - apply in_list_true in E. intros H. split; [exact E|].
    destruct (String.eqb dtype "Q") eqn:Eq.
    + apply String.eqb_eq in Eq. subst dtype.
      apply bind_ok in H. destruct H as [s [_ H]].
      apply bind_ok in H. destruct H as [s' [Hs' H]].
      inversion H. exists s'. split; [reflexivity|].
      eapply astype_float64_coerced; eauto.
    + apply bind_ok in H. destruct H as [s [_ H]]. inversion H.
      eexists. split; [reflexivity|]. apply astype_str_coerced. exact Eq.
  - apply in_list_false in E. unfold df_getitem, Dict.getitem.
    apply DictFacts.get_none in E. rewrite E. discriminate.
Qed.

Lemma columns_setitem (md : DataFrame) (col : string) (s : Series) :
  In col (columns md) -> columns (Dict.set col s md) = columns md.
Proof.
  intros H. unfold columns. change (map fst) with (@Dict.keys Series).
  rewrite DictFacts.keys_set. unfold Dict.mem.
  apply DictFacts.get_in in H. destruct (Dict.get col md); [reflexivity|congruence].
Qed.

(** A coerced column is a fixed point of the turn of the loop. *)
Lemma rectify_column_fixed (md : DataFrame) (col dtype : string) (s : Series) :
  Dict.get col md = Some s -> coerced dtype s ->
  rectify_column md (col, dtype) = Ok md.
Proof.
  intros Hs Hc. unfold rectify_column.
  assert (E : in_list col (columns md) = true).
  { apply in_list_true. apply DictFacts.get_in. congruence. }
  rewrite E. unfold df_getitem, Dict.getitem, df_setitem. rewrite Hs. cbn [bind].
  unfold coerced in Hc. destruct (String.eqb dtype "Q").
  - destruct Hc as [fs ->]. unfold astype_float64. cbn [values].
    rewrite floats_stay. cbn [bind]. rewrite (set_get_id _ _ _ Hs). reflexivity.
  - destruct Hc as [ss ->]. unfold astype_str. cbn [values].
    rewrite texts_stay. rewrite (set_get_id _ _ _ Hs). reflexivity.
Qed.

(** After the rewrite, every column the map names is coerced. *)
Lemma rewritten_columns (dtypes_final : dict string) (md md' : DataFrame) :
  NoDup (Dict.keys dtypes_final) ->
  rectify_dtypes_in_md dtypes_final md = Ok md' ->
  forall col dtype, In (col, dtype) dtypes_final ->
    exists s, Dict.get col md' = Some s /\ coerced dtype s.
Proof.
  intros Hnd Hr.
  pose (I := fun (done : dict string) (m : DataFrame) =>
               forall col dtype, In (col, dtype) done ->
                 exists s, Dict.get col m = Some s /\ coerced dtype s).
  apply (for_each_invariant_at rectify_column I dtypes_final md); [| |exact Hr].
  - intros col dtype [].
  - intros done [c dt] rest m1 m2 El Hd Hb col dtype Hin.
    assert (Hfresh : ~ In c (Dict.keys done)).
    { rewrite El in Hnd. unfold Dict.keys in *. rewrite map_app in Hnd.
      cbn [map fst] in Hnd. apply NoDup_remove_2 in Hnd.
      intros H. apply Hnd. apply in_or_app. left. exact H. }
    apply rectify_column_ok in Hb. destruct Hb as [_ [s' [-> Hs']]].
    apply in_app_or in Hin. destruct Hin as [Hin|[Hin|[]]].
    + assert (Hne : c <> col).
      { intros ->. apply Hfresh. apply (in_map fst) in Hin. exact Hin. }
      rewrite DictFacts.get_set_other by exact Hne. apply Hd. exact Hin.
    + inversion Hin; subst. exists s'. rewrite DictFacts.get_set_same. auto.
Qed.

(** The rewrite keeps the column labels, so a label of the map that
    is not a column makes it raise. *)
Lemma rewriter_raises_on_absent (dtypes_final : dict string) (md : DataFrame)
    (col : string) :
  In col (Dict.keys dtypes_final) -> ~ In col (columns md) ->
  exists e, rectify_dtypes_in_md dtypes_final md = Raise e.
Proof.
  unfold rectify_dtypes_in_md. revert md.
  induction dtypes_final as [|[c dt] m IH]; intros md Hin Hc; [contradiction|].
  cbn [for_each]. destruct (rectify_column md (c, dt)) as [md1|e] eqn:Hb; cbn [bind].
  - apply rectify_column_ok in Hb. destruct Hb as [Hcin [s' [-> _]]].
    apply IH.
    + destruct Hin as [Hin|Hin]; [|exact Hin]. cbn in Hin. subst c. contradiction.
    + rewrite columns_setitem by exact Hcin. exact Hc.
  - eauto.
Qed.
End RewriterFacts.

(** ** From the scanner to the finalizer *)

Lemma in_dict_set {V : Type} (k k0 : string) (v v0 : V) (d : dict V) :
  In (k, v) (Dict.set k0 v0 d) -> (k = k0 /\ v = v0) \/ In (k, v) d.
Proof.
  induction d as [|[k' v'] d IH]; cbn [Dict.set In].
  - intros [H|[]]. inversion H. auto.
  - destruct (String.eqb k0 k'); cbn [In].
    + intros [H|H]; [inversion H; auto | auto].
    + intros [H|H]; [auto|]. destruct (IH H) as [H'|H']; auto.
Qed.

Section Pipeline.
Context {FT : FloatText}.
Variable pd_tab : DataFrame.
Variable regex_unk : string -> bool.
Variable sampleID_cols : option (list string).

Local Abbreviation sampleIDs := (sampleIDs_of sampleID_cols).

(** Every entry of the [dtypes] the scanner returns belongs to a column
    of the table and holds its two tags. *)
Lemma scanner_entries (dtypes pu : dict (list string)) (nd : list pyvalue) :
  get_dtypes_and_unks pd_tab regex_unk sampleID_cols = Ok (dtypes, pu, nd) ->
  forall col checks, In (col, checks) dtypes ->
    exists s, Dict.get col pd_tab = Some s /\
              checks = [dtype_name s; scanner_tag sampleIDs col s].
Proof.
  intros Hr.
  pose (I := fun (done : list string) (st : scan_result) =>
               forall col checks, In (col, checks) (fst (fst st)) ->
                 exists s, Dict.get col pd_tab = Some s /\
                           checks = [dtype_name s; scanner_tag sampleIDs col s]).
  change (I (columns pd_tab) (dtypes, pu, nd)).
  apply (for_each_invariant (scan_column pd_tab regex_unk sampleIDs) I
           (columns pd_tab) ([], [], [])); [| |exact Hr].
  - intros col checks [].
  - intros done x [[d p] n] st' Hd Hx Hb col checks Hin.
    destruct (column_has_series pd_tab x Hx) as [sx Hsx].
    rewrite (scan_column_eq _ _ _ _ _ _ _ _ Hsx) in Hb.
    assert (Hst : fst (fst st') =
                  Dict.set x [dtype_name sx; scanner_tag sampleIDs x sx] d).
    { unfold scanner_tag in *. destruct (in_list x sampleIDs).
      - inversion Hb; reflexivity.
      - destruct (existsb _ _); inversion Hb; reflexivity. }
    rewrite Hst in Hin. apply in_dict_set in Hin.
    destruct Hin as [[-> ->]|Hin]; [eauto|]. apply (Hd col checks Hin).
Qed.

End Pipeline.

(** ** The stages on the small table *)

Example scanner_on_demo :
  get_dtypes_and_unks demo_table demo_regex None =
  Ok (demo_dtypes, demo_unks, demo_diversity).
Proof. vm_compute. reflexivity. Qed.

Example finalizer_on_demo :
  get_dtypes_final (Some demo_to_nan) demo_dtypes demo_table None =
  Ok (demo_final, demo_replaced).
Proof. vm_compute. reflexivity. Qed.

(** In the module as it is, the name [to_nan] is not bound. *)
Example finalizer_as_shipped :
  get_dtypes_final None demo_dtypes demo_table None = Raise NameError.
Proof. vm_compute. reflexivity. Qed.

Example rewriter_on_demo :
  rectify_dtypes_in_md demo_final demo_replaced = Ok demo_rewritten.
Proof. vm_compute. reflexivity. Qed.

(** With an empty substitution 'unk' stays in its column, which is then
    textual. *)
Example finalizer_without_substitution :
  get_dtypes_final (Some []) demo_dtypes demo_table None =
  Ok ([("sample_name", "O"); ("age", "Q"); ("weight_kg", "O"); ("host_diet", "O")],
      demo_table).
Proof. vm_compute. reflexivity. Qed.

(** 'unk' is met in three columns: it passes a threshold of two and not
    a threshold of three. *)
Example confirmer_on_counts :
  inc_columns (get_certainly_NaNs count_unks demo_table 2) = ["unk"] /\
  inc_columns (get_certainly_NaNs count_unks demo_table 3) = [].
Proof. split; vm_compute; reflexivity. Qed.

(** ** The claims *)

(** *** Scanner *)

Lemma tag_of_counts_cases (n0 n1 n2 : nat) :
  (n2 = 0 -> tag_of_counts n0 n1 n2 = "float64") /\
  (n2 <> 0 -> n1 <> 0 \/ n0 <> 0 -> tag_of_counts n0 n1 n2 = "check") /\
  (n2 <> 0 -> n1 = 0 -> n0 = 0 -> tag_of_counts n0 n1 n2 = "object").
Proof.
  unfold tag_of_counts.
  destruct (Nat.eqb_spec n2 0), (Nat.eqb_spec n1 0), (Nat.eqb_spec n0 0);
    cbn [negb orb]; repeat split; intros; try reflexivity; try tauto; try lia.
Qed.

(** C1. For a column that is not an identifier column, the scanner files
    under the column its native dtype and one preliminary tag, decided by
    the three counters over the distinct values of the column: 'float64'
    when the contains-non-float counter is zero; 'check' when it is not
    zero and the contains-float or the contains-missing counter is not
    zero; 'object' otherwise.  The counters the value loop ends with are
    the numbers of distinct values of each kind. *)
Theorem scanner_preliminary_tag {FT : FloatText} (pd_tab : DataFrame)
    (regex_unk : string -> bool) (sampleID_cols : option (list string))
    (column : string) (s : Series)
    (dtypes potential_unks : dict (list string)) (nan_diversity : list pyvalue) :
  Dict.get column pd_tab = Some s ->
  in_list column (sampleIDs_of sampleID_cols) = false ->
  get_dtypes_and_unks pd_tab regex_unk sampleID_cols =
    Ok (dtypes, potential_unks, nan_diversity) ->
  (forall pu nd float_to_string pu' nd',
      for_each (scan_value regex_unk column) (unique (values s))
               (mk_fts 0 0 0 [], pu, nd) = Ok (float_to_string, pu', nd') ->
      fts0 float_to_string = count_missing (unique (values s)) /\
      fts1 float_to_string = count_float (unique (values s)) /\
      fts2 float_to_string = count_non_float (unique (values s))) /\
  exists tag,
    Dict.get column dtypes = Some [dtype_name s; tag] /\
    (count_non_float (unique (values s)) = 0 -> tag = "float64") /\
    (count_non_float (unique (values s)) <> 0 ->
     count_float (unique (values s)) <> 0 \/
     count_missing (unique (values s)) <> 0 -> tag = "check") /\
    (count_non_float (unique (values s)) <> 0 ->
     count_float (unique (values s)) = 0 ->
     count_missing (unique (values s)) = 0 -> tag = "object").
Proof.
  intros Hs Hid Hr. split.
  - intros pu nd f pu' nd' Hloop.
    apply scan_values_ok in Hloop. destruct Hloop as [Hst _].
    inversion Hst; subst.
    destruct (counters_count (unique (values s)) (mk_fts 0 0 0 []))
      as (H0 & H1 & H2 & _).
    cbn [fts0 fts1 fts2 Nat.add] in *. auto.
  - pose proof (scanner_dtypes _ _ _ _ _ _ Hr column s Hs) as Hd.
    unfold scanner_tag in Hd. rewrite Hid in Hd.
    eexists. split; [exact Hd|]. apply tag_of_counts_cases.
Qed.

Lemma scanner_preliminary_tag_witness :
  (forall pu nd float_to_string pu' nd',
      for_each (scan_value demo_regex "weight_kg")
               (unique [VFloat 55.5; VStr "unk"; VFloat 60; VFloat 55.5])
               (mk_fts 0 0 0 [], pu, nd) = Ok (float_to_string, pu', nd') ->
      fts0 float_to_string = 0 /\ fts1 float_to_string = 2 /\
      fts2 float_to_string = 1) /\
  exists tag,
    Dict.get "weight_kg" demo_dtypes = Some ["object"; tag] /\
    (1 = 0 -> tag = "float64") /\
    (1 <> 0 -> 2 <> 0 \/ 0 <> 0 -> tag = "check") /\
    (1 <> 0 -> 2 = 0 -> 0 = 0 -> tag = "object").
Proof.
  exact (scanner_preliminary_tag demo_table demo_regex None "weight_kg"
           (mk_Series "object" [VFloat 55.5; VStr "unk"; VFloat 60; VFloat 55.5])
           demo_dtypes demo_unks demo_diversity
           eq_refl eq_refl scanner_on_demo).
Defined.

(** C6, as the code has it.  The contains-missing counter decides the
    tag of a column with a non-float and no float: 'check' when it is
    not zero, 'object' when it is zero.  When the contains-non-float
    counter is zero or the contains-float counter is not, the tag is the
    same whatever the contains-missing counter is. *)
Theorem missing_counter_effect (dtypes : dict (list string))
    (column native : string) (float_to_string : fts) :
  (fts2 float_to_string <> 0 -> fts1 float_to_string = 0 ->
   forall n,
     set_column_dtypes (Dict.set column [native] dtypes) column
       (mk_fts n 0 (fts2 float_to_string) (fts3 float_to_string)) =
     Ok (Dict.set column [native; if Nat.eqb n 0 then "object" else "check"] dtypes)) /\
  (fts2 float_to_string = 0 \/ fts1 float_to_string <> 0 ->
   forall n n',
     set_column_dtypes (Dict.set column [native] dtypes) column
       (mk_fts n (fts1 float_to_string) (fts2 float_to_string) (fts3 float_to_string)) =
     set_column_dtypes (Dict.set column [native] dtypes) column
       (mk_fts n' (fts1 float_to_string) (fts2 float_to_string) (fts3 float_to_string))).
Proof.
  split.
  - intros H2 H1 n. rewrite tag_of_counters. cbn [fts0 fts1 fts2].
    unfold tag_of_counts.
    destruct (Nat.eqb_spec (fts2 float_to_string) 0); [contradiction|].
    destruct (Nat.eqb n 0); reflexivity.
  - intros H n n'. rewrite !tag_of_counters. cbn [fts0 fts1 fts2].
    unfold tag_of_counts.
    destruct (Nat.eqb_spec (fts2 float_to_string) 0); [reflexivity|].
    destruct (Nat.eqb_spec (fts1 float_to_string) 0); [exfalso; tauto|].
    reflexivity.
Qed.

(** C6 as the spec words it fails: one more distinct value 'nan' turns
    the tag of a column of non-floats from 'object' into 'check'. *)
Lemma missing_counter_changes_tag :
  (set_column_dtypes [("site", ["object"])] "site" (mk_fts 0 0 1 [VStr "reef"]) =
     Ok [("site", ["object"; "object"])] /\
   set_column_dtypes [("site", ["object"])] "site" (mk_fts 1 0 1 [VStr "reef"]) =
     Ok [("site", ["object"; "check"])]) /\
  (get_dtypes_and_unks [("site", mk_Series "object" [VStr "reef"])]
     (fun _ => false) None =
     Ok ([("site", ["object"; "object"])], [("reef", ["site"])], []) /\
   get_dtypes_and_unks [("site", mk_Series "object" [VStr "reef"; VStr "nan"])]
     (fun _ => false) None =
     Ok ([("site", ["object"; "check"])], [("reef", ["site"])], [])) /\
  ~ (forall (dtypes : dict (list string)) (column : string) (n n' n1 n2 : nat)
            (l : list pyvalue),
        set_column_dtypes dtypes column (mk_fts n n1 n2 l) =
        set_column_dtypes dtypes column (mk_fts n' n1 n2 l)).
Proof.
  split; [split; reflexivity|]. split; [split; vm_compute; reflexivity|].
  intros H.
  specialize (H [("site", ["object"])] "site" 0 1 0 1 [VStr "reef"]).
  vm_compute in H. discriminate.
Qed.

Lemma short_plain_spec (v : string) :
  short_plain v = true <->
  String.length v < 20 /\ Text.has_char "/" v = false /\
  Text.has_char "-" v = false /\ Text.digits_of v = [].
Proof.
  unfold short_plain, truthy. rewrite negb_involutive.
  rewrite !andb_true_iff, !negb_true_iff, Nat.ltb_lt, Nat.eqb_eq. split.
  - intros [[[H1 H2] H3] H4]. repeat split; auto.
    destruct (Text.digits_of v); [reflexivity | discriminate].
  - intros (H1 & H2 & H3 & H4). rewrite H4. repeat split; auto.
Qed.

(** C7. When the value loop reaches a distinct value [V], it appends the
    column to the list kept under [v], the lowercase string form of [V],
    exactly when [float(V)] raises and [v] has fewer than 20 characters,
    no '/', no '-' and no digit.  So, when the scanner returns, a factor
    [v] maps to a column exactly when the column is scanned and holds
    such a value with that lowercase form: one factor maps to every
    column where it appeared. *)
Theorem candidate_registration {FT : FloatText} (pd_tab : DataFrame)
    (regex_unk : string -> bool) (sampleID_cols : option (list string)) :
  (forall column float_to_string pu nd V st',
      scan_value regex_unk column (float_to_string, pu, nd) V = Ok st' ->
      snd (fst st') =
      if negb (parses V) && short_plain (Text.lower (py_str V))
      then Dict.setdefault_append (Text.lower (py_str V)) column pu
      else pu) /\
  (forall v, short_plain v = true <->
             String.length v < 20 /\ Text.has_char "/" v = false /\
             Text.has_char "-" v = false /\ Text.digits_of v = []) /\
  (forall dtypes potential_unks nan_diversity,
      get_dtypes_and_unks pd_tab regex_unk sampleID_cols =
        Ok (dtypes, potential_unks, nan_diversity) ->
      forall v column,
        In column (factor_columns potential_unks v) <->
        exists s V,
          Dict.get column pd_tab = Some s /\
          in_list column (sampleIDs_of sampleID_cols) = false /\
          In V (unique (values s)) /\ Text.lower (py_str V) = v /\
          parses V = false /\ short_plain v = true).
Proof.
  split; [|split].
  - intros column f pu nd V st' H. rewrite scan_value_eq in H.
    destruct (trips regex_unk V); [discriminate|]. inversion H. reflexivity.
  - exact short_plain_spec.
  - intros dtypes pu nd Hr v column.
    rewrite (scanner_unks _ _ _ _ _ _ Hr v column). unfold contributes, registers.
    split; intros (s & V & H1 & H2 & H3 & H4 & H5); exists s, V;
      repeat split; auto.
    + apply andb_prop in H5. destruct H5 as [H5 _].
      apply negb_true_iff in H5. exact H5.
    + apply andb_prop in H5. destruct H5 as [_ H5]. congruence.
    + destruct H5 as [H5 H6]. rewrite H5, H4, H6. reflexivity.
Qed.

(** *** The native-missing marker *)

Lemma lower_char_n (c : ascii) :
  Text.lower_char c = "n"%char -> c = "n"%char \/ c = "N"%char.
Proof.
  destruct c as [[] [] [] [] [] [] [] []]; vm_compute; intros H;
    try discriminate; auto.
Qed.

Lemma lower_char_a (c : ascii) :
  Text.lower_char c = "a"%char -> c = "a"%char \/ c = "A"%char.
Proof.
  destruct c as [[] [] [] [] [] [] [] []]; vm_compute; intros H;
    try discriminate; auto.
Qed.

Lemma lower_nan_syntax (s : string) :
  Text.lower s = "nan" -> FloatSyntax.float_syntax s = true.
Proof.
  destruct s as [|c1 [|c2 [|c3 [|c4 s]]]]; cbn [Text.lower]; intros H;
    try discriminate.
  inversion H as [[H1 H2 H3]].
  destruct (lower_char_n _ H1) as [-> | ->];
    destruct (lower_char_a _ H2) as [-> | ->];
    destruct (lower_char_n _ H3) as [-> | ->]; reflexivity.
Qed.

(** C9. The test for the native-missing marker compares the string form
    with 'nan', letter case included.  A value whose string form is 'nan'
    adds one to the contains-missing counter and nothing else: the other
    counters, the non-float list and the candidate-unknowns map stay as
    they were (unless the pattern matches 'nan' and the value is not a
    [str], in which case the step raises, see C10).  A [str] such as 'NaN' or 'NAN',
    which only differs from 'nan' by case, is read by [float] and adds
    one to the contains-float counter instead. *)
Theorem native_missing_is_exact_nan {FT : FloatText}
    (regex_unk : string -> bool) (column : string)
    (float_to_string : fts) (pu : dict (list string)) (nd : list pyvalue) :
  (forall V, py_str V = "nan" ->
     (trips regex_unk V = false ->
      exists nd',
        scan_value regex_unk column (float_to_string, pu, nd) V =
        Ok (mk_fts (fts0 float_to_string + 1) (fts1 float_to_string)
                   (fts2 float_to_string) (fts3 float_to_string), pu, nd')) /\
     (trips regex_unk V = true ->
      scan_value regex_unk column (float_to_string, pu, nd) V = Raise TypeError)) /\
  (forall s, s <> "nan" -> Text.lower s = "nan" ->
     exists nd',
       scan_value regex_unk column (float_to_string, pu, nd) (VStr s) =
       Ok (mk_fts (fts0 float_to_string) (fts1 float_to_string + 1)
                  (fts2 float_to_string) (fts3 float_to_string), pu, nd')) /\
  (is_missing (VStr "nan") = true /\ is_missing (VFloat nan) = true /\
   is_missing (VStr "NaN") = false /\ is_missing (VStr "NAN") = false /\
   parses (VStr "NaN") = true /\ parses (VStr "NAN") = true).
Proof.
  split; [|split].
  - intros V HV.
    assert (Hm : is_missing V = true)
      by (unfold is_missing; rewrite HV; reflexivity).
    assert (Hreg : registers V = false)
      by (unfold registers; rewrite (missing_parses V Hm); reflexivity).
    rewrite scan_value_eq. split; intros Ht; rewrite Ht; [|reflexivity].
    unfold next_counters, next_unks. rewrite Hm, Hreg. eauto.
  - intros s Hs Hl.
    assert (Hm : is_missing (VStr s) = false).
    { unfold is_missing. cbn [py_str]. apply String.eqb_neq. exact Hs. }
    assert (Hp : parses (VStr s) = true).
    { unfold parses. cbn [py_float]. rewrite (lower_nan_syntax s Hl). reflexivity. }
    assert (Hreg : registers (VStr s) = false)
      by (unfold registers; rewrite Hp; reflexivity).
    rewrite scan_value_eq.
    assert (Ht : trips regex_unk (VStr s) = false).
    { unfold trips. cbn [is_str negb]. apply andb_false_r. }
    rewrite Ht. unfold next_counters, next_unks. rewrite Hm, Hp, Hreg. eauto.
  - repeat split; reflexivity.
Qed.

(** C10. The scanner raises [TypeError] on any table in which a scanned
    column has, among its distinct values, a value that is not a [str]
    and whose lowercase string form matches the pattern: the membership
    test for ':Unspecified' is applied to the value itself. *)
Theorem scanner_type_error {FT : FloatText} (pd_tab : DataFrame)
    (regex_unk : string -> bool) (sampleID_cols : option (list string))
    (column : string) (s : Series) (V : pyvalue) :
  Dict.get column pd_tab = Some s ->
  in_list column (sampleIDs_of sampleID_cols) = false ->
  In V (unique (values s)) ->
  is_str V = false ->
  regex_unk (Text.lower (py_str V)) = true ->
  py_contains ":Unspecified" V = Raise TypeError /\
  get_dtypes_and_unks pd_tab regex_unk sampleID_cols = Raise TypeError.
Proof.
  intros Hs Hid HV Hstr Hre. split.
  - apply py_contains_raise. exact Hstr.
  - apply (scanner_raises pd_tab regex_unk sampleID_cols column s V Hs Hid HV).
    unfold trips. rewrite Hre, Hstr. reflexivity.
Qed.

Lemma scanner_type_error_witness :
  py_contains ":Unspecified" (VFloat nan) = Raise TypeError /\
  get_dtypes_and_unks nan_table nan_regex None = Raise TypeError.
Proof.
  apply (scanner_type_error nan_table nan_regex None "depth_m"
           (mk_Series "float64" [VFloat 1.5; VFloat nan; VFloat 3]) (VFloat nan)).
  - reflexivity.
  - reflexivity.
  - vm_compute. right. left. reflexivity.
  - reflexivity.
  - reflexivity.
Defined.

(** *** Identifier columns *)

(** The finalizer gives every identifier column the code 'O'. *)
Lemma finalizer_identifier {FT : FloatText} {PD : Pandas}
    (to_nan : option (dict pyvalue))
    (dtypes : dict (list string)) (md_pd : DataFrame)
    (sampleID_cols : option (list string)) (st : final_state) :
  get_dtypes_final_state to_nan dtypes md_pd sampleID_cols = Ok st ->
  forall col, In col (Dict.keys dtypes) ->
    in_list col (sampleIDs_of sampleID_cols) = true ->
    Dict.get col (snd (fst st)) = Some "O".
Proof.
  intros Hr.
  pose (I := fun (done : dict (list string)) (st : final_state) =>
               forall col, In col (Dict.keys done) ->
                 in_list col (sampleIDs_of sampleID_cols) = true ->
                 Dict.get col (snd (fst st)) = Some "O").
  apply (for_each_invariant (finalize_column to_nan (sampleIDs_of sampleID_cols)) I
           dtypes (dtypes, [], md_pd)); [| |exact Hr].
  - intros col [].
  - intros done [c checks] [[d1 f1] m1] [[d2 f2] m2] Hd _ Hb col Hin Hid.
    apply finalize_column_ok in Hb. destruct Hb as [code [-> Hcases]].
    cbn [fst snd]. destruct (string_dec c col) as [->|Hne].
    + rewrite DictFacts.get_set_same.
      destruct Hcases as [(_ & -> & _)|(Hid' & _)]; [reflexivity | congruence].
    + rewrite DictFacts.get_set_other by exact Hne. apply (Hd col); [|exact Hid].
      unfold Dict.keys in Hin. rewrite map_app, in_app_iff in Hin.
      destruct Hin as [Hin|[Hin|[]]]; [exact Hin | cbn in Hin; congruence].
Qed.

(** C5. A column named in the identifier set is tagged 'object' by the
    scanner whatever it holds: its cells are not read, so replacing them
    changes nothing of what the scanner returns or raises, and no factor
    ever maps to it.  The finalizer gives it the code 'O'.  Without a set
    from the caller the identifier columns are '#SampleID' and
    'sample_name'. *)
Theorem identifier_columns_forced {FT : FloatText} {PD : Pandas}
    (pd_tab : DataFrame)
    (regex_unk : string -> bool) (sampleID_cols : option (list string))
    (column : string) :
  in_list column (sampleIDs_of sampleID_cols) = true ->
  sampleIDs_of None = ["#SampleID"; "sample_name"] /\
  (forall vs,
      get_dtypes_and_unks (with_values column vs pd_tab) regex_unk sampleID_cols =
      get_dtypes_and_unks pd_tab regex_unk sampleID_cols) /\
  (forall dtypes potential_unks nan_diversity s,
      get_dtypes_and_unks pd_tab regex_unk sampleID_cols =
        Ok (dtypes, potential_unks, nan_diversity) ->
      Dict.get column pd_tab = Some s ->
      Dict.get column dtypes = Some [dtype_name s; "object"] /\
      forall v, ~ In column (factor_columns potential_unks v)) /\
  (forall to_nan dtypes md_pd dtypes_final md',
      get_dtypes_final to_nan dtypes md_pd sampleID_cols = Ok (dtypes_final, md') ->
      In column (Dict.keys dtypes) ->
      Dict.get column dtypes_final = Some "O").
Proof.
  intros Hid. split; [reflexivity|]. split; [|split].
  - intros vs. apply scanner_skips_identifier. exact Hid.
  - intros dtypes pu nd s Hr Hs. split.
    + rewrite (scanner_dtypes _ _ _ _ _ _ Hr column s Hs).
      unfold scanner_tag. rewrite Hid. reflexivity.
    + intros v Hin. apply (scanner_unks _ _ _ _ _ _ Hr) in Hin.
      destruct Hin as (s' & V & _ & Hno & _). congruence.
  - intros to_nan dtypes md_pd final md' Hr Hin.
    unfold get_dtypes_final in Hr. apply bind_ok in Hr.
    destruct Hr as [[[d1 f1] m1] [Hst Hr]]. inversion Hr; subst.
    apply (finalizer_identifier to_nan dtypes md_pd sampleID_cols _ Hst column Hin Hid).
Qed.

Lemma identifier_columns_forced_witness :
  sampleIDs_of None = ["#SampleID"; "sample_name"] /\
  (forall vs,
      get_dtypes_and_unks (with_values "sample_name" vs demo_table) demo_regex None =
      get_dtypes_and_unks demo_table demo_regex None) /\
  (forall dtypes potential_unks nan_diversity s,
      get_dtypes_and_unks demo_table demo_regex None =
        Ok (dtypes, potential_unks, nan_diversity) ->
      Dict.get "sample_name" demo_table = Some s ->
      Dict.get "sample_name" dtypes = Some [dtype_name s; "object"] /\
      forall v, ~ In "sample_name" (factor_columns potential_unks v)) /\
  (forall to_nan dtypes md_pd dtypes_final md',
      get_dtypes_final to_nan dtypes md_pd None = Ok (dtypes_final, md') ->
      In "sample_name" (Dict.keys dtypes) ->
      Dict.get "sample_name" dtypes_final = Some "O").
Proof.
  exact (identifier_columns_forced demo_table demo_regex None "sample_name" eq_refl).
Defined.

(** *** Finalizer *)

(** C2. For an entry of [dtypes] that is not an identifier column and
    whose last tag is 'check' or 'object', the finalizer takes the
    substitution from the name [to_nan], which a caller has set (the
    call would not have returned otherwise), has pandas apply it to
    that column of the table, and scans the distinct values of the
    column that comes back, passing over those whose string form is
    'nan': the code is 'O' when some other value is refused by [float],
    and the scan stops at the first one; it is 'Q' when [float] reads
    them all. *)
Theorem finalizer_rescan {FT : FloatText} {PD : Pandas}
    (to_nan : option (dict pyvalue))
    (dtypes : dict (list string)) (md_pd : DataFrame)
    (sampleID_cols : option (list string))
    (dtypes_final : dict string) (md' : DataFrame)
    (col : string) (checks : list string) (tag : string) :
  NoDup (Dict.keys dtypes) ->
  get_dtypes_final to_nan dtypes md_pd sampleID_cols = Ok (dtypes_final, md') ->
  In (col, checks) dtypes ->
  in_list col (sampleIDs_of sampleID_cols) = false ->
  last_item checks = Ok tag ->
  tag = "check" \/ tag = "object" ->
  exists d s s',
    to_nan = Some d /\
    Dict.get col md_pd = Some s /\
    series_replace d s = Ok s' /\
    Dict.get col md' = Some s' /\
    let rescanned := unique (values s') in
    Dict.get col dtypes_final =
      Some (if rescan_breaks rescanned then "O" else "Q") /\
    (Dict.get col dtypes_final = Some "O" <->
     exists v, In v rescanned /\ py_str v <> "nan" /\ parses v = false) /\
    (Dict.get col dtypes_final = Some "Q" <->
     forall v, In v rescanned -> py_str v <> "nan" -> parses v = true) /\
    (forall before v after after',
        py_str v <> "nan" -> parses v = false ->
        rescan_breaks (before ++ v :: after) = true /\
        rescan_breaks (before ++ v :: after') = true).
Proof.
  intros Hnd Hr Hin Hid Htag Hcase.
  unfold get_dtypes_final in Hr. apply bind_ok in Hr.
  destruct Hr as [[[d1 f1] m1] [Hst Hr]]. inversion Hr; subst f1 m1. clear Hr.
  pose proof (finalizer_entries to_nan sampleID_cols dtypes md_pd d1 dtypes_final md'
                Hnd Hst col checks Hin) as [_ Hf].
  destruct (Hf Hid) as [tag' [Htag' [Hyes _]]].
  assert (tag' = tag) by congruence. subst tag'.
  assert (Hc : in_list tag ["check"; "object"] = true)
    by (destruct Hcase; subst tag; reflexivity).
  destruct (Hyes Hc) as (d & s & s' & Hd & Hs & Hrep & Hmd & Hfin).
  exists d, s, s'. split; [exact Hd|]. split; [exact Hs|].
  split; [exact Hrep|]. split; [exact Hmd|]. cbv zeta.
  split; [exact Hfin|].
  assert (Hiff : forall l, rescan_breaks l = true <->
                   exists v, In v l /\ py_str v <> "nan" /\ parses v = false).
  { intros l. rewrite rescan_breaks_iff. unfold is_missing.
    split; intros [v [H1 [H2 H3]]]; exists v; repeat split; auto.
    - apply String.eqb_neq. exact H2.
    - apply String.eqb_neq. exact H2. }
  rewrite Hfin. split; [|split].
  - rewrite <- Hiff.
    destruct (rescan_breaks _); split; intros H; congruence.
  - destruct (rescan_breaks _) eqn:Hb.
    + split; [discriminate|]. intros H. exfalso.
      apply Hiff in Hb. destruct Hb as [v [H1 [H2 H3]]].
      rewrite (H v H1 H2) in H3. discriminate.
    + split; [|reflexivity]. intros _ v H1 H2.
      destruct (parses v) eqn:Hp; [reflexivity|]. exfalso.
      assert (rescan_breaks (unique (values s')) = true)
        by (apply Hiff; eauto).
      congruence.
  - intros before v after after' H1 H2.
    assert (Hm : is_missing v = false)
      by (unfold is_missing; apply String.eqb_neq; exact H1).
    split; apply rescan_short_circuit; assumption.
Qed.

Lemma finalizer_rescan_witness :
  exists d s s',
    Some demo_to_nan = Some d /\
    Dict.get "weight_kg" demo_table = Some s /\
    series_replace d s = Ok s' /\
    Dict.get "weight_kg" demo_replaced = Some s' /\
    let rescanned := unique (values s') in
    Dict.get "weight_kg" demo_final =
      Some (if rescan_breaks rescanned then "O" else "Q") /\
    (Dict.get "weight_kg" demo_final = Some "O" <->
     exists v, In v rescanned /\ py_str v <> "nan" /\ parses v = false) /\
    (Dict.get "weight_kg" demo_final = Some "Q" <->
     forall v, In v rescanned -> py_str v <> "nan" -> parses v = true) /\
    (forall before v after after',
        py_str v <> "nan" -> parses v = false ->
        rescan_breaks (before ++ v :: after) = true /\
        rescan_breaks (before ++ v :: after') = true).
Proof.
  apply (finalizer_rescan (Some demo_to_nan) demo_dtypes demo_table None
           demo_final demo_replaced "weight_kg" ["object"; "check"] "check").
  - repeat constructor; cbn; intuition discriminate.
  - exact finalizer_on_demo.
  - cbn. auto.
  - reflexivity.
  - reflexivity.
  - left. reflexivity.
Defined.

(** *** Confirmer *)

(** C3. A factor of the candidate map is among the columns of the table
    the confirmer returns exactly when the number of table columns named
    in its list is greater than the threshold.  A column counts once,
    however often the list repeats it.  With exactly [thresh] columns the
    factor is left out; with [thresh + 1] it is kept. *)
Theorem confirmer_threshold (potential_unks : dict (list string))
    (md_pd : DataFrame) (thresh : Z) (factor : string) (cols : list string) :
  NoDup (Dict.keys potential_unks) ->
  In (factor, cols) potential_unks ->
  let confirmed := inc_columns (get_certainly_NaNs potential_unks md_pd thresh) in
  (In factor confirmed <-> (thresh < Z.of_nat (column_count md_pd cols))%Z) /\
  (Z.of_nat (column_count md_pd cols) = thresh -> ~ In factor confirmed) /\
  (Z.of_nat (column_count md_pd cols) = (thresh + 1)%Z -> In factor confirmed) /\
  (forall c, In c cols -> column_count md_pd (c :: cols) = column_count md_pd cols) /\
  (forall g, In g confirmed -> In g (Dict.keys potential_unks)).
Proof.
  intros Hnd Hin confirmed.
  assert (Hiff : In factor confirmed <->
                 (thresh < Z.of_nat (column_count md_pd cols))%Z).
  { unfold confirmed. rewrite confirmed_iff. split.
    - intros [cols' [Hin' Hlt]].
      assert (cols' = cols).
      { apply (DictFacts.get_of_in _ _ _ Hnd) in Hin.
        apply (DictFacts.get_of_in _ _ _ Hnd) in Hin'. congruence. }
      subst. exact Hlt.
    - intros Hlt. exists cols. auto. }
  split; [exact Hiff|]. split; [|split; [|split]].
  - intros E H. apply Hiff in H. lia.
  - intros E. apply Hiff. lia.
  - intros c Hc. apply column_count_repeat. exact Hc.
  - intros g Hg. unfold confirmed in Hg. apply confirmed_iff in Hg.
    destruct Hg as [cols' [Hg _]]. apply (in_map fst) in Hg. exact Hg.
Qed.

Lemma confirmer_threshold_witness :
  let confirmed := inc_columns (get_certainly_NaNs count_unks demo_table 2) in
  (In "unk" confirmed <->
   (2 < Z.of_nat (column_count demo_table
                    ["age"; "weight_kg"; "weight_kg"; "host_diet"]))%Z) /\
  (Z.of_nat (column_count demo_table
               ["age"; "weight_kg"; "weight_kg"; "host_diet"]) = 2%Z ->
   ~ In "unk" confirmed) /\
  (Z.of_nat (column_count demo_table
               ["age"; "weight_kg"; "weight_kg"; "host_diet"]) = (2 + 1)%Z ->
   In "unk" confirmed) /\
  (forall c, In c ["age"; "weight_kg"; "weight_kg"; "host_diet"] ->
     column_count demo_table (c :: ["age"; "weight_kg"; "weight_kg"; "host_diet"]) =
     column_count demo_table ["age"; "weight_kg"; "weight_kg"; "host_diet"]) /\
  (forall g, In g confirmed -> In g (Dict.keys count_unks)).
Proof.
  apply (confirmer_threshold count_unks demo_table 2 "unk"
           ["age"; "weight_kg"; "weight_kg"; "host_diet"]).
  - repeat constructor; cbn; intuition discriminate.
  - cbn. auto.
Defined.

(** *** Rewriter *)

(** C4, on the code.  A label of the finalized-type map that is not a
    column of the table makes the rewriter raise: the branch for an
    absent column reads the column before it assigns it, which is a
    [KeyError].  No column is created. *)
Theorem rewriter_absent_column {FT : FloatText} (dtypes_final : dict string)
    (md_pd : DataFrame) (col : string) :
  In col (Dict.keys dtypes_final) ->
  ~ In col (columns md_pd) ->
  (exists e, rectify_dtypes_in_md dtypes_final md_pd = Raise e) /\
  (forall dtype, rectify_column md_pd (col, dtype) = Raise KeyError) /\
  (forall dtype rest,
      rectify_dtypes_in_md ((col, dtype) :: rest) md_pd = Raise KeyError).
Proof.
  intros Hin Hc. split; [|split].
  - apply (rewriter_raises_on_absent dtypes_final md_pd col Hin Hc).
  - intros dtype. apply rectify_column_absent. exact Hc.
  - intros dtype rest. unfold rectify_dtypes_in_md. cbn [for_each].
    rewrite (rectify_column_absent md_pd col dtype Hc). reflexivity.
Qed.

Lemma rewriter_absent_column_witness :
  (exists e, rectify_dtypes_in_md [("age", "Q"); ("depth_m", "Q")] demo_table = Raise e) /\
  (forall dtype, rectify_column demo_table ("depth_m", dtype) = Raise KeyError) /\
  (forall dtype rest,
      rectify_dtypes_in_md (("depth_m", dtype) :: rest) demo_table = Raise KeyError).
Proof.
  apply (rewriter_absent_column [("age", "Q"); ("depth_m", "Q")] demo_table "depth_m").
  - cbn. auto.
  - cbn. intuition discriminate.
Defined.

(** C8. The rewriter is idempotent: when it returns a table, running it
    again with the same finalized-type map on that table returns the
    same table. *)
Theorem rewriter_is_idempotent {FT : FloatText} (dtypes_final : dict string)
    (md_pd md' : DataFrame) :
  NoDup (Dict.keys dtypes_final) ->
  rectify_dtypes_in_md dtypes_final md_pd = Ok md' ->
  rectify_dtypes_in_md dtypes_final md' = Ok md'.
Proof.
  intros Hnd Hr. unfold rectify_dtypes_in_md. apply for_each_fixed.
  intros [col dtype] Hin.
  destruct (rewritten_columns _ _ _ Hnd Hr col dtype Hin) as [s [Hs Hc]].
  apply (rectify_column_fixed md' col dtype s Hs Hc).
Qed.

Lemma rewriter_is_idempotent_witness :
  rectify_dtypes_in_md demo_final demo_rewritten = Ok demo_rewritten.
Proof.
  apply (rewriter_is_idempotent demo_final demo_replaced demo_rewritten).
  - repeat constructor; cbn; intuition discriminate.
  - vm_compute. reflexivity.
Defined.

(** * Further properties *)

(** ** [set_column_dtypes] *)

Lemma tag_of_counts_values (n0 n1 n2 : nat) :
  tag_of_counts n0 n1 n2 = "float64" \/ tag_of_counts n0 n1 n2 = "check" \/
  tag_of_counts n0 n1 n2 = "object".
Proof.
  unfold tag_of_counts. destruct (Nat.eqb n2 0); [auto|].
  destruct (negb (Nat.eqb n1 0) || negb (Nat.eqb n0 0)); auto.
Qed.

Lemma set_column_dtypes_eq (dtypes : dict (list string)) (column : string) (f : fts) :
  set_column_dtypes dtypes column f =
  Dict.append column (tag_of_counts (fts0 f) (fts1 f) (fts2 f)) dtypes.
Proof.
  unfold set_column_dtypes, tag_of_counts, truthy.
  destruct (Nat.eqb (fts2 f) 0); cbn [negb]; [reflexivity|].
  destruct (negb (Nat.eqb (fts1 f) 0) || negb (Nat.eqb (fts0 f) 0)); reflexivity.
Qed.

(** X1. [set_column_dtypes] raises [KeyError] when the column has no
    entry in [dtypes].  Otherwise it appends exactly one tag, one of
    'float64', 'check' and 'object', to the entry of the column and
    leaves the keys and every other entry as they were. *)
Theorem set_column_dtypes_entry (dtypes : dict (list string)) (column : string)
    (float_to_string : fts) :
  (Dict.get column dtypes = None ->
   set_column_dtypes dtypes column float_to_string = Raise KeyError) /\
  (forall l, Dict.get column dtypes = Some l ->
     exists tag dtypes',
       set_column_dtypes dtypes column float_to_string = Ok dtypes' /\
       (tag = "float64" \/ tag = "check" \/ tag = "object") /\
       Dict.get column dtypes' = Some (l ++ [tag]) /\
       Dict.keys dtypes' = Dict.keys dtypes /\
       forall c, c <> column -> Dict.get c dtypes' = Dict.get c dtypes).
Proof.
  rewrite set_column_dtypes_eq. unfold Dict.append, Dict.getitem. split.
  - intros ->. reflexivity.
  - intros l Hl. rewrite Hl. cbn [bind].
    exists (tag_of_counts (fts0 float_to_string) (fts1 float_to_string)
                          (fts2 float_to_string)).
    eexists. split; [reflexivity|]. split; [apply tag_of_counts_values|].
    split; [apply DictFacts.get_set_same|]. split.
    + rewrite DictFacts.keys_set. unfold Dict.mem. rewrite Hl. reflexivity.
    + intros c Hc. apply DictFacts.get_set_other. congruence.
Qed.

(** ** The scanner: when it returns *)

(** X2. On a table with distinct labels and without an int that [str]
    refuses, the scanner raises nothing but [TypeError], and it returns
    exactly when, in every scanned column, each distinct value whose
    lowercase string form matches the pattern is a [str]. *)
Theorem scanner_returns_iff {FT : FloatText} (pd_tab : DataFrame)
    (regex_unk : string -> bool) (sampleID_cols : option (list string)) :
  NoDup (columns pd_tab) ->
  printable_table pd_tab = true ->
  (forall e, get_dtypes_and_unks pd_tab regex_unk sampleID_cols = Raise e ->
             e = TypeError) /\
  ((exists r, get_dtypes_and_unks pd_tab regex_unk sampleID_cols = Ok r) <->
   (forall c s V,
       Dict.get c pd_tab = Some s ->
       in_list c (sampleIDs_of sampleID_cols) = false ->
       In V (unique (values s)) ->
       regex_unk (Text.lower (py_str V)) = true -> is_str V = true)).
Proof.
  intros _ _. split; [apply scanner_only_type_error|]. split.
  - intros [r Hr] c s V Hs Hid HV Hre.
    destruct (is_str V) eqn:Hstr; [reflexivity|]. exfalso.
    assert (Ht : trips regex_unk V = true)
      by (unfold trips; rewrite Hre, Hstr; reflexivity).
    rewrite (scanner_raises pd_tab regex_unk sampleID_cols c s V Hs Hid HV Ht) in Hr.
    discriminate.
  - intros H. apply scanner_returns. intros c s V Hs Hid HV.
    unfold trips. destruct (regex_unk (Text.lower (py_str V))) eqn:Hre; [|reflexivity].
    rewrite (H c s V Hs Hid HV Hre). reflexivity.
Qed.

Lemma scanner_returns_iff_witness :
  (forall e, get_dtypes_and_unks demo_table demo_regex None = Raise e ->
             e = TypeError) /\
  ((exists r, get_dtypes_and_unks demo_table demo_regex None = Ok r) <->
   (forall c s V,
       Dict.get c demo_table = Some s ->
       in_list c (sampleIDs_of None) = false ->
       In V (unique (values s)) ->
       demo_regex (Text.lower (py_str V)) = true -> is_str V = true)).
Proof.
  apply (scanner_returns_iff demo_table demo_regex None).
  - repeat constructor; cbn; intuition discriminate.
  - vm_compute. reflexivity.
Defined.

Lemma scanner_tag_values {FT : FloatText} (ids : list string) (c : string) (s : Series) :
  scanner_tag ids c s = "float64" \/ scanner_tag ids c s = "check" \/
  scanner_tag ids c s = "object".
Proof.
  unfold scanner_tag. destruct (in_list c ids); [auto|]. apply tag_of_counts_values.
Qed.

Lemma scanner_keys {FT : FloatText} (pd_tab : DataFrame)
    (regex_unk : string -> bool) (sampleID_cols : option (list string))
    (dtypes pu : dict (list string)) (nd : list pyvalue) :
  NoDup (columns pd_tab) ->
  get_dtypes_and_unks pd_tab regex_unk sampleID_cols = Ok (dtypes, pu, nd) ->
  Dict.keys dtypes = columns pd_tab.
Proof.
  intros Hnd Hr.
  pose (I := fun (done : list string) (st : scan_result) =>
               Dict.keys (fst (fst st)) = done).
  change (I (columns pd_tab) (dtypes, pu, nd)).
  apply (for_each_invariant_at
           (scan_column pd_tab regex_unk (sampleIDs_of sampleID_cols)) I
           (columns pd_tab) ([], [], [])); [reflexivity| |exact Hr].
  intros done x rest [[d p] n] st' El Hd Hb. unfold I in *. cbn [fst] in Hd.
  assert (Hx : In x (columns pd_tab)) by (rewrite El; apply in_elt).
  destruct (column_has_series pd_tab x Hx) as [sx Hsx].
  rewrite (scan_column_eq _ _ _ _ _ _ _ _ Hsx) in Hb.
  assert (Hst : fst (fst st') =
                Dict.set x [dtype_name sx;
                            scanner_tag (sampleIDs_of sampleID_cols) x sx] d).
  { unfold scanner_tag in *. destruct (in_list x (sampleIDs_of sampleID_cols)).
    - inversion Hb; reflexivity.
    - destruct (existsb _ _); inversion Hb; reflexivity. }
  rewrite Hst, DictFacts.keys_set. unfold Dict.mem.
  assert (Hfresh : Dict.get x d = None).
  { apply DictFacts.get_none. rewrite Hd. rewrite El in Hnd.
    apply NoDup_remove_2 in Hnd. intros H. apply Hnd. apply in_or_app. auto. }
  rewrite Hfresh, Hd. reflexivity.
Qed.

(** X3. When the scanner returns, [dtypes] has one entry per column of
    the table, in the order of the columns, and every entry is the
    native dtype of its column followed by one of the three tags. *)
Theorem scanner_dtypes_shape {FT : FloatText} (pd_tab : DataFrame)
    (regex_unk : string -> bool) (sampleID_cols : option (list string))
    (dtypes potential_unks : dict (list string)) (nan_diversity : list pyvalue) :
  NoDup (columns pd_tab) ->
  get_dtypes_and_unks pd_tab regex_unk sampleID_cols =
    Ok (dtypes, potential_unks, nan_diversity) ->
  Dict.keys dtypes = columns pd_tab /\
  forall col checks, In (col, checks) dtypes ->
    exists s tag,
      Dict.get col pd_tab = Some s /\ checks = [dtype_name s; tag] /\
      (tag = "float64" \/ tag = "check" \/ tag = "object").
Proof.
  intros Hnd Hr. split; [eapply scanner_keys; eauto|].
  intros col checks Hin.
  destruct (scanner_entries pd_tab regex_unk sampleID_cols _ _ _ Hr col checks Hin)
    as [s [Hs Hc]].
  exists s. eexists. split; [exact Hs|]. split; [exact Hc|].
  apply scanner_tag_values.
Qed.

Lemma scanner_dtypes_shape_witness :
  Dict.keys demo_dtypes = columns demo_table /\
  forall col checks, In (col, checks) demo_dtypes ->
    exists s tag,
      Dict.get col demo_table = Some s /\ checks = [dtype_name s; tag] /\
      (tag = "float64" \/ tag = "check" \/ tag = "object").
Proof.
  apply (scanner_dtypes_shape demo_table demo_regex None demo_dtypes demo_unks
           demo_diversity).
  - repeat constructor; cbn; intuition discriminate.
  - vm_compute. reflexivity.
Defined.

(** ** The scanner: the pattern and the diagnostic set *)

Section Pattern.
Context {FT : FloatText}.
Variable pd_tab : DataFrame.
Variable sampleID_cols : option (list string).

Local Abbreviation sampleIDs := (sampleIDs_of sampleID_cols).

Lemma scan_columns_same_tags (r1 r2 : string -> bool) (l : list string) :
  incl l (columns pd_tab) ->
  forall d pu nd1 nd2 st1 st2,
    for_each (scan_column pd_tab r1 sampleIDs) l (d, pu, nd1) = Ok st1 ->
    for_each (scan_column pd_tab r2 sampleIDs) l (d, pu, nd2) = Ok st2 ->
    fst st1 = fst st2.
Proof.
  induction l as [|c l IH]; intros Hl d pu nd1 nd2 st1 st2; cbn [for_each].
  - intros H1 H2. inversion H1; inversion H2. reflexivity.
  - assert (Hc : In c (columns pd_tab)) by (apply Hl; left; reflexivity).
    destruct (column_has_series pd_tab c Hc) as [s Hs].
    rewrite !(scan_column_eq _ _ _ _ _ _ _ _ Hs).
    assert (Hl' : incl l (columns pd_tab))
      by (intros x Hx; apply Hl; right; exact Hx).
    destruct (in_list c sampleIDs); cbn [bind].
    + apply IH. exact Hl'.
    + destruct (existsb (trips r1) (unique (values s))); [discriminate|].
      destruct (existsb (trips r2) (unique (values s))); [discriminate|].
      cbn [bind]. apply IH. exact Hl'.
Qed.

Lemma next_diversity_never (nd : list pyvalue) (l : list pyvalue) :
  fold_left (next_diversity (fun _ => false)) l nd = nd.
Proof.
  revert nd. induction l as [|V l IH]; intros nd; cbn [fold_left]; [reflexivity|].
  rewrite IH. destruct V; reflexivity.
Qed.
End Pattern.

(** X4. The pattern only feeds the diagnostic set: two calls on the same
    table that both return give the same [dtypes] and the same
    candidate map, whatever their patterns.  With a pattern that matches
    nothing the scanner returns on every table with distinct labels and
    without an int that [str] refuses, and the diagnostic set is
    empty. *)
Theorem pattern_only_feeds_diversity {FT : FloatText} (pd_tab : DataFrame)
    (sampleID_cols : option (list string)) :
  NoDup (columns pd_tab) ->
  printable_table pd_tab = true ->
  (forall regex1 regex2 dtypes1 pu1 nd1 dtypes2 pu2 nd2,
      get_dtypes_and_unks pd_tab regex1 sampleID_cols = Ok (dtypes1, pu1, nd1) ->
      get_dtypes_and_unks pd_tab regex2 sampleID_cols = Ok (dtypes2, pu2, nd2) ->
      dtypes1 = dtypes2 /\ pu1 = pu2) /\
  (exists dtypes pu,
      get_dtypes_and_unks pd_tab (fun _ => false) sampleID_cols = Ok (dtypes, pu, [])).
Proof.
  intros _ _. split.
  - intros r1 r2 d1 pu1 nd1 d2 pu2 nd2 H1 H2.
    pose proof (scan_columns_same_tags pd_tab sampleID_cols r1 r2 (columns pd_tab)
                  (incl_refl _) [] [] [] [] _ _ H1 H2) as E.
    cbn [fst] in E. inversion E. auto.
  - destruct (scanner_returns pd_tab (fun _ => false) sampleID_cols) as [[[d pu] nd] Hr].
    { intros c s V _ _ _. reflexivity. }
    exists d, pu. rewrite Hr. repeat f_equal.
    pose (I := fun (done : list string) (st : scan_result) => snd st = []).
    change (I (columns pd_tab) (d, pu, nd)).
    apply (for_each_invariant
             (scan_column pd_tab (fun _ => false) (sampleIDs_of sampleID_cols)) I
             (columns pd_tab) ([], [], [])); [reflexivity| |exact Hr].
    intros done x [[d1 p1] n1] st' Hd Hx Hb. unfold I in *. cbn [snd] in Hd. subst n1.
    destruct (column_has_series pd_tab x Hx) as [sx Hsx].
    rewrite (scan_column_eq _ _ _ _ _ _ _ _ Hsx) in Hb.
    destruct (in_list x (sampleIDs_of sampleID_cols)); [inversion Hb; reflexivity|].
    destruct (existsb _ _); inversion Hb. cbn [snd]. apply next_diversity_never.
Qed.

Lemma pattern_only_feeds_diversity_witness :
  (forall regex1 regex2 dtypes1 pu1 nd1 dtypes2 pu2 nd2,
      get_dtypes_and_unks demo_table regex1 None = Ok (dtypes1, pu1, nd1) ->
      get_dtypes_and_unks demo_table regex2 None = Ok (dtypes2, pu2, nd2) ->
      dtypes1 = dtypes2 /\ pu1 = pu2) /\
  (exists dtypes pu,
      get_dtypes_and_unks demo_table (fun _ => false) None = Ok (dtypes, pu, [])).
Proof.
  apply (pattern_only_feeds_diversity demo_table None).
  - repeat constructor; cbn; intuition discriminate.
  - vm_compute. reflexivity.
Defined.

(** ** The diagnostic set *)

Section Diversity.
Context {FT : FloatText}.

Lemma same_value_str (t : string) (W : pyvalue) :
  same_value (VStr t) W = true <-> W = VStr t.
Proof.
  destruct W as [u|g|z|b|]; cbn; split; intros H; try discriminate.
  - apply String.eqb_eq in H. congruence.
  - inversion H. apply String.eqb_refl.
Qed.

Lemma in_set_add_str (t : string) (nd : list pyvalue) (W : pyvalue) :
  In W (set_add (VStr t) nd) <-> In W nd \/ W = VStr t.
Proof.
  unfold set_add. destruct (existsb (same_value (VStr t)) nd) eqn:E.
  - split; [auto|]. intros [H|H]; [exact H|]. subst W.
    apply existsb_exists in E. destruct E as [y [Hy Hs]].
    apply same_value_str in Hs. subst y. exact Hy.
  - rewrite in_app_iff. cbn [In]. split.
    + intros [H|[H|[]]]; auto.
    + intros [H|H]; auto.
Qed.

Lemma nodup_set_add_str (t : string) (nd : list pyvalue) :
  NoDup nd -> NoDup (set_add (VStr t) nd).
Proof.
  intros Hnd. unfold set_add.
  destruct (existsb (same_value (VStr t)) nd) eqn:E; [exact Hnd|].
  assert (Hni : ~ In (VStr t) nd).
  { intros H. assert (existsb (same_value (VStr t)) nd = true).
    { apply existsb_exists. exists (VStr t). split; [exact H|].
      apply same_value_str. reflexivity. }
    congruence. }
  induction nd as [|y nd IH]; cbn [app].
  - constructor; [intros []|constructor].
  - inversion Hnd as [|? ? Hy Hnd']; subst. constructor.
    + rewrite in_app_iff. cbn [In]. intros [H|[H|[]]]; [contradiction|].
      apply Hni. left. symmetry. exact H.
    + apply IH; [exact Hnd'| |].
      * cbn [existsb] in E. apply orb_false_iff in E. tauto.
      * intros H. apply Hni. right. exact H.
Qed.

Lemma next_diversity_members (regex_unk : string -> bool) (l : list pyvalue)
    (nd : list pyvalue) (W : pyvalue) :
  In W (fold_left (next_diversity regex_unk) l nd) <->
  In W nd \/ (In W l /\ flagged regex_unk W).
Proof.
  revert nd. induction l as [|V l IH]; intros nd; cbn [fold_left In].
  - tauto.
  - rewrite IH. unfold flagged.
    assert (Hstep : In W (next_diversity regex_unk nd V) <->
                    In W nd \/ (V = W /\ flagged regex_unk W)).
    { unfold flagged. destruct V as [t|g|z|b|]; cbn [next_diversity];
        try (split; [auto | intros [H|[H [u [Hu _]]]]; [exact H | congruence]]).
      destruct (regex_unk (Text.lower t)) eqn:Er;
        destruct (Text.contains ":Unspecified" t) eqn:Ec; cbn [andb negb].
      - split; [auto|]. intros [H|[H [u [Hu [_ Hc]]]]]; [exact H|].
        assert (u = t) by congruence. subst u. congruence.
      - rewrite in_set_add_str. split.
        + intros [H|H]; [auto|]. right. split; [auto|]. exists t. auto.
        + intros [H|[H _]]; auto.
      - split; [auto|]. intros [H|[H [u [Hu [Hr _]]]]]; [exact H|].
        assert (u = t) by congruence. subst u. congruence.
      - split; [auto|]. intros [H|[H [u [Hu [Hr _]]]]]; [exact H|].
        assert (u = t) by congruence. subst u. congruence. }
    rewrite Hstep. unfold flagged. tauto.
Qed.

Lemma next_diversity_nodup (regex_unk : string -> bool) (l : list pyvalue)
    (nd : list pyvalue) :
  NoDup nd -> NoDup (fold_left (next_diversity regex_unk) l nd).
Proof.
  revert nd. induction l as [|V l IH]; intros nd Hnd; cbn [fold_left]; [exact Hnd|].
  apply IH. destruct V as [t|g|z|b|]; cbn [next_diversity]; try exact Hnd.
  destruct (regex_unk (Text.lower t) && negb (Text.contains ":Unspecified" t));
    [apply nodup_set_add_str|]; exact Hnd.
Qed.
End Diversity.

(** X5. When the scanner returns, the diagnostic set has no repeated
    value and holds exactly the [str] values that are among the distinct
    values of a scanned column, whose lowercase form the pattern
    matches, and in which ':Unspecified' does not occur (anywhere in
    the text, not only as the whole text). *)
Theorem diversity_members {FT : FloatText} (pd_tab : DataFrame)
    (regex_unk : string -> bool) (sampleID_cols : option (list string))
    (dtypes potential_unks : dict (list string)) (nan_diversity : list pyvalue) :
  get_dtypes_and_unks pd_tab regex_unk sampleID_cols =
    Ok (dtypes, potential_unks, nan_diversity) ->
  NoDup nan_diversity /\
  forall W, In W nan_diversity <->
    exists c s t,
      Dict.get c pd_tab = Some s /\
      in_list c (sampleIDs_of sampleID_cols) = false /\
      W = VStr t /\ In (VStr t) (unique (values s)) /\
      regex_unk (Text.lower t) = true /\
      Text.contains ":Unspecified" t = false.
Proof.
  intros Hr.
  pose (I := fun (done : list string) (st : scan_result) =>
               NoDup (snd st) /\
               forall W, In W (snd st) <->
                 exists c s, In c done /\ Dict.get c pd_tab = Some s /\
                   in_list c (sampleIDs_of sampleID_cols) = false /\
                   In W (unique (values s)) /\ flagged regex_unk W).
  assert (HI : I (columns pd_tab) (dtypes, potential_unks, nan_diversity)).
  { apply (for_each_invariant
             (scan_column pd_tab regex_unk (sampleIDs_of sampleID_cols)) I
             (columns pd_tab) ([], [], [])); [| |exact Hr].
    - split; [constructor|]. intros W. cbn. split; [tauto|].
      intros (c & s & [] & _).
    - intros done x [[d p] n] st' [Hnd Hd] Hx Hb. cbn [snd] in Hnd, Hd.
      destruct (column_has_series pd_tab x Hx) as [sx Hsx].
      rewrite (scan_column_eq _ _ _ _ _ _ _ _ Hsx) in Hb.
      destruct (in_list x (sampleIDs_of sampleID_cols)) eqn:Hid.
      + inversion Hb; subst st'. unfold I. cbn [snd]. split; [exact Hnd|].
        intros W. rewrite Hd. split.
        * intros (c & s & Hc & H). exists c, s. split; [|exact H].
          apply in_or_app. auto.
        * intros (c & s & Hc & Hs & Hno & H). exists c, s.
          apply in_app_or in Hc. destruct Hc as [Hc|[Hc|[]]]; [tauto|].
          subst c. congruence.
      + destruct (existsb _ _); inversion Hb; subst st'. unfold I. cbn [snd].
        split; [apply next_diversity_nodup; exact Hnd|].
        intros W. rewrite next_diversity_members, Hd. split.
        * intros [(c & s & Hc & H)|[HW Hf]].
          -- exists c, s. split; [apply in_or_app; auto | exact H].
          -- exists x, sx. split; [apply in_or_app; right; left; reflexivity|].
             auto.
        * intros (c & s & Hc & Hs & Hno & HW & Hf).
          apply in_app_or in Hc. destruct Hc as [Hc|[Hc|[]]].
          -- left. exists c, s. auto.
          -- subst c. right. assert (s = sx) by congruence. subst s. auto. }
  destruct HI as [Hnd HI]. cbn [snd] in *. split; [exact Hnd|].
  intros W. rewrite HI. unfold flagged. split.
  - intros (c & s & _ & Hs & Hid & HW & t & -> & Hr' & Hc).
    exists c, s, t. auto 10.
  - intros (c & s & t & Hs & Hid & -> & HW & Hr' & Hc).
    exists c, s. split; [eapply series_has_column; eauto|].
    repeat split; auto. exists t. auto.
Qed.

Lemma diversity_members_witness :
  NoDup demo_diversity /\
  forall W, In W demo_diversity <->
    exists c s t,
      Dict.get c demo_table = Some s /\
      in_list c (sampleIDs_of None) = false /\
      W = VStr t /\ In (VStr t) (unique (values s)) /\
      demo_regex (Text.lower t) = true /\
      Text.contains ":Unspecified" t = false.
Proof.
  apply (diversity_members demo_table demo_regex None demo_dtypes demo_unks
           demo_diversity).
  vm_compute. reflexivity.
Defined.

(** ** The lists of the candidate map *)

Section Lists.
Context {FT : FloatText}.

Lemma count_next_unks (column : string) (l : list pyvalue)
    (pu : dict (list string)) (v c : string) :
  count_occ string_dec (factor_columns (fold_left (next_unks column) l pu) v) c =
  count_occ string_dec (factor_columns pu v) c +
  (if string_dec column c then List.length (registered_under v l) else 0).
Proof.
  revert pu. induction l as [|V l IH]; intros pu; cbn [fold_left].
  - cbn. destruct (string_dec column c); lia.
  - rewrite IH. unfold next_unks, registered_under. cbn [filter].
    unfold registers.
    destruct (String.eqb (Text.lower (py_str V)) v) eqn:Ev.
    + apply String.eqb_eq in Ev. rewrite Ev.
      destruct (negb (parses V) && short_plain v); cbn [andb].
      * rewrite factor_columns_setdefault, String.eqb_refl, count_occ_app.
        cbn [count_occ List.length].
        destruct (string_dec column c); lia.
      * destruct (string_dec column c); lia.
    + cbn [andb].
      destruct (negb (parses V) && short_plain (Text.lower (py_str V))).
      * rewrite factor_columns_setdefault, (String.eqb_sym v), Ev. reflexivity.
      * reflexivity.
Qed.

Lemma nonempty_next_unks (column : string) (l : list pyvalue)
    (pu : dict (list string)) :
  (forall v cols, Dict.get v pu = Some cols -> cols <> []) ->
  forall v cols, Dict.get v (fold_left (next_unks column) l pu) = Some cols ->
                 cols <> [].
Proof.
  revert pu. induction l as [|V l IH]; intros pu Hpu; cbn [fold_left]; [exact Hpu|].
  apply IH. unfold next_unks. destruct (registers V); [|exact Hpu].
  intros v cols. unfold Dict.setdefault_append.
  destruct (string_dec (Text.lower (py_str V)) v) as [<-|Hne].
  - destruct (Dict.get (Text.lower (py_str V)) pu) as [old|];
      rewrite DictFacts.get_set_same; intros H; inversion H.
    + destruct old; discriminate.
    + discriminate.
  - destruct (Dict.get (Text.lower (py_str V)) pu);
      rewrite DictFacts.get_set_other by exact Hne; apply Hpu.
Qed.
End Lists.

(** X6. In the candidate map, a scanned column stands in the list of a
    factor once for every distinct value of the column registered under
    that factor: values that only differ by case put the column there
    several times. *)
Theorem candidate_multiplicity {FT : FloatText} (pd_tab : DataFrame)
    (regex_unk : string -> bool) (sampleID_cols : option (list string))
    (dtypes potential_unks : dict (list string)) (nan_diversity : list pyvalue)
    (column : string) (s : Series) :
  NoDup (columns pd_tab) ->
  get_dtypes_and_unks pd_tab regex_unk sampleID_cols =
    Ok (dtypes, potential_unks, nan_diversity) ->
  Dict.get column pd_tab = Some s ->
  in_list column (sampleIDs_of sampleID_cols) = false ->
  forall v,
    count_occ string_dec (factor_columns potential_unks v) column =
    List.length
      (filter (fun V => String.eqb (Text.lower (py_str V)) v &&
                        (negb (parses V) && short_plain v))
              (unique (values s))).
Proof.
  intros Hnd Hr Hs Hid v.
  pose (I := fun (done : list string) (st : scan_result) =>
               forall c, count_occ string_dec (factor_columns (snd (fst st)) v) c =
                 if in_list c done && negb (in_list c (sampleIDs_of sampleID_cols))
                 then match Dict.get c pd_tab with
                      | Some sc => List.length (registered_under v (unique (values sc)))
                      | None => 0
                      end
                 else 0).
  assert (HI : I (columns pd_tab) (dtypes, potential_unks, nan_diversity)).
  { apply (for_each_invariant_at
             (scan_column pd_tab regex_unk (sampleIDs_of sampleID_cols)) I
             (columns pd_tab) ([], [], [])); [| |exact Hr].
    - intros c. reflexivity.
    - intros done x rest [[d p] n] st' El Hd Hb c. unfold I in Hd. cbn [fst snd] in Hd.
      assert (Hx : In x (columns pd_tab)) by (rewrite El; apply in_elt).
      assert (Hfresh : in_list x done = false).
      { apply in_list_false. rewrite El in Hnd. apply NoDup_remove_2 in Hnd.
        intros H. apply Hnd. apply in_or_app. auto. }
      destruct (column_has_series pd_tab x Hx) as [sx Hsx].
      rewrite (scan_column_eq _ _ _ _ _ _ _ _ Hsx) in Hb.
      assert (Hin : in_list c (done ++ [x]) = in_list c done || String.eqb c x).
      { unfold in_list. rewrite existsb_app. cbn [existsb]. rewrite orb_false_r.
        reflexivity. }
      rewrite Hin.
      destruct (in_list x (sampleIDs_of sampleID_cols)) eqn:Hidx.
      + inversion Hb; subst st'. cbn [fst snd]. rewrite Hd.
        destruct (String.eqb c x) eqn:E; [|rewrite orb_false_r; reflexivity].
        apply String.eqb_eq in E. subst c. rewrite Hfresh, Hidx. reflexivity.
      + destruct (existsb _ _); inversion Hb; subst st'. cbn [fst snd].
        rewrite count_next_unks, Hd.
        destruct (string_dec x c) as [->|Hne].
        * rewrite String.eqb_refl, Hfresh, Hidx, Hsx. reflexivity.
        * assert (E : String.eqb c x = false) by (apply String.eqb_neq; congruence).
          rewrite E, orb_false_r. lia. }
  unfold I in HI. cbn [fst snd] in HI. rewrite HI.
  assert (Hc : in_list column (columns pd_tab) = true).
  { apply in_list_true. eapply series_has_column; eauto. }
  rewrite Hc, Hid, Hs. reflexivity.
Qed.

Lemma candidate_multiplicity_witness :
  count_occ string_dec
    (factor_columns [("reef", ["site"; "site"]); ("lagoon", ["site"])] "reef")
    "site" =
  List.length
    (filter (fun V => String.eqb (Text.lower (py_str V)) "reef" &&
                      (negb (parses V) && short_plain "reef"))
            (unique [VStr "Reef"; VStr "reef"; VStr "lagoon"; VStr "Reef"])).
Proof.
  apply (candidate_multiplicity
           [("site", mk_Series "object"
                       [VStr "Reef"; VStr "reef"; VStr "lagoon"; VStr "Reef"])]
           (fun _ => false) None
           [("site", ["object"; "object"])]
           [("reef", ["site"; "site"]); ("lagoon", ["site"])] []
           "site"
           (mk_Series "object" [VStr "Reef"; VStr "reef"; VStr "lagoon"; VStr "Reef"])).
  - repeat constructor; cbn; intuition discriminate.
  - vm_compute. reflexivity.
  - reflexivity.
  - reflexivity.
Defined.

Lemma lower_char_idempotent (c : ascii) :
  Text.lower_char (Text.lower_char c) = Text.lower_char c.
Proof.
  destruct c as [[] [] [] [] [] [] [] []]; vm_compute; reflexivity.
Qed.

Lemma lower_idempotent (s : string) : Text.lower (Text.lower s) = Text.lower s.
Proof.
  induction s as [|c s IH]; cbn [Text.lower]; [reflexivity|].
  rewrite lower_char_idempotent, IH. reflexivity.
Qed.

Lemma nodup_keys_set {V : Type} (k : string) (v : V) (d : dict V) :
  NoDup (Dict.keys d) -> NoDup (Dict.keys (Dict.set k v d)).
Proof.
  intros Hnd. rewrite DictFacts.keys_set. unfold Dict.mem.
  destruct (Dict.get k d) eqn:Hg; [exact Hnd|].
  apply DictFacts.get_none in Hg.
  apply NoDup_app; [exact Hnd | repeat constructor; intros [] |].
  intros x Hx [<-|[]]. contradiction.
Qed.

Lemma scanner_unks_nodup {FT : FloatText} (pd_tab : DataFrame)
    (regex_unk : string -> bool) (sampleID_cols : option (list string))
    (dtypes pu : dict (list string)) (nd : list pyvalue) :
  get_dtypes_and_unks pd_tab regex_unk sampleID_cols = Ok (dtypes, pu, nd) ->
  NoDup (Dict.keys pu).
Proof.
  intros Hr.
  pose (I := fun (done : list string) (st : scan_result) =>
               NoDup (Dict.keys (snd (fst st)))).
  change (I (columns pd_tab) (dtypes, pu, nd)).
  apply (for_each_invariant
           (scan_column pd_tab regex_unk (sampleIDs_of sampleID_cols)) I
           (columns pd_tab) ([], [], [])); [constructor| |exact Hr].
  intros done x [[d p] n] st' Hd Hx Hb. unfold I in *. cbn [fst snd] in Hd.
  destruct (column_has_series pd_tab x Hx) as [sx Hsx].
  rewrite (scan_column_eq _ _ _ _ _ _ _ _ Hsx) in Hb.
  destruct (in_list x (sampleIDs_of sampleID_cols)); [inversion Hb; exact Hd|].
  destruct (existsb _ _); [discriminate|]. inversion Hb; subst st'.
  cbn [fst snd]. clear Hb.
  generalize (unique (values sx)). intros l. revert p Hd.
  induction l as [|V l IH]; intros p Hd; cbn [fold_left]; [exact Hd|].
  apply IH. unfold next_unks. destruct (registers V); [|exact Hd].
  unfold Dict.setdefault_append.
  destruct (Dict.get (Text.lower (py_str V)) p); apply nodup_keys_set; exact Hd.
Qed.

(** X7. The keys of the candidate map the scanner returns are distinct
    (it is a dict), and every key is a lowercase text that passes the
    lexical test (fewer than 20 characters, no '/', no '-', no digit);
    its list is not empty and names scanned columns of the table
    only. *)
Theorem candidate_keys {FT : FloatText} (pd_tab : DataFrame)
    (regex_unk : string -> bool) (sampleID_cols : option (list string))
    (dtypes potential_unks : dict (list string)) (nan_diversity : list pyvalue) :
  get_dtypes_and_unks pd_tab regex_unk sampleID_cols =
    Ok (dtypes, potential_unks, nan_diversity) ->
  NoDup (Dict.keys potential_unks) /\
  forall v cols, In (v, cols) potential_unks ->
    Text.lower v = v /\ short_plain v = true /\ cols <> [] /\
    forall c, In c cols ->
      In c (columns pd_tab) /\ in_list c (sampleIDs_of sampleID_cols) = false.
Proof.
  intros Hr.
  pose proof (scanner_unks_nodup _ _ _ _ _ _ Hr) as Hnd.
  split; [exact Hnd|].
  pose (I := fun (done : list string) (st : scan_result) =>
               forall v cols, In (v, cols) (snd (fst st)) ->
                 cols <> [] /\
                 exists c, In c (factor_columns (snd (fst st)) v)).
  assert (HI : I (columns pd_tab) (dtypes, potential_unks, nan_diversity)).
  { apply (for_each_invariant
             (scan_column pd_tab regex_unk (sampleIDs_of sampleID_cols)) I
             (columns pd_tab) ([], [], [])); [| |exact Hr].
    - intros v cols [].
    - intros done x [[d p] n] st' Hd Hx Hb. unfold I in *. cbn [fst snd] in Hd.
      destruct (column_has_series pd_tab x Hx) as [sx Hsx].
      rewrite (scan_column_eq _ _ _ _ _ _ _ _ Hsx) in Hb.
      assert (Hp : forall p', (forall v cols, In (v, cols) p' -> cols <> []) ->
                   forall v cols, In (v, cols) p' ->
                     cols <> [] /\ exists c, In c (factor_columns p' v)).
      { intros p' Hne v cols Hin. split; [eapply Hne; eauto|].
        unfold factor_columns.
        assert (Hk : In v (Dict.keys p')) by (apply (in_map fst) in Hin; exact Hin).
        apply DictFacts.get_in in Hk.
        destruct (Dict.get v p') as [l|] eqn:Hg; [|congruence].
        apply DictFacts.in_of_get in Hg. specialize (Hne v l Hg).
        destruct l as [|c l]; [congruence|]. exists c. left. reflexivity. }
      assert (Hne : forall v cols, In (v, cols) p -> cols <> [])
        by (intros v cols Hin; apply (Hd v cols Hin)).
      destruct (in_list x (sampleIDs_of sampleID_cols)).
      + inversion Hb; subst st'. cbn [fst snd]. exact Hd.
      + destruct (existsb _ _); inversion Hb; subst st'. cbn [fst snd].
        apply Hp. clear Hp Hb.
        generalize (unique (values sx)). intros l. revert p Hd Hne.
        induction l as [|V l IH]; intros p Hd Hne; cbn [fold_left]; [exact Hne|].
        assert (Hne' : forall v cols, In (v, cols) (next_unks x p V) -> cols <> []).
        { unfold next_unks. destruct (registers V); [|exact Hne].
          intros v cols Hin. unfold Dict.setdefault_append in Hin.
          destruct (Dict.get (Text.lower (py_str V)) p) as [old|];
            apply in_dict_set in Hin; destruct Hin as [[_ ->]|Hin].
          - destruct old; discriminate.
          - eapply Hne; eauto.
          - discriminate.
          - eapply Hne; eauto. }
        apply IH; [|exact Hne'].
        intros v cols Hin. split; [eapply Hne'; eauto|].
        unfold factor_columns.
        assert (Hk : In v (Dict.keys (next_unks x p V)))
          by (apply (in_map fst) in Hin; exact Hin).
        apply DictFacts.get_in in Hk.
        destruct (Dict.get v (next_unks x p V)) as [l0|] eqn:Hg; [|congruence].
        apply DictFacts.in_of_get in Hg. specialize (Hne' v l0 Hg).
        destruct l0 as [|c l0]; [congruence|]. exists c. left. reflexivity. }
  intros v cols Hin. destruct (HI v cols Hin) as [Hne [c Hc]]. cbn [fst snd] in Hc.
  apply (scanner_unks pd_tab regex_unk sampleID_cols _ _ _ Hr) in Hc.
  destruct Hc as (s & V & Hs & Hid & HV & Hv & Hreg).
  unfold registers in Hreg. apply andb_prop in Hreg. destruct Hreg as [_ Hsp].
  rewrite Hv in Hsp. split; [rewrite <- Hv; apply lower_idempotent|].
  split; [exact Hsp|]. split; [exact Hne|].
  intros c' Hc'.
  assert (Hg : Dict.get v potential_unks = Some cols)
    by (apply DictFacts.get_of_in; assumption).
  assert (Hf : In c' (factor_columns potential_unks v))
    by (unfold factor_columns; rewrite Hg; exact Hc').
  apply (scanner_unks pd_tab regex_unk sampleID_cols _ _ _ Hr) in Hf.
  destruct Hf as (s' & V' & Hs' & Hid' & _).
  split; [eapply series_has_column; eauto | exact Hid'].
Qed.

Lemma candidate_keys_witness :
  NoDup (Dict.keys demo_unks) /\
  forall v cols, In (v, cols) demo_unks ->
    Text.lower v = v /\ short_plain v = true /\ cols <> [] /\
    forall c, In c cols ->
      In c (columns demo_table) /\ in_list c (sampleIDs_of None) = false.
Proof.
  apply (candidate_keys demo_table demo_regex None demo_dtypes demo_unks
           demo_diversity).
  vm_compute. reflexivity.
Defined.

(** ** The table of the confirmer *)

Lemma string_leb_trans (a b c : string) :
  String.leb a b = true -> String.leb b c = true -> String.leb a c = true.
Proof.
  unfold String.leb. revert b c.
  induction a as [|x a IH]; intros [|y b] [|z c]; cbn [String.compare];
    try congruence.
  specialize (IH b c). unfold Ascii.compare.
  destruct (N.compare_spec (N_of_ascii x) (N_of_ascii y)) as [Exy|Lxy|Gxy];
    destruct (N.compare_spec (N_of_ascii y) (N_of_ascii z)) as [Eyz|Lyz|Gyz];
    destruct (N.compare_spec (N_of_ascii x) (N_of_ascii z)) as [Exz|Lxz|Gxz];
    try congruence; try lia; auto.
Qed.

Section Sorting.
Context {V : Type}.

Lemma insert_item_forall (P : string * V -> Prop) (x : string * V)
    (l : list (string * V)) :
  P x -> Forall P l -> Forall P (insert_item x l).
Proof.
  intros Hx Hl. induction Hl as [|y l Hy Hl IH]; cbn [insert_item].
  - constructor; [exact Hx | constructor].
  - destruct (String.leb (fst x) (fst y)); repeat constructor; auto.
Qed.

Lemma insert_item_sorted (x : string * V) (l : list (string * V)) :
  StronglySorted key_le l -> StronglySorted key_le (insert_item x l).
Proof.
  intros Hl. induction Hl as [|y l Hl IH Hy]; cbn [insert_item].
  - repeat constructor.
  - destruct (String.leb (fst x) (fst y)) eqn:E.
    + constructor; [constructor; assumption|]. constructor; [exact E|].
      eapply Forall_impl; [|exact Hy]. intros z Hz. unfold key_le in *.
      eapply string_leb_trans; eauto.
    + constructor; [exact IH|]. apply insert_item_forall; [|exact Hy].
      unfold key_le. destruct (String.leb_total (fst x) (fst y)); congruence.
Qed.

Lemma sorted_items_sorted (d : dict V) : StronglySorted key_le (sorted_items d).
Proof.
  induction d as [|x d IH]; cbn [sorted_items]; [constructor|].
  apply insert_item_sorted. exact IH.
Qed.

Lemma filter_sorted (p : string * V -> bool) (l : list (string * V)) :
  StronglySorted key_le l -> StronglySorted key_le (filter p l).
Proof.
  intros Hl. induction Hl as [|y l Hl IH Hy]; cbn [filter]; [constructor|].
  destruct (p y); [|exact IH]. constructor; [exact IH|].
  apply Forall_forall. intros z Hz. apply filter_In in Hz.
  rewrite Forall_forall in Hy. apply Hy. tauto.
Qed.

Lemma keys_sorted (l : list (string * V)) :
  StronglySorted key_le l ->
  StronglySorted (fun a b => String.leb a b = true) (map fst l).
Proof.
  intros Hl. induction Hl as [|y l Hl IH Hy]; cbn [map]; constructor; [exact IH|].
  apply Forall_forall. intros k Hk. apply in_map_iff in Hk.
  destruct Hk as [z [<- Hz]]. rewrite Forall_forall in Hy. apply (Hy z Hz).
Qed.

Lemma nodup_keys_filter (p : string * V -> bool) (l : list (string * V)) :
  NoDup (map fst l) -> NoDup (map fst (filter p l)).
Proof.
  induction l as [|y l IH]; cbn [map filter]; intros H; [constructor|].
  inversion H as [|? ? Hy Hl]; subst. destruct (p y); cbn [map]; [|auto].
  constructor; [|auto]. intros Hin. apply Hy. apply in_map_iff in Hin.
  destruct Hin as [z [E Hz]]. apply filter_In in Hz. apply in_map_iff.
  exists z. tauto.
Qed.
End Sorting.

Section ConfirmerTable.
Variable potential_unks : dict (list string).
Variable md_pd : DataFrame.
Variable thresh : Z.

Lemma certainly_NaNs_table :
  get_certainly_NaNs potential_unks md_pd thresh =
  mk_Incidence (columns md_pd) (map fst (kept_items potential_unks md_pd thresh))
    (map (fun col =>
            map (fun item => if in_list col (snd item) then 1 else 0)
                (kept_items potential_unks md_pd thresh))
         (columns md_pd)).
Proof.
  unfold get_certainly_NaNs. rewrite sums_are_column_counts.
  unfold loc_columns, kept_items. cbn [inc_index inc_columns inc_rows].
  rewrite !map_map. f_equal.
  - apply select_map.
  - apply map_ext. intros col. apply select_map.
Qed.
End ConfirmerTable.

(** X8. The table the confirmer returns has one row per column of the
    metadata table, labelled by it, and one cell per confirmed factor in
    every row; the cell is 1 when the list of the factor names the
    column of the row and 0 otherwise. *)
Theorem confirmer_table (potential_unks : dict (list string))
    (md_pd : DataFrame) (thresh : Z) :
  let t := get_certainly_NaNs potential_unks md_pd thresh in
  inc_index t = columns md_pd /\
  List.length (inc_rows t) = List.length (columns md_pd) /\
  forall i c row,
    nth_error (columns md_pd) i = Some c ->
    nth_error (inc_rows t) i = Some row ->
    List.length row = List.length (inc_columns t) /\
    forall j factor,
      nth_error (inc_columns t) j = Some factor ->
      exists cols,
        In (factor, cols) potential_unks /\
        nth_error row j = Some (if in_list c cols then 1 else 0).
Proof.
  cbv zeta. rewrite certainly_NaNs_table. cbn [inc_index inc_rows inc_columns].
  split; [reflexivity|]. split; [apply length_map|].
  intros i c row Hc Hrow. rewrite nth_error_map, Hc in Hrow. cbn in Hrow.
  inversion Hrow; subst row. clear Hrow. rewrite !length_map. split; [reflexivity|].
  intros j factor Hf. rewrite nth_error_map in Hf.
  destruct (nth_error (kept_items potential_unks md_pd thresh) j)
    as [[g cols]|] eqn:Hj; [|discriminate].
  cbn in Hf. inversion Hf; subst g. exists cols. split.
  - apply nth_error_In in Hj. unfold kept_items in Hj. apply filter_In in Hj.
    destruct Hj as [Hj _]. apply (proj1 (in_sorted_items _ _)) in Hj. exact Hj.
  - rewrite nth_error_map, Hj. reflexivity.
Qed.

(** X9. The confirmed factors come out in ascending code-point order,
    whatever the order of the candidate map; the keys of a dict being
    distinct, no factor comes out twice. *)
Theorem confirmer_sorted (potential_unks : dict (list string))
    (md_pd : DataFrame) (thresh : Z) :
  StronglySorted (fun a b => String.leb a b = true)
    (inc_columns (get_certainly_NaNs potential_unks md_pd thresh)) /\
  (NoDup (Dict.keys potential_unks) ->
   NoDup (inc_columns (get_certainly_NaNs potential_unks md_pd thresh))) /\
  (forall other,
     Permutation potential_unks other ->
     forall factor,
       In factor (inc_columns (get_certainly_NaNs potential_unks md_pd thresh)) <->
       In factor (inc_columns (get_certainly_NaNs other md_pd thresh))).
Proof.
  split; [|split].
  - rewrite certainly_NaNs_table. cbn [inc_columns].
    apply keys_sorted, filter_sorted, sorted_items_sorted.
  - intros Hnd. rewrite certainly_NaNs_table. cbn [inc_columns].
    apply nodup_keys_filter.
    apply (Permutation_NoDup (l := map fst potential_unks)); [|exact Hnd].
    apply Permutation_map, sorted_items_perm.
  - intros other Hp factor.
    rewrite !confirmed_iff. split; intros [cols [Hin Hlt]]; exists cols; split; auto.
    + eapply Permutation_in; eauto.
    + eapply Permutation_in; [apply Permutation_sym|]; eauto.
Qed.

Lemma column_count_bound (md : DataFrame) (cols : list string) :
  column_count md cols <= List.length (columns md).
Proof. unfold column_count. apply filter_length_le. Qed.

(** X10. How the threshold acts: raising it never confirms more; a
    threshold that is at least the number of columns of the table
    confirms nothing (so the default of 10 confirms nothing on a table
    of ten columns or fewer); a negative threshold keeps every factor;
    an empty candidate map gives a table without columns. *)
Theorem confirmer_threshold_range (potential_unks : dict (list string))
    (md_pd : DataFrame) (thresh : Z) :
  (forall thresh' factor,
      (thresh <= thresh')%Z ->
      In factor (inc_columns (get_certainly_NaNs potential_unks md_pd thresh')) ->
      In factor (inc_columns (get_certainly_NaNs potential_unks md_pd thresh))) /\
  ((Z.of_nat (List.length (columns md_pd)) <= thresh)%Z ->
   inc_columns (get_certainly_NaNs potential_unks md_pd thresh) = []) /\
  ((thresh < 0)%Z ->
   forall factor, In factor (Dict.keys potential_unks) ->
     In factor (inc_columns (get_certainly_NaNs potential_unks md_pd thresh))) /\
  inc_columns (get_certainly_NaNs [] md_pd thresh) = [].
Proof.
  split; [|split; [|split]].
  - intros thresh' factor Hle. rewrite !confirmed_iff.
    intros [cols [Hin Hlt]]. exists cols. split; [exact Hin | lia].
  - intros Hle.
    destruct (inc_columns (get_certainly_NaNs potential_unks md_pd thresh))
      as [|f l] eqn:E; [reflexivity|]. exfalso.
    assert (Hf : In f (inc_columns (get_certainly_NaNs potential_unks md_pd thresh)))
      by (rewrite E; left; reflexivity).
    apply confirmed_iff in Hf. destruct Hf as [cols [_ Hlt]].
    pose proof (column_count_bound md_pd cols). lia.
  - intros Hneg factor Hin. apply confirmed_iff.
    apply in_map_iff in Hin. destruct Hin as [[g cols] [E Hin]]. cbn in E. subst g.
    exists cols. split; [exact Hin | lia].
  - rewrite certainly_NaNs_table. reflexivity.
Qed.

(** ** The finalizer: errors, the map, the table *)

Lemma for_each_raises_only {A S : Type} (body : S -> A -> result S)
    (P : exn -> Prop) (l : list A) (s : S) (e : exn) :
  (forall x s1 e1, In x l -> body s1 x = Raise e1 -> P e1) ->
  for_each body l s = Raise e -> P e.
Proof.
  revert s. induction l as [|x l IH]; intros s H; cbn [for_each]; [discriminate|].
  destruct (body s x) as [s'|e'] eqn:Hb; cbn [bind].
  - apply IH. intros y s1 e1 Hy. apply H. right. exact Hy.
  - intros E. inversion E; subst. apply (H x s e); auto. left. reflexivity.
Qed.

Section FinalizerMore.
Context {FT : FloatText} {PD : Pandas}.
Variable to_nan : option (dict pyvalue).

Lemma final_of_state (dtypes : dict (list string)) (md_pd : DataFrame)
    (ids : option (list string)) (final : dict string) (md' : DataFrame) :
  get_dtypes_final to_nan dtypes md_pd ids = Ok (final, md') <->
  exists d', get_dtypes_final_state to_nan dtypes md_pd ids = Ok (d', final, md').
Proof.
  unfold get_dtypes_final. split.
  - intros H. apply bind_ok in H. destruct H as [[[d f] m] [Hs H]].
    inversion H; subst. eauto.
  - intros [d' ->]. reflexivity.
Qed.

Lemma final_raises (dtypes : dict (list string)) (md_pd : DataFrame)
    (ids : option (list string)) (e : exn) :
  get_dtypes_final to_nan dtypes md_pd ids = Raise e <->
  get_dtypes_final_state to_nan dtypes md_pd ids = Raise e.
Proof.
  unfold get_dtypes_final.
  destruct (get_dtypes_final_state to_nan dtypes md_pd ids) as [[[d f] m]|e'];
    cbn [bind]; split; intros H; try discriminate; inversion H; reflexivity.
Qed.

Lemma finalize_column_full (ids : list string) (d : dict (list string))
    (final : dict string) (md : DataFrame) (col : string) (checks : list string)
    (d' : dict (list string)) (final' : dict string) (md' : DataFrame) :
  finalize_column to_nan ids (d, final, md) (col, checks) = Ok (d', final', md') ->
  exists code t,
    final' = Dict.set col code final /\
    Dict.append col t d = Ok d' /\
    (code = "O" /\ t = "object" \/
     code = "Q" /\ (t = "float64" \/ last_item checks = Ok t)) /\
    (md' = md \/ exists m, to_nan = Some m /\ df_replace m md col = Ok md').
Proof.
  unfold finalize_column. destruct (in_list col ids).
  - intros H. apply bind_ok in H. destruct H as [d1 [Ha H]]. inversion H; subst.
    exists "O", "object". auto 10.
  - intros H. apply bind_ok in H. destruct H as [tag [Ht H]].
    destruct (in_list tag ["check"; "object"]).
    + apply bind_ok in H. destruct H as [m [Hm H]].
      unfold read_to_nan in Hm. destruct to_nan as [m'|]; [|discriminate].
      inversion Hm; subst m'.
      apply bind_ok in H. destruct H as [md1 [Hmd H]].
      apply bind_ok in H. destruct H as [s1 [_ H]].
      destruct (rescan_breaks (unique (values s1)));
        apply bind_ok in H; destruct H as [d1 [Ha H]]; inversion H; subst.
      * exists "O", "object". eauto 10.
      * exists "Q", "float64". eauto 10.
    + apply bind_ok in H. destruct H as [d1 [Ha H]]. inversion H; subst.
      exists "Q", tag. auto 10.
Qed.

Lemma substitution_returns_spec (d : dict pyvalue) (md : DataFrame) :
  substitution_returns d md = true ->
  forall c s, Dict.get c md = Some s ->
    exists s', series_replace d s = Ok s' /\ forallb printable (values s') = true.
Proof.
  unfold substitution_returns. intros H c s Hg.
  apply DictFacts.in_of_get in Hg.
  pose proof (proj1 (forallb_forall _ _) H (c, s) Hg) as Hc. cbn [snd] in Hc.
  destruct (series_replace d s) as [s'|e]; [eauto|discriminate].
Qed.
End FinalizerMore.

(** X11. On a table with distinct labels, and when [replace] returns on
    its columns without an int that [str] refuses, the finalizer raises
    nothing but [IndexError] (an entry without a tag), [NameError] (a
    column to rescan while the name [to_nan] is not bound, as in the
    module as it is) and [KeyError] (a column to rescan that the table
    does not have).  It returns exactly when every entry that is not
    an identifier column has a last tag and, when that tag is 'check'
    or 'object', the name is bound and the entry names a column of the
    table. *)
Theorem finalizer_returns_iff {FT : FloatText} {PD : Pandas}
    (to_nan : option (dict pyvalue))
    (dtypes : dict (list string)) (md_pd : DataFrame)
    (sampleID_cols : option (list string)) :
  NoDup (Dict.keys dtypes) ->
  NoDup (columns md_pd) ->
  (forall d, to_nan = Some d -> substitution_returns d md_pd = true) ->
  (forall e, get_dtypes_final to_nan dtypes md_pd sampleID_cols = Raise e ->
             e = IndexError \/ e = NameError \/ e = KeyError) /\
  ((exists r, get_dtypes_final to_nan dtypes md_pd sampleID_cols = Ok r) <->
   (forall col checks,
       In (col, checks) dtypes ->
       in_list col (sampleIDs_of sampleID_cols) = false ->
       exists tag, last_item checks = Ok tag /\
         (in_list tag ["check"; "object"] = true ->
          to_nan <> None /\ In col (columns md_pd)))).
Proof.
  intros Hnd _ Hsub. split; [|split].
  - intros e He. apply final_raises in He.
    pose (I := fun (done : dict (list string)) (st : final_state) =>
                 forall c, ~ In c (Dict.keys done) ->
                           Dict.get c (snd st) = Dict.get c md_pd).
    apply (for_each_raises_at (finalize_column to_nan (sampleIDs_of sampleID_cols)) I
             (fun e => e = IndexError \/ e = NameError \/ e = KeyError)
             dtypes (dtypes, [], md_pd) e); [| | |exact He].
    + intros c _. reflexivity.
    + intros done [col checks] rest [[d1 f1] m1] st' El Hd Hb c Hc.
      pose proof (finalize_column_table _ _ _ _ _ _ _ _ Hb) as [_ Ho].
      unfold Dict.keys in Hc. rewrite map_app, in_app_iff in Hc.
      cbn [map fst In] in Hc. rewrite Ho by (intros ->; tauto). apply Hd. tauto.
    + intros done [col checks] rest [[d1 f1] m1] e1 El Hd Hb.
      unfold I in Hd. cbn [snd] in Hd.
      apply finalize_column_raises in Hb.
      destruct Hb
        as [[-> _]|[_ [[-> _]|(tag & _ & _ & [[-> _]|(m & s0 & Hm & Hs0 & Hre)])]]];
        auto.
      exfalso. rewrite (Hd col (fresh_key _ _ _ _ _ Hnd El)) in Hs0.
      destruct (substitution_returns_spec _ _ (Hsub m Hm) col s0 Hs0) as [s' [E _]].
      congruence.
  - intros [[final md'] Hr]. apply final_of_state in Hr. destruct Hr as [d' Hr].
    pose (I := fun (done : dict (list string)) (st : final_state) =>
                 columns (snd st) = columns md_pd /\
                 forall col checks, In (col, checks) done ->
                   in_list col (sampleIDs_of sampleID_cols) = false ->
                   exists tag, last_item checks = Ok tag /\
                     (in_list tag ["check"; "object"] = true ->
                      to_nan <> None /\ In col (columns md_pd))).
    assert (HI : I dtypes (d', final, md')).
    { apply (for_each_invariant (finalize_column to_nan (sampleIDs_of sampleID_cols))
               I dtypes (dtypes, [], md_pd)); [| |exact Hr].
      - split; [reflexivity | intros col checks []].
      - intros done [c ch] [[d1 f1] m1] [[d2 f2] m2] [Hc Hd] _ Hb. cbn [snd] in Hc.
        pose proof (finalize_column_table _ _ _ _ _ _ _ _ Hb) as [Hc2 _].
        cbn [snd] in Hc2.
        apply finalize_column_ok in Hb. destruct Hb as [code [_ Hcases]].
        split; [cbn [snd]; rewrite Hc2; exact Hc|].
        intros col checks Hin Hid. apply in_app_or in Hin.
        destruct Hin as [Hin|[Hin|[]]]; [apply (Hd col checks Hin Hid)|].
        inversion Hin; subst c ch.
        destruct Hcases as [(Hid' & _)|(_ & tag & Ht & Hcases)]; [congruence|].
        exists tag. split; [exact Ht|]. intros Hck.
        destruct Hcases as [(_ & m & s1 & Hm & _ & Hs1 & _)|(Hno & _)]; [|congruence].
        split; [congruence|].
        rewrite <- Hc, <- Hc2. apply DictFacts.get_in. congruence. }
    destruct HI as [_ HI]. exact HI.
  - intros Hwf. apply finalizer_returns; [exact Hnd| |exact Hwf].
    intros m c s0 Hm Hs0.
    destruct (substitution_returns_spec _ _ (Hsub m Hm) c s0 Hs0) as [s' [E _]].
    eauto.
Qed.

Lemma finalizer_returns_iff_witness :
  (forall e, get_dtypes_final (Some demo_to_nan) demo_dtypes demo_table None = Raise e ->
             e = IndexError \/ e = NameError \/ e = KeyError) /\
  ((exists r, get_dtypes_final (Some demo_to_nan) demo_dtypes demo_table None = Ok r) <->
   (forall col checks,
       In (col, checks) demo_dtypes ->
       in_list col (sampleIDs_of None) = false ->
       exists tag, last_item checks = Ok tag /\
         (in_list tag ["check"; "object"] = true ->
          Some demo_to_nan <> None /\ In col (columns demo_table)))).
Proof.
  apply (finalizer_returns_iff (Some demo_to_nan) demo_dtypes demo_table None).
  - repeat constructor; cbn; intuition discriminate.
  - repeat constructor; cbn; intuition discriminate.
  - intros d H. inversion H. vm_compute. reflexivity.
Defined.

Section FinalizerState.
Context {FT : FloatText} {PD : Pandas}.
Variable to_nan : option (dict pyvalue).
Variable sampleID_cols : option (list string).
Variable dtypes : dict (list string).
Variable md_pd : DataFrame.

Lemma finalizer_state_shape (d' : dict (list string)) (final : dict string)
    (md' : DataFrame) :
  NoDup (Dict.keys dtypes) ->
  get_dtypes_final_state to_nan dtypes md_pd sampleID_cols = Ok (d', final, md') ->
  Dict.keys d' = Dict.keys dtypes /\
  Dict.keys final = Dict.keys dtypes /\
  forall col checks, In (col, checks) dtypes -> tag_appended col checks d' final.
Proof.
  intros Hnd Hr.
  pose (I := fun (done : dict (list string)) (st : final_state) =>
               Dict.keys (fst (fst st)) = Dict.keys dtypes /\
               Dict.keys (snd (fst st)) = Dict.keys done /\
               (forall c, ~ In c (Dict.keys done) ->
                          Dict.get c (fst (fst st)) = Dict.get c dtypes) /\
               (forall c ch, In (c, ch) done ->
                             tag_appended c ch (fst (fst st)) (snd (fst st)))).
  assert (HI : I dtypes (d', final, md')).
  { apply (for_each_invariant_at
             (finalize_column to_nan (sampleIDs_of sampleID_cols)) I
             dtypes (dtypes, [], md_pd)); [| |exact Hr].
    - repeat split; auto. intros c ch [].
    - intros done [col checks] rest [[d1 f1] m1] [[d2 f2] m2] El
             (Hk & Hkf & Hrest & Hdone) Hb. unfold I. cbn [fst snd] in *.
      assert (Hfresh : ~ In col (Dict.keys done))
        by (eapply fresh_key; eauto).
      assert (Hget : Dict.get col d1 = Some checks).
      { rewrite (Hrest col Hfresh). apply DictFacts.get_of_in; [exact Hnd|].
        rewrite El. apply in_elt. }
      apply finalize_column_full in Hb.
      destruct Hb as (code & t & -> & Ha & Hrel & _).
      unfold Dict.append, Dict.getitem in Ha. rewrite Hget in Ha. cbn [bind] in Ha.
      inversion Ha; subst d2. clear Ha.
      assert (Hkeys : Dict.keys done ++ [col] = Dict.keys (done ++ [(col, checks)]))
        by (unfold Dict.keys; rewrite map_app; reflexivity).
      split; [|split; [|split]].
      + rewrite DictFacts.keys_set. unfold Dict.mem. rewrite Hget. exact Hk.
      + rewrite DictFacts.keys_set. unfold Dict.mem.
        assert (Hn : Dict.get col f1 = None)
          by (apply DictFacts.get_none; rewrite Hkf; exact Hfresh).
        rewrite Hn, Hkf. exact Hkeys.
      + intros c Hc. rewrite <- Hkeys, in_app_iff in Hc. cbn [In] in Hc.
        rewrite DictFacts.get_set_other by (intros ->; tauto). apply Hrest. tauto.
      + intros c ch Hin. apply in_app_or in Hin. destruct Hin as [Hin|[Hin|[]]].
        * assert (Hne : col <> c).
          { intros ->. apply Hfresh. apply (in_map fst) in Hin. exact Hin. }
          destruct (Hdone c ch Hin) as (t0 & code0 & H1 & H2 & H3).
          exists t0, code0. rewrite !DictFacts.get_set_other by exact Hne. auto.
        * inversion Hin; subst c ch. exists t, code.
          rewrite !DictFacts.get_set_same. auto. }
  destruct HI as (Hk & Hkf & _ & Hdone). cbn [fst snd] in *. auto.
Qed.

Lemma finalizer_codes (st : final_state) :
  get_dtypes_final_state to_nan dtypes md_pd sampleID_cols = Ok st ->
  forall col code, In (col, code) (snd (fst st)) -> code = "O" \/ code = "Q".
Proof.
  intros Hr.
  pose (I := fun (done : dict (list string)) (st : final_state) =>
               forall col code, In (col, code) (snd (fst st)) ->
                                code = "O" \/ code = "Q").
  change (I dtypes st).
  apply (for_each_invariant (finalize_column to_nan (sampleIDs_of sampleID_cols)) I
           dtypes (dtypes, [], md_pd)); [intros col code []| |exact Hr].
  intros done [c ch] [[d1 f1] m1] [[d2 f2] m2] Hd _ Hb. unfold I in *.
  cbn [fst snd] in *. apply finalize_column_full in Hb.
  destruct Hb as (code0 & t & -> & _ & Hrel & _).
  intros col code Hin. apply in_dict_set in Hin.
  destruct Hin as [[_ ->]|Hin]; [|eauto].
  destruct Hrel as [[-> _]|[-> _]]; auto.
Qed.

(** The table on the way out: labels kept, and the columns that
    [dtypes] does not name as they were; nothing at all has changed
    when the name [to_nan] is not bound. *)
Lemma finalizer_table (st : final_state) :
  get_dtypes_final_state to_nan dtypes md_pd sampleID_cols = Ok st ->
  columns (snd st) = columns md_pd /\
  (forall c, ~ In c (Dict.keys dtypes) -> Dict.get c (snd st) = Dict.get c md_pd) /\
  (to_nan = None -> snd st = md_pd).
Proof.
  intros Hr.
  pose (I := fun (done : dict (list string)) (st : final_state) =>
               columns (snd st) = columns md_pd /\
               (forall c, ~ In c (Dict.keys done) ->
                          Dict.get c (snd st) = Dict.get c md_pd) /\
               (to_nan = None -> snd st = md_pd)).
  change (I dtypes st).
  apply (for_each_invariant (finalize_column to_nan (sampleIDs_of sampleID_cols)) I
           dtypes (dtypes, [], md_pd)); [| |exact Hr].
  - repeat split; reflexivity.
  - intros done [c ch] [[d1 f1] m1] [[d2 f2] m2] (Hc & Hun & Hnone) _ Hb.
    unfold I. cbn [snd] in *.
    pose proof (finalize_column_table _ _ _ _ _ _ _ _ Hb) as [Hc2 Ho].
    cbn [snd] in Hc2, Ho.
    split; [rewrite Hc2; exact Hc|]. split.
    + intros x Hx. unfold Dict.keys in Hx. rewrite map_app, in_app_iff in Hx.
      cbn [map fst In] in Hx. rewrite Ho by (intros ->; tauto). apply Hun. tauto.
    + intros Hn. apply finalize_column_full in Hb.
      destruct Hb as (_ & _ & _ & _ & _ & [->|(m & Hm & _)]); [auto|congruence].
Qed.
End FinalizerState.

(** X12. The finalized-type map has one entry per entry of [dtypes], in
    the same order, and each is 'O' or 'Q'.  An entry that is not an
    identifier column and whose last tag is neither 'check' nor 'object'
    gets 'Q' without a look at the table, whose column stays as it was. *)
Theorem finalizer_map_shape {FT : FloatText} {PD : Pandas}
    (to_nan : option (dict pyvalue))
    (dtypes : dict (list string)) (md_pd : DataFrame)
    (sampleID_cols : option (list string))
    (dtypes_final : dict string) (md' : DataFrame) :
  NoDup (Dict.keys dtypes) ->
  get_dtypes_final to_nan dtypes md_pd sampleID_cols = Ok (dtypes_final, md') ->
  Dict.keys dtypes_final = Dict.keys dtypes /\
  (forall col code, In (col, code) dtypes_final -> code = "O" \/ code = "Q") /\
  (forall col checks tag,
      In (col, checks) dtypes ->
      in_list col (sampleIDs_of sampleID_cols) = false ->
      last_item checks = Ok tag -> tag <> "check" -> tag <> "object" ->
      Dict.get col dtypes_final = Some "Q" /\
      Dict.get col md' = Dict.get col md_pd).
Proof.
  intros Hnd Hr. apply final_of_state in Hr. destruct Hr as [d' Hr].
  destruct (finalizer_state_shape _ _ _ _ _ _ _ Hnd Hr) as (_ & Hk & _).
  split; [exact Hk|]. split.
  - apply (finalizer_codes _ _ _ _ _ Hr).
  - intros col checks tag Hin Hid Ht Hn1 Hn2.
    destruct (finalizer_entries to_nan sampleID_cols dtypes md_pd d' dtypes_final md'
                Hnd Hr col checks Hin) as [_ Hf].
    destruct (Hf Hid) as [tag' [Ht' [_ Hno]]].
    assert (tag' = tag) by congruence. subst tag'. apply Hno.
    unfold in_list. cbn [existsb].
    destruct (String.eqb_spec tag "check"); [contradiction|].
    destruct (String.eqb_spec tag "object"); [contradiction|]. reflexivity.
Qed.

Lemma finalizer_map_shape_witness :
  Dict.keys demo_final = Dict.keys demo_dtypes /\
  (forall col code, In (col, code) demo_final -> code = "O" \/ code = "Q") /\
  (forall col checks tag,
      In (col, checks) demo_dtypes ->
      in_list col (sampleIDs_of None) = false ->
      last_item checks = Ok tag -> tag <> "check" -> tag <> "object" ->
      Dict.get col demo_final = Some "Q" /\
      Dict.get col demo_replaced = Dict.get col demo_table).
Proof.
  apply (finalizer_map_shape (Some demo_to_nan) demo_dtypes demo_table None
           demo_final demo_replaced).
  - repeat constructor; cbn; intuition discriminate.
  - vm_compute. reflexivity.
Defined.

(** X13. The table the finalizer returns has the columns of the table it
    was given, in the same order.  Each column comes back either as it
    was or as what [replace] has made of it, with the mapping applied
    to it once; an identifier column, or a column that [dtypes] does
    not name, comes back as it was.  While the name [to_nan] is not
    bound, a call that returns returns the table it was given. *)
Theorem finalizer_table_frame {FT : FloatText} {PD : Pandas}
    (to_nan : option (dict pyvalue))
    (dtypes : dict (list string)) (md_pd : DataFrame)
    (sampleID_cols : option (list string))
    (dtypes_final : dict string) (md' : DataFrame) :
  NoDup (Dict.keys dtypes) ->
  get_dtypes_final to_nan dtypes md_pd sampleID_cols = Ok (dtypes_final, md') ->
  columns md' = columns md_pd /\
  (forall c s, Dict.get c md_pd = Some s ->
     Dict.get c md' = Some s \/
     exists d s', to_nan = Some d /\ series_replace d s = Ok s' /\
                  Dict.get c md' = Some s') /\
  (forall c, ~ In c (Dict.keys dtypes) \/
             in_list c (sampleIDs_of sampleID_cols) = true ->
             Dict.get c md' = Dict.get c md_pd) /\
  (to_nan = None -> md' = md_pd).
Proof.
  intros Hnd Hr. apply final_of_state in Hr. destruct Hr as [d' Hr].
  destruct (finalizer_table to_nan sampleID_cols dtypes md_pd _ Hr)
    as (Hc & Hun & Hnone). cbn [snd] in *.
  pose proof (finalizer_entries to_nan sampleID_cols dtypes md_pd d' dtypes_final md'
                Hnd Hr) as Hent.
  assert (Hid : forall c, In c (Dict.keys dtypes) ->
                          in_list c (sampleIDs_of sampleID_cols) = true ->
                          Dict.get c md' = Dict.get c md_pd).
  { intros c Hin E. unfold Dict.keys in Hin. apply in_map_iff in Hin.
    destruct Hin as [[c' ch] [<- Hin]]. cbn [fst] in *.
    destruct (Hent c' ch Hin) as [Hyes _]. apply (Hyes E). }
  split; [exact Hc|]. split; [|split; [|exact Hnone]].
  - intros c s Hg.
    destruct (in_dec string_dec c (Dict.keys dtypes)) as [Hin|Hout].
    + destruct (in_list c (sampleIDs_of sampleID_cols)) eqn:E.
      * left. rewrite (Hid c Hin E). exact Hg.
      * unfold Dict.keys in Hin. apply in_map_iff in Hin.
        destruct Hin as [[c' ch] [<- Hin]]. cbn [fst] in *.
        destruct (Hent c' ch Hin) as [_ Hno].
        destruct (Hno E) as (tag & _ & Hck & Hother).
        destruct (in_list tag ["check"; "object"]).
        -- destruct (Hck eq_refl) as (d & s0 & s' & Hd & Hs0 & Hrep & Hmd & _).
           assert (s0 = s) by congruence. subst s0. right. eauto.
        -- destruct (Hother eq_refl) as [_ Hsame]. left. congruence.
    + left. rewrite (Hun c Hout). exact Hg.
  - intros c [Hout|E]; [apply Hun; exact Hout|].
    destruct (in_dec string_dec c (Dict.keys dtypes)) as [Hin|Hout];
      [apply Hid; assumption|apply Hun; exact Hout].
Qed.

Lemma finalizer_table_frame_witness :
  columns demo_replaced = columns demo_table /\
  (forall c s, Dict.get c demo_table = Some s ->
     Dict.get c demo_replaced = Some s \/
     exists d s', Some demo_to_nan = Some d /\ series_replace d s = Ok s' /\
                  Dict.get c demo_replaced = Some s') /\
  (forall c, ~ In c (Dict.keys demo_dtypes) \/
             in_list c (sampleIDs_of None) = true ->
             Dict.get c demo_replaced = Dict.get c demo_table) /\
  (Some demo_to_nan = None -> demo_replaced = demo_table).
Proof.
  apply (finalizer_table_frame (Some demo_to_nan) demo_dtypes demo_table None
           demo_final).
  - repeat constructor; cbn; intuition discriminate.
  - vm_compute. reflexivity.
Defined.

(** X14. The finalizer grows every list of [dtypes] by exactly one tag
    and keeps its keys: 'object' goes with the code 'O'; with the code
    'Q' goes 'float64' or a copy of the last tag. *)
Theorem finalizer_appends_tag {FT : FloatText} {PD : Pandas}
    (to_nan : option (dict pyvalue))
    (dtypes : dict (list string)) (md_pd : DataFrame)
    (sampleID_cols : option (list string))
    (dtypes' : dict (list string)) (dtypes_final : dict string) (md' : DataFrame) :
  NoDup (Dict.keys dtypes) ->
  get_dtypes_final_state to_nan dtypes md_pd sampleID_cols =
    Ok (dtypes', dtypes_final, md') ->
  Dict.keys dtypes' = Dict.keys dtypes /\
  forall col checks, In (col, checks) dtypes ->
    exists t,
      Dict.get col dtypes' = Some (checks ++ [t]) /\
      (Dict.get col dtypes_final = Some "O" -> t = "object") /\
      (Dict.get col dtypes_final = Some "Q" ->
       t = "float64" \/ last_item checks = Ok t).
Proof.
  intros Hnd Hr.
  destruct (finalizer_state_shape _ _ _ _ _ _ _ Hnd Hr) as (Hk & _ & Hall).
  split; [exact Hk|]. intros col checks Hin.
  destruct (Hall col checks Hin) as (t & code & Hd & Hf & Hrel).
  exists t. split; [exact Hd|]. rewrite Hf.
  destruct Hrel as [[-> ->]|[-> Ht]]; split; intros H; try discriminate; auto.
Qed.

Lemma finalizer_appends_tag_witness :
  Dict.keys [("sample_name", ["object"; "object"; "object"]);
             ("age", ["object"; "float64"; "float64"]);
             ("weight_kg", ["object"; "check"; "float64"]);
             ("host_diet", ["object"; "object"; "object"])] =
  Dict.keys demo_dtypes /\
  forall col checks, In (col, checks) demo_dtypes ->
    exists t,
      Dict.get col [("sample_name", ["object"; "object"; "object"]);
                    ("age", ["object"; "float64"; "float64"]);
                    ("weight_kg", ["object"; "check"; "float64"]);
                    ("host_diet", ["object"; "object"; "object"])] =
        Some (checks ++ [t]) /\
      (Dict.get col demo_final = Some "O" -> t = "object") /\
      (Dict.get col demo_final = Some "Q" ->
       t = "float64" \/ last_item checks = Ok t).
Proof.
  apply (finalizer_appends_tag (Some demo_to_nan) demo_dtypes demo_table None
           _ demo_final demo_replaced).
  - repeat constructor; cbn; intuition discriminate.
  - vm_compute. reflexivity.
Defined.

(** ** The rewriter: what it makes of the table *)

Section RewriterMore.
Context {FT : FloatText}.

Lemma map_result_ok {A B : Type} (f : A -> result B) (l : list A) :
  (forall x, In x l -> exists y, f x = Ok y) <->
  exists ys, map_result f l = Ok ys.
Proof.
  induction l as [|x l IH]; cbn [map_result In].
  - split; [eexists; reflexivity|intros _ x []].
  - split.
    + intros H. destruct (H x (or_introl eq_refl)) as [y Hy]. rewrite Hy. cbn [bind].
      destruct (proj1 IH (fun z Hz => H z (or_intror Hz))) as [ys Hys].
      rewrite Hys. eexists. reflexivity.
    + intros [ys H]. apply bind_ok in H. destruct H as [y [Hy H]].
      apply bind_ok in H. destruct H as [ys' [Hys _]].
      intros z [<-|Hz]; [eauto|]. apply (proj2 IH); eauto.
Qed.

Lemma map_result_raises {A B : Type} (f : A -> result B) (l : list A) (e : exn) :
  map_result f l = Raise e -> exists x, In x l /\ f x = Raise e.
Proof.
  induction l as [|x l IH]; cbn [map_result]; [discriminate|].
  destruct (f x) as [y|e'] eqn:E; cbn [bind].
  - destruct (map_result f l) as [ys|e'']; cbn [bind]; [discriminate|].
    intros H. inversion H; subst. destruct (IH eq_refl) as [z [Hz Hf]].
    exists z. split; [right; exact Hz|exact Hf].
  - intros H. inversion H; subst. exists x. split; [left; reflexivity|exact E].
Qed.

Lemma to_float64_ok (v : pyvalue) :
  (exists f, to_float64 v = Ok f) <-> v = VNone \/ parses v = true.
Proof.
  assert (G : forall c : result float,
             v <> VNone -> (exists f, c = Ok f) <-> v = VNone \/ is_ok c = true).
  { intros [f0|e0] Hv; unfold is_ok; split.
    - intros _. right. reflexivity.
    - intros _. eauto.
    - intros [f1 H1]. discriminate.
    - intros [H1|H1]; [contradiction|discriminate]. }
  unfold parses. destruct v; cbn [to_float64]; try (apply G; discriminate).
  split; [left; reflexivity|eexists; reflexivity].
Qed.

Lemma to_float64_raises (v : pyvalue) (e : exn) :
  to_float64 v = Raise e -> e = ValueError \/ e = OverflowError.
Proof.
  destruct v as [s|f|z|b|]; cbn [to_float64 py_float]; try discriminate.
  - destruct (FloatSyntax.float_syntax s); [discriminate|].
    intros H; inversion H; auto.
  - destruct (PrimFloat.is_infinity (float_of_int z)); [|discriminate].
    intros H; inversion H; auto.
Qed.

Lemma astype_float64_ok (s : Series) :
  (exists s', astype_float64 s = Ok s') <-> float_cells s.
Proof.
  unfold astype_float64, float_cells. split.
  - intros [s' H]. apply bind_ok in H. destruct H as [fs [H _]].
    intros v Hv. apply to_float64_ok.
    apply (proj2 (map_result_ok to_float64 (values s))); eauto.
  - intros H.
    destruct (proj1 (map_result_ok to_float64 (values s))) as [fs Hfs].
    + intros v Hv. apply to_float64_ok. auto.
    + rewrite Hfs. eexists. reflexivity.
Qed.

Lemma rectify_column_full (md md' : DataFrame) (col dtype : string) :
  rectify_column md (col, dtype) = Ok md' ->
  exists s s', Dict.get col md = Some s /\ rewritten_as dtype s s' /\
               md' = Dict.set col s' md.
Proof.
  unfold rectify_column, rewritten_as, df_getitem, df_setitem, Dict.getitem.
  destruct (Dict.get col md) as [s|] eqn:Hg.
  - assert (Hin : in_list col (columns md) = true).
    { apply in_list_true. apply DictFacts.get_in. congruence. }
    rewrite Hin. cbn [bind]. destruct (String.eqb dtype "Q").
    + intros H. apply bind_ok in H. destruct H as [s' [Hs' H]].
      inversion H. eauto.
    + intros H. inversion H. eauto.
  - destruct (in_list col (columns md)); [destruct (String.eqb dtype "Q")|];
      discriminate.
Qed.

Lemma rectify_column_raises (md : DataFrame) (col dtype : string) (e : exn) :
  rectify_column md (col, dtype) = Raise e ->
  e = KeyError \/ e = ValueError \/ e = OverflowError.
Proof.
  unfold rectify_column, df_getitem, df_setitem, Dict.getitem.
  destruct (Dict.get col md) as [s|]; cbn [bind].
  - destruct (in_list col (columns md)); [|discriminate].
    destruct (String.eqb dtype "Q"); [|discriminate].
    unfold astype_float64.
    destruct (map_result to_float64 (values s)) as [fs|e'] eqn:E; cbn [bind];
      [discriminate|].
    intros H. inversion H; subst.
    apply map_result_raises in E. destruct E as [v [_ Hv]].
    right. eapply to_float64_raises; eauto.
  - destruct (in_list col (columns md)); [destruct (String.eqb dtype "Q")|];
      intros H; inversion H; auto.
Qed.

Lemma rewriter_state (dtypes_final : dict string) (md md' : DataFrame) :
  NoDup (Dict.keys dtypes_final) ->
  rectify_dtypes_in_md dtypes_final md = Ok md' ->
  columns md' = columns md /\
  (forall c, ~ In c (Dict.keys dtypes_final) -> Dict.get c md' = Dict.get c md) /\
  (forall col dtype, In (col, dtype) dtypes_final ->
     exists s s', Dict.get col md = Some s /\ rewritten_as dtype s s' /\
                  Dict.get col md' = Some s').
Proof.
  intros Hnd Hr.
  pose (I := fun (done : dict string) (st : DataFrame) =>
               columns st = columns md /\
               (forall c, ~ In c (Dict.keys done) -> Dict.get c st = Dict.get c md) /\
               (forall col dtype, In (col, dtype) done ->
                  exists s s', Dict.get col md = Some s /\ rewritten_as dtype s s' /\
                               Dict.get col st = Some s')).
  assert (HI : I dtypes_final md').
  { apply (for_each_invariant_at rectify_column I dtypes_final md); [| |exact Hr].
    - repeat split; auto. intros col dtype [].
    - intros done [col dtype] rest st st' El (Hc & Hrest & Hdone) Hb. unfold I.
      assert (Hfresh : ~ In col (Dict.keys done)).
      { rewrite El in Hnd. unfold Dict.keys in *. rewrite map_app in Hnd.
        cbn [map fst] in Hnd. apply NoDup_remove_2 in Hnd.
        intros H. apply Hnd. apply in_or_app. left. exact H. }
      apply rectify_column_full in Hb.
      destruct Hb as (s & s' & Hg & Hrw & ->).
      assert (Hkeys : Dict.keys (done ++ [(col, dtype)]) = Dict.keys done ++ [col])
        by (unfold Dict.keys; rewrite map_app; reflexivity).
      split; [|split].
      + rewrite columns_setitem; [exact Hc|]. apply DictFacts.get_in. congruence.
      + intros c Hn. rewrite Hkeys, in_app_iff in Hn. cbn [In] in Hn.
        rewrite DictFacts.get_set_other by (intros ->; tauto). apply Hrest. tauto.
      + intros c d Hin. apply in_app_or in Hin. destruct Hin as [Hin|[Hin|[]]].
        * assert (Hne : col <> c).
          { intros ->. apply Hfresh. apply (in_map fst) in Hin. exact Hin. }
          destruct (Hdone c d Hin) as (s0 & s0' & H1 & H2 & H3).
          exists s0, s0'. rewrite DictFacts.get_set_other by exact Hne. auto.
        * inversion Hin; subst c d. exists s, s'.
          rewrite DictFacts.get_set_same. rewrite <- (Hrest col Hfresh). auto. }
  exact HI.
Qed.
End RewriterMore.

(** X15. A returning call of the rewriter keeps the column labels and
    their order.  A column named with 'Q' becomes the float64 column of
    its cells, one named with another code becomes the column of the
    string forms of its cells, and a column that [dtypes_final] does not
    name is left as it was. *)
Theorem rewriter_coerces {FT : FloatText} (dtypes_final : dict string)
    (md_pd md' : DataFrame) :
  NoDup (Dict.keys dtypes_final) ->
  rectify_dtypes_in_md dtypes_final md_pd = Ok md' ->
  columns md' = columns md_pd /\
  (forall col dtype, In (col, dtype) dtypes_final ->
     exists s s', Dict.get col md_pd = Some s /\ Dict.get col md' = Some s' /\
       List.length (values s') = List.length (values s) /\
       (dtype = "Q" -> astype_float64 s = Ok s') /\
       (dtype <> "Q" -> s' = astype_str s)) /\
  (forall c, ~ In c (Dict.keys dtypes_final) -> Dict.get c md' = Dict.get c md_pd).
Proof.
  intros Hnd Hr. destruct (rewriter_state _ _ _ Hnd Hr) as (Hc & Hrest & Hall).
  split; [exact Hc|]. split; [|exact Hrest].
  intros col dtype Hin. destruct (Hall col dtype Hin) as (s & s' & Hg & Hrw & Hg').
  exists s, s'. split; [exact Hg|]. split; [exact Hg'|].
  unfold rewritten_as in Hrw. destruct (String.eqb_spec dtype "Q") as [->|Hne].
  - assert (Hrw' := Hrw). unfold astype_float64 in Hrw'. apply bind_ok in Hrw'.
    destruct Hrw' as [fs [Hfs H]]. inversion H; subst s'. cbn [values dtype_name].
    split; [|split; [auto|intros H0; contradiction]].
    rewrite length_map. clear - Hfs. revert fs Hfs.
    induction (values s) as [|v l IH]; cbn [map_result]; intros fs H.
    + inversion H. reflexivity.
    + apply bind_ok in H. destruct H as [y [_ H]].
      apply bind_ok in H. destruct H as [ys [Hys H]]. inversion H; subst.
      cbn [List.length]. f_equal. apply IH. exact Hys.
  - subst s'. unfold astype_str. cbn [values dtype_name]. rewrite length_map.
    split; [reflexivity|]. split; [intros H; contradiction|auto].
Qed.

Lemma rewriter_coerces_witness :
  columns demo_rewritten = columns demo_replaced /\
  (forall col dtype, In (col, dtype) demo_final ->
     exists s s', Dict.get col demo_replaced = Some s /\
       Dict.get col demo_rewritten = Some s' /\
       List.length (values s') = List.length (values s) /\
       (dtype = "Q" -> astype_float64 s = Ok s') /\
       (dtype <> "Q" -> s' = astype_str s)) /\
  (forall c, ~ In c (Dict.keys demo_final) ->
     Dict.get c demo_rewritten = Dict.get c demo_replaced).
Proof.
  apply (rewriter_coerces demo_final demo_replaced demo_rewritten).
  - repeat constructor; cbn; intuition discriminate.
  - vm_compute. reflexivity.
Defined.

(** X16. On a table with distinct labels and without an int that [str]
    refuses, the rewriter raises nothing but [KeyError], [ValueError]
    and [OverflowError].  It returns exactly when every key of
    [dtypes_final] is a column of the table and every cell of a column
    named with 'Q' is [None] or a value [float] takes. *)
Theorem rewriter_returns_iff {FT : FloatText} (dtypes_final : dict string)
    (md_pd : DataFrame) :
  NoDup (Dict.keys dtypes_final) ->
  NoDup (columns md_pd) ->
  printable_table md_pd = true ->
  (forall e, rectify_dtypes_in_md dtypes_final md_pd = Raise e ->
             e = KeyError \/ e = ValueError \/ e = OverflowError) /\
  ((exists md', rectify_dtypes_in_md dtypes_final md_pd = Ok md') <->
   (forall col dtype, In (col, dtype) dtypes_final ->
      exists s, Dict.get col md_pd = Some s /\ (dtype = "Q" -> float_cells s))).
Proof.
  intros Hnd _ _. split; [|split].
  - intros e He.
    apply (for_each_raises_only rectify_column
             (fun e => e = KeyError \/ e = ValueError \/ e = OverflowError)
             dtypes_final md_pd e); [|exact He].
    intros [col dtype] st e1 _ H. eapply rectify_column_raises; eauto.
  - intros [md' Hr] col dtype Hin.
    destruct (rewriter_state _ _ _ Hnd Hr) as (_ & _ & Hall).
    destruct (Hall col dtype Hin) as (s & s' & Hg & Hrw & _).
    exists s. split; [exact Hg|]. intros ->. unfold rewritten_as in Hrw.
    cbn [String.eqb Ascii.eqb Bool.eqb] in Hrw. apply astype_float64_ok. eauto.
  - intros Hall.
    pose (I := fun st : DataFrame =>
                 forall col dtype, In (col, dtype) dtypes_final ->
                   exists s, Dict.get col st = Some s /\
                             (dtype = "Q" -> float_cells s)).
    destruct (for_each_returns_with rectify_column I dtypes_final md_pd)
      as [md' [Hr _]]; [exact Hall| |exists md'; exact Hr].
    intros [col dtype] st Hin HI. destruct (HI col dtype Hin) as [s [Hg Hq]].
    assert (Hcol : in_list col (columns st) = true).
    { apply in_list_true. apply DictFacts.get_in. congruence. }
    assert (Hstep : exists s', rectify_column st (col, dtype) = Ok (Dict.set col s' st) /\
                               (dtype = "Q" -> float_cells s')).
    { unfold rectify_column, df_getitem, df_setitem, Dict.getitem.
      rewrite Hcol, Hg. cbn [bind]. destruct (String.eqb_spec dtype "Q") as [->|Hne].
      - destruct (proj2 (astype_float64_ok s) (Hq eq_refl)) as [s' Hs'].
        rewrite Hs'. cbn [bind]. exists s'. split; [reflexivity|]. intros _.
        unfold astype_float64 in Hs'. apply bind_ok in Hs'.
        destruct Hs' as [fs [_ H]]. inversion H. unfold float_cells. cbn [values].
        intros v Hv. apply in_map_iff in Hv. destruct Hv as [f [<- _]].
        right. reflexivity.
      - eexists. split; [reflexivity|]. intros ->. contradiction. }
    destruct Hstep as [s' [Hs' Hq']]. eexists. split; [exact Hs'|].
    intros c d Hcd. destruct (String.eqb_spec col c) as [<-|Hne].
    + rewrite DictFacts.get_set_same. exists s'. split; [reflexivity|].
      assert (d = dtype).
      { clear - Hnd Hin Hcd. 
        assert (G : Dict.get col dtypes_final = Some d)
          by (apply DictFacts.get_of_in; assumption).
        assert (G' : Dict.get col dtypes_final = Some dtype)
          by (apply DictFacts.get_of_in; assumption).
        congruence. }
      subst d. exact Hq'.
    + rewrite DictFacts.get_set_other by exact Hne. apply HI. exact Hcd.
Qed.

Lemma rewriter_returns_iff_witness :
  (forall e, rectify_dtypes_in_md demo_final demo_replaced = Raise e ->
             e = KeyError \/ e = ValueError \/ e = OverflowError) /\
  ((exists md', rectify_dtypes_in_md demo_final demo_replaced = Ok md') <->
   (forall col dtype, In (col, dtype) demo_final ->
      exists s, Dict.get col demo_replaced = Some s /\ (dtype = "Q" -> float_cells s))).
Proof.
  apply (rewriter_returns_iff demo_final demo_replaced).
  - repeat constructor; cbn; intuition discriminate.
  - repeat constructor; cbn; intuition discriminate.
  - vm_compute. reflexivity.
Defined.

(** ** The scanner, then the finalizer *)

Section PipelineMore.
Context {FT : FloatText}.


End PipelineMore.


